(** * InfoBot: the check-and-notify pipeline

    A shallow embedding of the bot's scheduler, its three source pollers
    (YouTube, Instagram, LinkedIn), the SQLite-backed dedup store and the
    Discord dispatcher, followed by the properties of the pipeline.

    Conventions of the embedding.
    - An [async] method is a computation in the monad [M]: it reads and
      updates a [World] (clock, database tables, service instances, the
      replies the outside world is going to give) and completes normally,
      by a thrown JavaScript error, or by running out of loop fuel.
    - [Date] values are instants in milliseconds or [InvalidDate]; the text
      produced by [toISOString] is identified with the instant it denotes.
    - SQLite's [CURRENT_TIMESTAMP] has a resolution of one second.
    - Every call into sqlite3, axios and discord.js is answered from a queue
      of replies held in the world, so that every behaviour of the
      collaborators (failures included) is covered by quantifying over
      worlds.  Each such call is also appended to [trace]. *)

From Stdlib Require Import ZArith List Ascii String Bool Lia Sorted
  RelationClasses.
Import ListNotations.
Local Open Scope string_scope.
Local Open Scope list_scope.
Local Open Scope Z_scope.

(** ** JavaScript values *)

Record JsError := mkError { message : string; status : option Z }.

(** [new Error(msg)]: an error without an HTTP response attached. *)
Definition Error (msg : string) : JsError := mkError msg None.

Definition IsoString := Z.

Inductive JsDate :=
| ValidDate (ms : Z)
| InvalidDate.

(** [a > b] on dates: the comparison of the time values, false when either
    is NaN. *)
Definition date_gt (a b : JsDate) : bool :=
  match a, b with
  | ValidDate x, ValidDate y => y <? x
  | _, _ => false
  end.

(** [d.toISOString()] raises a RangeError on an invalid date. *)
Definition toISOString (d : JsDate) : JsError + IsoString :=
  match d with
  | ValidDate ms => inr ms
  | InvalidDate => inl (Error "Invalid time value")
  end.

(** [new Date(text)] for a text written by [toISOString]. *)
Definition parseDate (s : IsoString) : JsDate := ValidDate s.

(** JavaScript truthiness of a possibly missing configuration string. *)
Definition truthy (s : option string) : bool :=
  match s with
  | Some v => negb (v =? "")%string
  | None => false
  end.

(** [s.toLowerCase()] for a string of ASCII characters. *)
Definition lowerChar (c : ascii) : ascii :=
  let n := nat_of_ascii c in
  if ((65 <=? n) && (n <=? 90))%nat then ascii_of_nat (n + 32) else c.

Fixpoint toLowerCase (s : string) : string :=
  match s with
  | String c rest => String (lowerChar c) (toLowerCase rest)
  | EmptyString => EmptyString
  end.

(** A video or post as the pollers produce it ([publishedAt] for videos,
    [timestamp] for posts). *)
Record ContentItem := mkItem {
  item_id : string;
  item_timestamp : JsDate;
  item_url : string
}.

(** ** Text whose characters matter

    Identifiers, urls and messages are only compared, searched and
    concatenated; they are kept as [string].  A description, a caption or
    the text of a post is measured and cut, so it is kept as the UTF-16
    code units that [length], [substring] and [trim] count. *)

Definition JsString : Type := list N.

(** The code units of an ASCII literal. *)
Definition units (s : string) : JsString :=
  map Ascii.N_of_ascii (list_ascii_of_string s).

(** WhiteSpace and LineTerminator of ECMAScript: tab, line feed, vertical
    tab, form feed, carriage return, space, no-break space, the other
    space separators (U+1680, U+2000 to U+200A, U+202F, U+205F, U+3000),
    the line and paragraph separators and the byte order mark. *)
Definition isWhiteSpace (c : N) : bool :=
  (existsb (N.eqb c)
     [9; 10; 11; 12; 13; 32; 160; 5760; 8232; 8233; 8239; 8287; 12288;
      65279]
   || ((8192 <=? c) && (c <=? 8202)))%N.

Fixpoint trimStart (s : JsString) : JsString :=
  match s with
  | c :: rest => if isWhiteSpace c then trimStart rest else s
  | [] => []
  end.

Definition trimEnd (s : JsString) : JsString := rev (trimStart (rev s)).

(** [s.trim()] *)
Definition trim (s : JsString) : JsString := trimEnd (trimStart s).

(** [s.substring(a, b)]: both ends are clamped to the string and swapped
    when they come in the wrong order. *)
Definition js_substring (a b : Z) (s : JsString) : JsString :=
  let a' := Nat.min (Z.to_nat a) (List.length s) in
  let b' := Nat.min (Z.to_nat b) (List.length s) in
  firstn (Nat.max a' b' - Nat.min a' b') (skipn (Nat.min a' b') s).

(** ** Persistent tables *)

Record LastUpdate := mkLastUpdate {
  lu_id : Z;
  lu_platform : string;
  last_check_time : Z;
  last_content_id : option string;
  last_content_timestamp : option IsoString;
  lu_created_at : Z;
  lu_updated_at : Z
}.

Record SentNotification := mkSent {
  sn_id : Z;
  sn_platform : string;
  content_id : string;
  content_url : string;
  discord_message_id : string;
  sent_at : Z
}.

Record Tables := mkTables {
  last_updates : list LastUpdate;
  last_updates_seq : Z;
  sent_notifications : list SentNotification;
  sent_notifications_seq : Z
}.

Definition empty_tables : Tables := mkTables [] 0 [] 0.

(** ** Replies of the collaborators *)

Inductive YtReply :=
| YtVideos (videos : list ContentItem)
| YtFails (msg : string).

(** The reply to the search for the channel of a handle: the
    [snippet.channelId] of every item of [response.data.items] ([None]
    where an item has none), or the error raised by the request or while
    the reply is read. *)
Inductive YtSearchReply :=
| YtChannels (channelIds : list (option string))
| YtSearchFails (msg : string).

(** The JSON found in the profile page: either [parseInstagramData]
    extracts the posts of the timeline, or it catches an error. *)
Inductive IgData :=
| IgTimeline (items : list ContentItem)
| IgMalformed (msg : string).

(** [IgLoaded None]: the page was fetched and holds no JSON. *)
Inductive IgReply :=
| IgThrows (msg : string) (http_status : option Z)
| IgLoaded (jsonData : option IgData).

Inductive LiReply :=
| LiThrows (msg : string)
| LiLoaded (posts : list ContentItem).

Inductive ChannelReply :=
| ChSent (message_id : string)
| ChFails (msg : string).

(** ** Calls observed at the boundary of the process *)

Inductive Event :=
| EvGetLastUpdate (platform : string)
| EvUpdateLastCheck (platform : string) (lastContentId : option string)
    (lastContentTimestamp : option IsoString)
| EvIsNotificationSent (platform contentId : string)
| EvRecordSentNotification (platform contentId : string)
| EvGetBotStats
| EvCleanupOldNotifications
| EvHttpGet (platform : string)
| EvChannelSend (platform contentId : string)
| EvChannelMessage (content : string).

(** ** Service instances *)

Record YouTubeConfig := mkYouTube {
  apiKey : option string;
  channelId : option string;
  channelHandle : option string
}.

Record InstagramState := mkInstagram {
  username : option string;
  ig_lastRequestTime : Z;
  failureCount : Z
}.

Record LinkedInState := mkLinkedIn {
  profileUrl : option string;
  li_lastRequestTime : Z
}.

Record DiscordState := mkDiscord {
  isReady : bool;
  announcementChannel : bool
}.

Record World := mkWorld {
  now : Z;
  tables : Tables;
  db_faults : list (option string);
  yt_replies : list YtReply;
  ig_replies : list IgReply;
  li_replies : list LiReply;
  channel_replies : list ChannelReply;
  trace : list Event;
  youtube : YouTubeConfig;
  instagram : InstagramState;
  linkedin : LinkedInState;
  discord : DiscordState;
  lastErrorSummaryTime : option Z;
  yt_search_replies : list YtSearchReply
}.

Definition set_now (v : Z) (w : World) : World :=
  mkWorld v (tables w) (db_faults w) (yt_replies w) (ig_replies w)
    (li_replies w) (channel_replies w) (trace w) (youtube w) (instagram w)
    (linkedin w) (discord w) (lastErrorSummaryTime w) (yt_search_replies w).

Definition set_tables (v : Tables) (w : World) : World :=
  mkWorld (now w) v (db_faults w) (yt_replies w) (ig_replies w)
    (li_replies w) (channel_replies w) (trace w) (youtube w) (instagram w)
    (linkedin w) (discord w) (lastErrorSummaryTime w) (yt_search_replies w).

Definition set_db_faults (v : list (option string)) (w : World) : World :=
  mkWorld (now w) (tables w) v (yt_replies w) (ig_replies w)
    (li_replies w) (channel_replies w) (trace w) (youtube w) (instagram w)
    (linkedin w) (discord w) (lastErrorSummaryTime w) (yt_search_replies w).

Definition set_yt_replies (v : list YtReply) (w : World) : World :=
  mkWorld (now w) (tables w) (db_faults w) v (ig_replies w)
    (li_replies w) (channel_replies w) (trace w) (youtube w) (instagram w)
    (linkedin w) (discord w) (lastErrorSummaryTime w) (yt_search_replies w).

Definition set_ig_replies (v : list IgReply) (w : World) : World :=
  mkWorld (now w) (tables w) (db_faults w) (yt_replies w) v
    (li_replies w) (channel_replies w) (trace w) (youtube w) (instagram w)
    (linkedin w) (discord w) (lastErrorSummaryTime w) (yt_search_replies w).

Definition set_li_replies (v : list LiReply) (w : World) : World :=
  mkWorld (now w) (tables w) (db_faults w) (yt_replies w) (ig_replies w)
    v (channel_replies w) (trace w) (youtube w) (instagram w)
    (linkedin w) (discord w) (lastErrorSummaryTime w) (yt_search_replies w).

Definition set_channel_replies (v : list ChannelReply) (w : World) : World :=
  mkWorld (now w) (tables w) (db_faults w) (yt_replies w) (ig_replies w)
    (li_replies w) v (trace w) (youtube w) (instagram w)
    (linkedin w) (discord w) (lastErrorSummaryTime w) (yt_search_replies w).

Definition set_trace (v : list Event) (w : World) : World :=
  mkWorld (now w) (tables w) (db_faults w) (yt_replies w) (ig_replies w)
    (li_replies w) (channel_replies w) v (youtube w) (instagram w)
    (linkedin w) (discord w) (lastErrorSummaryTime w) (yt_search_replies w).

Definition set_instagram (v : InstagramState) (w : World) : World :=
  mkWorld (now w) (tables w) (db_faults w) (yt_replies w) (ig_replies w)
    (li_replies w) (channel_replies w) (trace w) (youtube w) v
    (linkedin w) (discord w) (lastErrorSummaryTime w) (yt_search_replies w).

Definition set_linkedin (v : LinkedInState) (w : World) : World :=
  mkWorld (now w) (tables w) (db_faults w) (yt_replies w) (ig_replies w)
    (li_replies w) (channel_replies w) (trace w) (youtube w) (instagram w)
    v (discord w) (lastErrorSummaryTime w) (yt_search_replies w).

Definition set_lastErrorSummaryTime (v : option Z) (w : World) : World :=
  mkWorld (now w) (tables w) (db_faults w) (yt_replies w) (ig_replies w)
    (li_replies w) (channel_replies w) (trace w) (youtube w) (instagram w)
    (linkedin w) (discord w) v (yt_search_replies w).

Definition set_yt_search_replies (v : list YtSearchReply) (w : World)
  : World :=
  mkWorld (now w) (tables w) (db_faults w) (yt_replies w) (ig_replies w)
    (li_replies w) (channel_replies w) (trace w) (youtube w) (instagram w)
    (linkedin w) (discord w) (lastErrorSummaryTime w) v.

(** ** The monad of asynchronous methods *)

Inductive Completion (A : Type) :=
| Normal (a : A)
| Throws (e : JsError)
| OutOfFuel.

Arguments Normal {A} a.
Arguments Throws {A} e.
Arguments OutOfFuel {A}.

Definition M (A : Type) : Type := World -> Completion A * World.

Definition ret {A} (a : A) : M A := fun w => (Normal a, w).

Definition throw {A} (e : JsError) : M A := fun w => (Throws e, w).

Definition out_of_fuel {A} : M A := fun w => (OutOfFuel, w).

Definition bind {A B} (m : M A) (f : A -> M B) : M B :=
  fun w =>
    match m w with
    | (Normal a, w1) => f a w1
    | (Throws e, w1) => (Throws e, w1)
    | (OutOfFuel, w1) => (OutOfFuel, w1)
    end.

(** [try { m } catch (error) { h error }] *)
Definition try_catch {A} (m : M A) (h : JsError -> M A) : M A :=
  fun w =>
    match m w with
    | (Throws e, w1) => h e w1
    | r => r
    end.

Notation "x <- m ;; k" := (bind m (fun x => k))
  (at level 61, m at next level, right associativity).
Notation "m ;; k" := (bind m (fun _ => k))
  (at level 61, right associativity).

Definition gets {A} (f : World -> A) : M A := fun w => (Normal (f w), w).

Definition modify (f : World -> World) : M unit := fun w => (Normal tt, f w).

(** A synchronous expression that may raise. *)
Definition lift {A} (r : JsError + A) : M A :=
  match r with
  | inl e => throw e
  | inr a => ret a
  end.

Definition emit (e : Event) : M unit :=
  modify (fun w => set_trace (trace w ++ [e]) w).

(** [Date.now()] *)
Definition Date_now : M Z := gets now.

(** The longest delay a timer of Node holds, in milliseconds. *)
Definition TIMEOUT_MAX : Z := 2147483647.

(** The delay [setTimeout(f, ms)] runs with: a delay below 1 or above
    [TIMEOUT_MAX] is set to 1. *)
Definition timerDelay (ms : Z) : Z :=
  if (1 <=? ms) && (ms <=? TIMEOUT_MAX) then ms else 1.

#[global] Arguments timerDelay : simpl never.

(** [await new Promise(resolve => setTimeout(resolve, ms))] *)
Definition sleep (ms : Z) : M unit :=
  modify (fun w => set_now (now w + timerDelay ms) w).

(** ** database/database: the dedup store

    The [Database] class, imported by the services as
    [../database/database.js]; in this tree its text is the second half of
    [src/utils/status.js]. *)

Module Database.

(** SQLite's [CURRENT_TIMESTAMP], in seconds. *)
Definition CURRENT_TIMESTAMP (w : World) : Z := now w / 1000.

(** One statement handed to sqlite3: the call is recorded, the next fault
    of the connection (if any) rejects the promise, otherwise the
    statement runs on the tables. *)
Definition sqlite {A} (call : Event) (stmt : Z -> Tables -> A * Tables)
  : M A :=
  emit call ;;
  faults <- gets db_faults ;;
  modify (set_db_faults (tl faults)) ;;
  match faults with
  | Some msg :: _ => throw (Error msg)
  | _ =>
      fun w =>
        let (a, t) := stmt (CURRENT_TIMESTAMP w) (tables w) in
        (Normal a, set_tables t w)
  end.

Definition is_platform (platform : string) (r : LastUpdate) : bool :=
  (lu_platform r =? platform)%string.

Definition is_sent_key (platform contentId : string)
  (r : SentNotification) : bool :=
  (sn_platform r =? platform)%string && (content_id r =? contentId)%string.

(** [SELECT * FROM last_updates WHERE platform = ?] *)
Definition select_last_update (platform : string) (t : Tables)
  : option LastUpdate :=
  find (is_platform platform) (last_updates t).

(** [INSERT OR REPLACE INTO last_updates (platform, last_check_time,
    last_content_id, last_content_timestamp, updated_at) VALUES
    (?, CURRENT_TIMESTAMP, ?, ?, CURRENT_TIMESTAMP)]: the row that
    conflicts on the unique [platform] is deleted, a fresh row is
    inserted. *)
Definition replace_last_update (platform : string)
  (lastContentId : option string) (lastContentTimestamp : option IsoString)
  (ts : Z) (t : Tables) : Tables :=
  let rowid := last_updates_seq t + 1 in
  mkTables
    (filter (fun r => negb (is_platform platform r)) (last_updates t)
     ++ [mkLastUpdate rowid platform ts lastContentId lastContentTimestamp
           ts ts])
    rowid
    (sent_notifications t)
    (sent_notifications_seq t).

(** [SELECT id FROM sent_notifications WHERE platform = ? AND
    content_id = ?] *)
Definition select_sent (platform contentId : string) (t : Tables)
  : option SentNotification :=
  find (is_sent_key platform contentId) (sent_notifications t).

(** [INSERT OR REPLACE INTO sent_notifications (platform, content_id,
    content_url, discord_message_id, sent_at) VALUES (?, ?, ?, ?,
    CURRENT_TIMESTAMP)] under [UNIQUE(platform, content_id)]. *)
Definition replace_sent (platform contentId contentUrl
  discordMessageId : string) (ts : Z) (t : Tables) : Tables :=
  let rowid := sent_notifications_seq t + 1 in
  mkTables
    (last_updates t)
    (last_updates_seq t)
    (filter (fun r => negb (is_sent_key platform contentId r))
       (sent_notifications t)
     ++ [mkSent rowid platform contentId contentUrl discordMessageId ts])
    rowid.

(** [DELETE FROM sent_notifications WHERE sent_at <
    datetime('now', '-30 days')] *)
Definition delete_old_sent (ts : Z) (t : Tables) : Z * Tables :=
  let expired r := sent_at r <? ts - 30 * 86400 in
  (Z.of_nat (List.length (filter expired (sent_notifications t))),
   mkTables (last_updates t) (last_updates_seq t)
     (filter (fun r => negb (expired r)) (sent_notifications t))
     (sent_notifications_seq t)).

Record BotStats := mkStats {
  total_notifications : Z;
  notifications_24h : Z;
  notifications_7d : Z;
  active_platforms : Z;
  last_global_check : option Z
}.

Definition max_check_time (rows : list LastUpdate) : option Z :=
  fold_left
    (fun acc r =>
       match acc with
       | None => Some (last_check_time r)
       | Some m => Some (Z.max m (last_check_time r))
       end)
    rows None.

Definition select_stats (ts : Z) (t : Tables) : BotStats :=
  let since d := filter (fun r => ts - d <? sent_at r)
                   (sent_notifications t) in
  mkStats
    (Z.of_nat (List.length (sent_notifications t)))
    (Z.of_nat (List.length (since 86400)))
    (Z.of_nat (List.length (since (7 * 86400))))
    (Z.of_nat (List.length (nodup string_dec
                         (map lu_platform (last_updates t)))))
    (max_check_time (last_updates t)).

Definition getLastUpdate (platform : string) : M (option LastUpdate) :=
  sqlite (EvGetLastUpdate platform)
    (fun _ t => (select_last_update platform t, t)).

(** Resolves to [affectedRows]. *)
Definition updateLastCheck (platform : string)
  (lastContentId : option string)
  (lastContentTimestamp : option IsoString) : M Z :=
  sqlite (EvUpdateLastCheck platform lastContentId lastContentTimestamp)
    (fun ts t =>
       (1, replace_last_update platform lastContentId
             lastContentTimestamp ts t)).

Definition isNotificationSent (platform contentId : string) : M bool :=
  sqlite (EvIsNotificationSent platform contentId)
    (fun _ t =>
       (match select_sent platform contentId t with
        | Some _ => true
        | None => false
        end, t)).

Definition recordSentNotification (platform contentId contentUrl
  discordMessageId : string) : M Z :=
  sqlite (EvRecordSentNotification platform contentId)
    (fun ts t =>
       (1, replace_sent platform contentId contentUrl discordMessageId
             ts t)).

Definition getBotStats : M BotStats :=
  sqlite EvGetBotStats (fun ts t => (select_stats ts t, t)).

Definition cleanupOldNotifications : M Z :=
  sqlite EvCleanupOldNotifications delete_old_sent.

End Database.

(** ** config/config

    The configuration object, as [dotenv] and [process.env] leave it: a
    variable that is not set is [None]. *)

Module Config.

Record DiscordConfig := mkDiscordConfig {
  token : option string;
  clientId : option string;
  guildId : option string;
  announcementChannelId : option string;
  webhookUrl : option string
}.

Record InstagramConfig := mkInstagramConfig {
  ig_username : option string;
  ig_accessToken : option string
}.

Record LinkedInConfig := mkLinkedInConfig {
  li_profileUrl : option string;
  li_accessToken : option string
}.

Record SocialMedia := mkSocialMedia {
  sm_instagram : InstagramConfig;
  sm_linkedin : LinkedInConfig;
  sm_youtube : YouTubeConfig
}.

Record Config := mkConfig {
  cfg_discord : DiscordConfig;
  socialMedia : SocialMedia
}.

Record Validation := mkValidation {
  isValid : bool;
  missing : list string
}.

Definition noSocialMedia : string :=
  "At least one social media platform (Instagram username, LinkedIn profile URL, or YouTube API key + channel ID)".

(** The loop over [required] pushes the path of each field whose value is
    falsy; then the platforms are looked at. *)
Definition validateConfig (config : Config) : Validation :=
  let required :=
    [("discord.token", token (cfg_discord config));
     ("discord.announcementChannelId",
      announcementChannelId (cfg_discord config))] in
  let missing :=
    flat_map (fun field => if truthy (snd field) then [] else [fst field])
      required in
  let hasSocialMedia :=
    truthy (ig_username (sm_instagram (socialMedia config)))
    || truthy (li_profileUrl (sm_linkedin (socialMedia config)))
    || (truthy (apiKey (sm_youtube (socialMedia config)))
        && truthy (channelId (sm_youtube (socialMedia config)))) in
  let missing :=
    if negb hasSocialMedia then missing ++ [noSocialMedia] else missing in
  mkValidation (Nat.eqb (List.length missing) 0) missing.

End Config.

(** ** Results exchanged between the services *)

(** What [getLatestVideos] and [scrapeProfile] resolve to. *)
Record FetchResult := mkFetch {
  fetched : bool;
  fetch_error : option string;
  posts : list ContentItem
}.

(** What [checkForNewVideos] and [checkForNewPosts] resolve to; a field
    the object literal does not set is [None]. *)
Record CheckResult := mkCheck {
  success : bool;
  check_error : option string;
  newContent : option (list ContentItem);
  totalChecked : option Z
}.

(** [result.newContent] as the scheduler reads it ([?.length > 0]). *)
Definition newContentOf (r : CheckResult) : list ContentItem :=
  match newContent r with
  | Some items => items
  | None => []
  end.

Definition oneDay : Z := 24 * 60 * 60 * 1000.

(** [lastUpdate?.last_content_timestamp ? new Date(...) :
    new Date(Date.now() - 24 * 60 * 60 * 1000)] *)
Definition lastCheckTimeOf (lastUpdate : option LastUpdate) : M JsDate :=
  match lastUpdate with
  | Some row =>
      match last_content_timestamp row with
      | Some t => ret (parseDate t)
      | None => t <- Date_now ;; ret (ValidDate (t - oneDay))
      end
  | None => t <- Date_now ;; ret (ValidDate (t - oneDay))
  end.

(** The loop "filter out already sent notifications", written the same way
    in the three pollers. *)
Fixpoint filterUnseen (platform : string) (items unseen : list ContentItem)
  : M (list ContentItem) :=
  match items with
  | [] => ret unseen
  | x :: rest =>
      alreadySent <- Database.isNotificationSent platform (item_id x) ;;
      filterUnseen platform rest
        (if alreadySent then unseen else unseen ++ [x])
  end.

(** The embed of [formatForDiscord], reduced to what the pipeline looks at;
    building it calls [toISOString] on the item's date. *)
Record Embed := mkEmbed {
  embed_url : string;
  embed_timestamp : IsoString
}.

Definition formatEmbed (item : ContentItem) : JsError + Embed :=
  match toISOString (item_timestamp item) with
  | inl e => inl e
  | inr t => inr (mkEmbed (item_url item) t)
  end.

(** ** services/youtube *)

Module YouTubeService.

Definition isConfigured : M bool :=
  gets (fun w =>
          truthy (apiKey (youtube w))
          && (truthy (channelId (youtube w))
              || truthy (channelHandle (youtube w)))).

(** [getChannelId()]: the configured channel id, or the one a search for
    the handle finds.  The result is [None] when the first item of the
    reply has no [snippet.channelId]. *)
Definition getChannelId : M (option string) :=
  channelId <- gets (fun w => channelId (youtube w)) ;;
  if truthy channelId then ret channelId
  else
    channelHandle <- gets (fun w => channelHandle (youtube w)) ;;
    if negb (truthy channelHandle) then
      throw (Error "Neither channel ID nor handle provided")
    else
      try_catch
        (emit (EvHttpGet "youtube") ;;
         replies <- gets yt_search_replies ;;
         modify (set_yt_search_replies (tl replies)) ;;
         match replies with
         | YtChannels (channelId :: _) :: _ => ret channelId
         | YtChannels [] :: _ =>
             throw (Error ("Channel not found for handle: "
                           ++ match channelHandle with
                              | Some handle => handle
                              | None => "undefined"
                              end)%string)
         | YtSearchFails msg :: _ => throw (Error msg)
         | [] => throw (Error "Network Error")
         end)
        (fun error => throw error).

(** [channelId.replace('UC', 'UU')] raises when there is no channel id;
    the playlist id itself plays no part in the reply. *)
Definition uploadsPlaylist (channelId : option string) : JsError + unit :=
  match channelId with
  | Some _ => inr tt
  | None =>
      inl (Error "Cannot read properties of undefined (reading 'replace')")
  end.

(** The request for the items of the uploads playlist together with the
    mapping of its items. *)
Definition playlistItems (maxResults : Z) : M (list ContentItem) :=
  emit (EvHttpGet "youtube") ;;
  replies <- gets yt_replies ;;
  modify (set_yt_replies (tl replies)) ;;
  match replies with
  | YtVideos videos :: _ => ret videos
  | YtFails msg :: _ => throw (Error msg)
  | [] => throw (Error "Network Error")
  end.

Definition getLatestVideos (maxResults : Z) : M FetchResult :=
  try_catch
    (configured <- isConfigured ;;
     (if configured then ret tt
      else throw (Error "YouTube service not configured")) ;;
     channelId <- getChannelId ;;
     lift (uploadsPlaylist channelId) ;;
     videos <- playlistItems maxResults ;;
     ret (mkFetch true None videos))
    (fun error => ret (mkFetch false (Some (message error)) [])).

(** The body of the [try] of [checkForNewVideos]. *)
Definition checkForNewVideos_try : M CheckResult :=
  configured <- isConfigured ;;
  if negb configured then
    ret (mkCheck false (Some "YouTube service not configured")
           (Some []) None)
  else
    lastUpdate <- Database.getLastUpdate "youtube" ;;
    lastCheckTime <- lastCheckTimeOf lastUpdate ;;
    result <- getLatestVideos 10 ;;
    if negb (fetched result) then
      ret (mkCheck false (fetch_error result) None None)
    else
      let newVideos :=
        filter (fun video => date_gt (item_timestamp video) lastCheckTime)
          (posts result) in
      unseenVideos <- filterUnseen "youtube" newVideos [] ;;
      match posts result with
      | latestVideo :: _ =>
          publishedAt <- lift (toISOString (item_timestamp latestVideo)) ;;
          Database.updateLastCheck "youtube"
            (Some (item_id latestVideo)) (Some publishedAt) ;;
          ret tt
      | [] => ret tt
      end ;;
      ret (mkCheck true None (Some unseenVideos)
             (Some (Z.of_nat (List.length (posts result))))).

Definition checkForNewVideos : M CheckResult :=
  try_catch checkForNewVideos_try
    (fun error =>
       ret (mkCheck false (Some (message error)) (Some []) None)).

Definition formatForDiscord (video : ContentItem) : JsError + Embed :=
  formatEmbed video.

(** [new YouTubeService()] *)
Definition constructor (config : Config.Config) : YouTubeConfig :=
  mkYouTube
    (apiKey (Config.sm_youtube (Config.socialMedia config)))
    (channelId (Config.sm_youtube (Config.socialMedia config)))
    (channelHandle (Config.sm_youtube (Config.socialMedia config))).

(** [description] is [None] when the field is missing. *)
Definition truncateDescription (description : option JsString)
  (maxLength : Z) : JsString :=
  match description with
  | None | Some [] => units "No description available"
  | Some description =>
      if Z.of_nat (List.length description) <=? maxLength then description
      else trim (js_substring 0 maxLength description) ++ units "..."
  end.

End YouTubeService.

(** ** services/instagram *)

Module InstagramService.

Definition rateLimitDelay : Z := 10000.
Definition maxRetries : Z := 3.

Definition isConfigured : M bool :=
  gets (fun w => truthy (username (instagram w))).

Definition set_lastRequestTime (t : Z) (w : World) : World :=
  set_instagram
    (mkInstagram (username (instagram w)) t (failureCount (instagram w))) w.

Definition set_failureCount (n : Z) (w : World) : World :=
  set_instagram
    (mkInstagram (username (instagram w))
       (ig_lastRequestTime (instagram w)) n) w.

(** [this.rateLimitDelay * Math.pow(2, this.failureCount)] *)
Definition currentDelay (w : World) : Z :=
  rateLimitDelay * 2 ^ failureCount (instagram w).

#[global] Arguments currentDelay : simpl never.

Definition respectRateLimit : M unit :=
  t <- Date_now ;;
  lastRequestTime <- gets (fun w => ig_lastRequestTime (instagram w)) ;;
  let timeSinceLastRequest := t - lastRequestTime in
  currentDelay <- gets currentDelay ;;
  (if timeSinceLastRequest <? currentDelay then
     sleep (currentDelay - timeSinceLastRequest)
   else ret tt) ;;
  t' <- Date_now ;;
  modify (set_lastRequestTime t').

(** [axios.get(profileUrl, ...)] followed by the search of the page for
    embedded JSON; an exception anywhere in between is the reply
    [IgThrows]. *)
Definition loadProfile : M (option IgData) :=
  emit (EvHttpGet "instagram") ;;
  replies <- gets ig_replies ;;
  modify (set_ig_replies (tl replies)) ;;
  match replies with
  | IgLoaded jsonData :: _ => ret jsonData
  | IgThrows msg st :: _ => throw (mkError msg st)
  | [] => throw (Error "Network Error")
  end.

Definition extractBasicInfo : FetchResult := mkFetch true None [].

(** [posts.slice(0, 10)] on success, the caught error otherwise. *)
Definition parseInstagramData (data : IgData) : FetchResult :=
  match data with
  | IgTimeline items => mkFetch true None (firstn 10 items)
  | IgMalformed msg => mkFetch false (Some msg) []
  end.

Definition is429 (error : JsError) : bool :=
  match status error with
  | Some code => code =? 429
  | None => false
  end.

(** The body of the [try] inside the loop of [scrapeProfile]. *)
Definition scrapeProfile_try : M FetchResult :=
  configured <- isConfigured ;;
  (if configured then ret tt
   else throw (Error "Instagram service not configured")) ;;
  respectRateLimit ;;
  jsonData <- loadProfile ;;
  match jsonData with
  | None =>
      let result := extractBasicInfo in
      modify (set_failureCount 0) ;;
      ret result
  | Some data =>
      let result := parseInstagramData data in
      modify (set_failureCount 0) ;;
      ret result
  end.

(** The [while (attempt < this.maxRetries)] loop; [fuel] bounds the
    number of iterations the model is willing to run. *)
Fixpoint scrapeProfile_loop (fuel : nat) (attempt : Z) : M FetchResult :=
  match fuel with
  | O => out_of_fuel
  | S fuel' =>
      if attempt <? maxRetries then
        try_catch scrapeProfile_try
          (fun error =>
             let attempt := attempt + 1 in
             modify (fun w =>
                       set_failureCount (failureCount (instagram w) + 1) w) ;;
             let after429 :=
               if maxRetries <=? attempt then
                 ret (mkFetch false
                        (Some ("Rate limited or blocked by Instagram. Last error: "
                               ++ message error)%string)
                        [])
               else scrapeProfile_loop fuel' attempt in
             if is429 error then
               if attempt <? maxRetries then
                 sleep (2 ^ attempt * 30000) ;;
                 scrapeProfile_loop fuel' attempt
               else after429
             else after429)
      else ret (mkFetch false (Some "Maximum retries exceeded") [])
  end.

Definition scrapeProfile : M FetchResult :=
  scrapeProfile_loop (S (Z.to_nat maxRetries)) 0.

(** [text.includes(pattern)] *)
Definition includes (pattern text : string) : bool :=
  match index 0 pattern text with
  | Some _ => true
  | None => false
  end.

(** The body of the [try] of [checkForNewPosts]. *)
Definition checkForNewPosts_try : M CheckResult :=
  configured <- isConfigured ;;
  if negb configured then
    ret (mkCheck false (Some "Instagram service not configured")
           (Some []) None)
  else
    lastUpdate <- Database.getLastUpdate "instagram" ;;
    lastCheckTime <- lastCheckTimeOf lastUpdate ;;
    result <- scrapeProfile ;;
    if negb (fetched result) then
      ret (mkCheck false (fetch_error result) (Some []) None)
    else
      let newPosts :=
        filter (fun post => date_gt (item_timestamp post) lastCheckTime)
          (posts result) in
      unseenPosts <- filterUnseen "instagram" newPosts [] ;;
      match posts result with
      | latestPost :: _ =>
          timestamp <- lift (toISOString (item_timestamp latestPost)) ;;
          Database.updateLastCheck "instagram"
            (Some (item_id latestPost)) (Some timestamp) ;;
          ret tt
      | [] =>
          Database.updateLastCheck "instagram" None None ;;
          ret tt
      end ;;
      ret (mkCheck true None (Some unseenPosts)
             (Some (Z.of_nat (List.length (posts result))))).

(** The [catch (error)] of [checkForNewPosts]. *)
Definition checkForNewPosts_catch (error : JsError) : M CheckResult :=
  try_catch
    (Database.updateLastCheck "instagram" None None ;; ret tt)
    (fun dbError => ret tt) ;;
  ret (mkCheck false
         (Some (if includes "Rate limited" (message error)
                then "Instagram temporarily rate limited - will retry later"
                else message error))
         (Some []) None).

Definition checkForNewPosts : M CheckResult :=
  try_catch checkForNewPosts_try checkForNewPosts_catch.

Definition formatForDiscord (post : ContentItem) : JsError + Embed :=
  formatEmbed post.

(** [new InstagramService()] *)
Definition constructor (config : Config.Config) : InstagramState :=
  mkInstagram
    (Config.ig_username (Config.sm_instagram (Config.socialMedia config)))
    0 0.

Definition truncateCaption (caption : option JsString) (maxLength : Z)
  : JsString :=
  match caption with
  | None | Some [] => units "No caption"
  | Some caption =>
      if Z.of_nat (List.length caption) <=? maxLength then caption
      else trim (js_substring 0 maxLength caption) ++ units "..."
  end.

End InstagramService.

(** ** services/linkedin *)

Module LinkedInService.

Definition rateLimitDelay : Z := 3000.

Definition isConfigured : M bool :=
  gets (fun w => truthy (profileUrl (linkedin w))).

Definition set_lastRequestTime (t : Z) (w : World) : World :=
  set_linkedin
    (mkLinkedIn (profileUrl (linkedin w)) t) w.

Definition respectRateLimit : M unit :=
  t <- Date_now ;;
  lastRequestTime <- gets (fun w => li_lastRequestTime (linkedin w)) ;;
  let timeSinceLastRequest := t - lastRequestTime in
  (if timeSinceLastRequest <? rateLimitDelay then
     sleep (rateLimitDelay - timeSinceLastRequest)
   else ret tt) ;;
  t' <- Date_now ;;
  modify (set_lastRequestTime t').

(** [axios.get(this.profileUrl, ...)] and [extractRecentActivity]. *)
Definition loadProfile : M (list ContentItem) :=
  emit (EvHttpGet "linkedin") ;;
  replies <- gets li_replies ;;
  modify (set_li_replies (tl replies)) ;;
  match replies with
  | LiLoaded items :: _ => ret items
  | LiThrows msg :: _ => throw (Error msg)
  | [] => throw (Error "Network Error")
  end.

(** What is left of [s] after the literal [p], if [s] starts with it. *)
Fixpoint afterLiteral (p s : string) : option string :=
  match p, s with
  | EmptyString, _ => Some s
  | String a p', String b s' =>
      if Ascii.eqb a b then afterLiteral p' s' else None
  | String _ _, EmptyString => None
  end.

(** The longest run of characters other than [/] that [s] starts with. *)
Fixpoint untilSlash (s : string) : string :=
  match s with
  | String c rest =>
      if Ascii.eqb c "/"%char then EmptyString else String c (untilSlash rest)
  | EmptyString => EmptyString
  end.

(** [url.match(/linkedin\.com\/in\/([^\/]+)/)], resolved to the group: the
    leftmost place where the literal is followed by at least one character
    other than [/].  The pattern is made of ASCII characters, so it finds
    the same text in the bytes of the url as in its code units. *)
Fixpoint matchProfileUrl (url : string) : option string :=
  let here :=
    match afterLiteral "linkedin.com/in/" url with
    | Some rest =>
        match untilSlash rest with
        | EmptyString => None
        | group => Some group
        end
    | None => None
    end in
  match here with
  | Some group => Some group
  | None =>
      match url with
      | String _ rest => matchProfileUrl rest
      | EmptyString => None
      end
  end.

(** [getUsername()], given [this.profileUrl]. *)
Definition getUsername (profileUrl : option string) : option string :=
  if negb (truthy profileUrl) then None
  else
    match profileUrl with
    | Some url => matchProfileUrl url
    | None => None
    end.

Definition tryRSSFeed : M FetchResult :=
  try_catch
    (username <- gets (fun w => getUsername (profileUrl (linkedin w))) ;;
     (if truthy username then ret tt
      else throw (Error "Cannot extract username from profile URL")) ;;
     ret (mkFetch false
            (Some "LinkedIn data access is restricted. Consider using LinkedIn API with proper authentication.")
            []))
    (fun error => ret (mkFetch false (Some "LinkedIn access restricted") [])).

Definition scrapeProfile : M FetchResult :=
  try_catch
    (configured <- isConfigured ;;
     (if configured then ret tt
      else throw (Error "LinkedIn service not configured")) ;;
     respectRateLimit ;;
     items <- loadProfile ;;
     ret (mkFetch true None items))
    (fun error => tryRSSFeed).

(** The body of the [try] of [checkForNewPosts]. *)
Definition checkForNewPosts_try : M CheckResult :=
  configured <- isConfigured ;;
  if negb configured then
    ret (mkCheck false (Some "LinkedIn service not configured")
           (Some []) None)
  else
    lastUpdate <- Database.getLastUpdate "linkedin" ;;
    lastCheckTime <- lastCheckTimeOf lastUpdate ;;
    result <- scrapeProfile ;;
    if negb (fetched result) then
      ret (mkCheck false (fetch_error result) (Some []) None)
    else
      let newPosts :=
        filter (fun post => date_gt (item_timestamp post) lastCheckTime)
          (posts result) in
      unseenPosts <- filterUnseen "linkedin" newPosts [] ;;
      match posts result with
      | latestPost :: _ =>
          timestamp <- lift (toISOString (item_timestamp latestPost)) ;;
          Database.updateLastCheck "linkedin"
            (Some (item_id latestPost)) (Some timestamp) ;;
          ret tt
      | [] =>
          Database.updateLastCheck "linkedin" None None ;;
          ret tt
      end ;;
      ret (mkCheck true None (Some unseenPosts)
             (Some (Z.of_nat (List.length (posts result))))).

Definition checkForNewPosts : M CheckResult :=
  try_catch checkForNewPosts_try
    (fun error =>
       ret (mkCheck false (Some (message error)) (Some []) None)).

Definition formatForDiscord (post : ContentItem) : JsError + Embed :=
  formatEmbed post.

(** [new LinkedInService()] *)
Definition constructor (config : Config.Config) : LinkedInState :=
  let profileUrl :=
    Config.li_profileUrl (Config.sm_linkedin (Config.socialMedia config)) in
  mkLinkedIn profileUrl 0.

Definition truncateContent (content : option JsString) (maxLength : Z)
  : JsString :=
  match content with
  | None | Some [] => units "No content available"
  | Some content =>
      if Z.of_nat (List.length content) <=? maxLength then content
      else trim (js_substring 0 maxLength content) ++ units "..."
  end.

End LinkedInService.

(** ** services/discord *)

Module DiscordService.

(** [this.announcementChannel.send(messageOptions)], resolving to the id
    of the message. *)
Definition channelSend (call : Event) : M string :=
  emit call ;;
  replies <- gets channel_replies ;;
  modify (set_channel_replies (tl replies)) ;;
  match replies with
  | ChSent message_id :: _ => ret message_id
  | ChFails msg :: _ => throw (Error msg)
  | [] => throw (Error "Request timed out")
  end.

Definition requireReady : M unit :=
  d <- gets discord ;;
  if negb (isReady d) || negb (announcementChannel d) then
    throw (Error "Discord bot not ready or announcement channel not available")
  else ret tt.

(** Resolves to the [messageId] of the result object. *)
Definition sendSocialMediaUpdate (content : ContentItem)
  (platform : string) : M string :=
  try_catch
    (requireReady ;;
     embed <-
       (if (platform =? "youtube")%string then
          lift (YouTubeService.formatForDiscord content)
        else if (platform =? "instagram")%string then
          lift (InstagramService.formatForDiscord content)
        else if (platform =? "linkedin")%string then
          lift (LinkedInService.formatForDiscord content)
        else throw (Error ("Unknown platform: " ++ platform)%string)) ;;
     message_id <- channelSend (EvChannelSend platform (item_id content)) ;;
     Database.recordSentNotification platform (item_id content)
       (item_url content) message_id ;;
     ret message_id)
    (fun error => throw error).

Definition sendMessage (content : string) : M string :=
  try_catch
    (requireReady ;;
     message_id <- channelSend (EvChannelMessage content) ;;
     ret message_id)
    (fun error => throw error).

(** What a slash command tells its user through [editReply]: that the
    check is running, the embed of the finished check (built from the
    number of new posts and the results), or that the check failed. *)
Inductive Reply :=
| ReplyChecking
| ReplyComplete (totalNewContent : Z) (results : list (string * CheckResult))
| ReplyFailed.

(** The interaction a slash command is called with, an object of
    discord.js: its methods talk to Discord and may reject.  Building the
    embed of a reply is part of [editReply]. *)
Record Interaction := mkInteraction {
  deferReply : M unit;
  editReply : Reply -> M unit
}.

(** [{ platform: label, ...result }]: a successful result has a
    [platform] of its own, which replaces the label. *)
Definition withPlatform (label platform : string) (result : CheckResult)
  : string * CheckResult :=
  (if success result then platform else label, result).

(** One of the three blocks "Check YouTube", "Check Instagram", "Check
    LinkedIn" of [handleCheckNowCommand]. *)
Definition handleCheckNowCommand_check (isConfigured : M bool)
  (check : M CheckResult) (label platform : string)
  (results : list (string * CheckResult)) : M (list (string * CheckResult)) :=
  configured <- isConfigured ;;
  if configured then
    result <- check ;;
    ret (results ++ [withPlatform label platform result])
  else ret results.

(** The loop [for (const content of result.newContent)]. *)
Fixpoint handleCheckNowCommand_contents (contents : list ContentItem)
  (platform : string) : M unit :=
  match contents with
  | [] => ret tt
  | content :: rest =>
      sendSocialMediaUpdate content platform ;;
      handleCheckNowCommand_contents rest platform
  end.

(** The loop [for (const result of results)]; it resolves to
    [totalNewContent]. *)
Fixpoint handleCheckNowCommand_results
  (results : list (string * CheckResult)) (totalNewContent : Z) : M Z :=
  match results with
  | [] => ret totalNewContent
  | result :: rest =>
      if success (snd result)
         && (0 <? Z.of_nat (List.length (newContentOf (snd result)))) then
        handleCheckNowCommand_contents (newContentOf (snd result))
          (toLowerCase (fst result)) ;;
        handleCheckNowCommand_results rest
          (totalNewContent
           + Z.of_nat (List.length (newContentOf (snd result))))
      else handleCheckNowCommand_results rest totalNewContent
  end.

Definition handleCheckNowCommand (interaction : Interaction) : M unit :=
  deferReply interaction ;;
  try_catch
    (editReply interaction ReplyChecking ;;
     results <- handleCheckNowCommand_check YouTubeService.isConfigured
                  YouTubeService.checkForNewVideos "YouTube" "youtube" [] ;;
     results <- handleCheckNowCommand_check InstagramService.isConfigured
                  InstagramService.checkForNewPosts "Instagram" "instagram"
                  results ;;
     results <- handleCheckNowCommand_check LinkedInService.isConfigured
                  LinkedInService.checkForNewPosts "LinkedIn" "linkedin"
                  results ;;
     totalNewContent <- handleCheckNowCommand_results results 0 ;;
     editReply interaction (ReplyComplete totalNewContent results))
    (fun error => editReply interaction ReplyFailed).

End DiscordService.

(** ** utils/scheduler *)

Module Scheduler.

(** The [for (const item of content)] loop of [sendNotifications];
    [content] is the whole batch, [items] what is left of it. *)
Fixpoint sendNotifications_items (content items : list ContentItem)
  (platform : string) : M unit :=
  match items with
  | [] => ret tt
  | item :: rest =>
      try_catch
        (DiscordService.sendSocialMediaUpdate item platform ;;
         if 1 <? Z.of_nat (List.length content) then sleep 1000
         else ret tt)
        (fun error => ret tt) ;;
      sendNotifications_items content rest platform
  end.

Definition sendNotifications (content : list ContentItem)
  (platform : string) : M unit :=
  try_catch (sendNotifications_items content content platform)
    (fun error => ret tt).

(** The array [results]: the label given to a source and the result of
    its check.  (The spread of a successful result overrides the label
    with its own [platform]; the error summary only prints failed ones.) *)
Definition Results : Type := list (string * CheckResult).

Definition nl : string := String (Ascii.ascii_of_nat 10) EmptyString.

Definition errorLine (check : string * CheckResult) : string :=
  ("**" ++ fst check ++ "**: "
   ++ match check_error (snd check) with
      | Some msg => msg
      | None => "undefined"
      end)%string.

(** The warning sign, U+26A0 U+FE0F, in UTF-8. *)
Definition warningSign : string :=
  String (Ascii.ascii_of_nat 226) (String (Ascii.ascii_of_nat 154)
    (String (Ascii.ascii_of_nat 160) (String (Ascii.ascii_of_nat 239)
      (String (Ascii.ascii_of_nat 184) (String (Ascii.ascii_of_nat 143)
        EmptyString))))).

Definition errorMessage (failedChecks : Results) : string :=
  (warningSign ++ " **Social Media Check Issues**" ++ nl ++ nl
   ++ concat nl (map errorLine failedChecks)
   ++ nl ++ nl ++ "*Check logs for more details*")%string.

Definition oneHour : Z := 60 * 60 * 1000.

Definition sendErrorSummary (results : Results) : M unit :=
  try_catch
    (let failedChecks :=
       filter (fun r => negb (success (snd r))) results in
     if Z.of_nat (List.length failedChecks) =? 0 then ret tt
     else
       last <- gets lastErrorSummaryTime ;;
       let lastErrorTime := match last with Some t => t | None => 0 end in
       t <- Date_now ;;
       if oneHour <? t - lastErrorTime then
         DiscordService.sendMessage (errorMessage failedChecks) ;;
         modify (set_lastErrorSummaryTime (Some t))
       else ret tt)
    (fun error => ret tt).

(** One of the three blocks of [performScheduledCheck] ("Check YouTube",
    "Check Instagram", "Check LinkedIn"): [acc] carries the local
    variables [results] and [totalNewContent].  [sendNotifications]
    catches every error itself, so the [catch] of the block can only be
    entered before the result of the check is pushed. *)
Definition checkPlatform (isConfigured : M bool) (check : M CheckResult)
  (label platform : string) (acc : Results * Z) : M (Results * Z) :=
  configured <- isConfigured ;;
  if configured then
    try_catch
      (result <- check ;;
       let results := fst acc ++ [(label, result)] in
       if success result
          && (0 <? Z.of_nat (List.length (newContentOf result))) then
         sendNotifications (newContentOf result) platform ;;
         ret (results,
              snd acc + Z.of_nat (List.length (newContentOf result)))
       else ret (results, snd acc))
      (fun error =>
         ret (fst acc
              ++ [(label, mkCheck false (Some (message error)) None None)],
              snd acc))
  else ret acc.

Definition performScheduledCheck : M unit :=
  try_catch
    (acc <- checkPlatform YouTubeService.isConfigured
              YouTubeService.checkForNewVideos "YouTube" "youtube"
              ([], 0) ;;
     acc <- checkPlatform InstagramService.isConfigured
              InstagramService.checkForNewPosts "Instagram" "instagram"
              acc ;;
     acc <- checkPlatform LinkedInService.isConfigured
              LinkedInService.checkForNewPosts "LinkedIn" "linkedin"
              acc ;;
     let results := fst acc in
     let successfulChecks :=
       List.length (filter (fun r => success (snd r)) results) in
     let totalChecks := List.length results in
     if (successfulChecks <? totalChecks)%nat then sendErrorSummary results
     else ret tt)
    (fun error => ret tt).

Definition performDailyCleanup : M unit :=
  try_catch
    (Database.cleanupOldNotifications ;;
     Database.getBotStats ;;
     ret tt)
    (fun error => ret tt).

Definition triggerManualCheck : M bool :=
  try_catch (performScheduledCheck ;; ret true) (fun error => ret false).

(** [Math.ceil(a / b)] for integers [a] and [b <> 0] of the range in which
    the quotient of two doubles rounds to no other integer. *)
Definition ceilDiv (a b : Z) : Z := - ((- a) / b).

(** [new Date(ms)]: a time value beyond 8.64e15 ms gives an invalid
    date. *)
Definition timeClip (ms : Z) : JsDate :=
  if Z.abs ms <=? 8640000000000000 then ValidDate ms else InvalidDate.

(** [tasks] lists the keys of [this.tasks]; [checkIntervalMinutes] is
    [config.bot.checkIntervalMinutes], [t] the time of [new Date()].  With
    an interval of zero the quotient is infinite or NaN and so is its
    product with zero. *)
Definition getNextCheckTime (tasks : list string) (checkIntervalMinutes : Z)
  (t : Z) : option JsDate :=
  if negb (existsb (String.eqb "main-check") tasks) then None
  else
    let intervalMs := checkIntervalMinutes * 60 * 1000 in
    Some (if intervalMs =? 0 then InvalidDate
          else timeClip (ceilDiv t intervalMs * intervalMs)).

End Scheduler.

(** * Vocabulary of the properties *)

(** ** Specifications of computations

    [wp m Q w]: running [m] from [w] ends in a completion and a world
    related by [Q]. *)
Definition wp {A} (m : M A) (Q : Completion A -> World -> Prop) (w : World)
  : Prop :=
  Q (fst (m w)) (snd (m w)).

(** [sat R m]: [m] does not run out of fuel and, whatever way it
    completes, the world it leaves is [R]-related to the world it started
    from. *)
Definition sat {A} (R : World -> World -> Prop) (m : M A) : Prop :=
  forall w, wp m (fun c w' => c <> OutOfFuel /\ R w w') w.

(** The tables are left as they were. *)
Definition same_tables (w w' : World) : Prop := tables w' = tables w.

(** Fuel above the number of attempts left is enough for the retry loop. *)
Definition enough_fuel (fuel : nat) (attempt : Z) : Prop :=
  Z.max 0 (InstagramService.maxRetries - attempt) < Z.of_nat fuel.

(** The world once a statement was handed to sqlite3: the call is in the
    trace and the pending fault, if any, is consumed. *)
Definition after_call (call : Event) (w : World) : World :=
  set_db_faults (tl (db_faults w)) (set_trace (trace w ++ [call]) w).

(** The error the next statement of the store is going to fail with. *)
Definition next_fault (w : World) : option string :=
  match db_faults w with
  | Some msg :: _ => Some msg
  | _ => None
  end.

(** ** The polymorphic poller contract *)

Inductive Source := YouTube | Instagram | LinkedIn.

Definition platformOf (s : Source) : string :=
  match s with
  | YouTube => "youtube"
  | Instagram => "instagram"
  | LinkedIn => "linkedin"
  end.

(** [checkForNew] of the poller contract. *)
Definition checkForNew (s : Source) : M CheckResult :=
  match s with
  | YouTube => YouTubeService.checkForNewVideos
  | Instagram => InstagramService.checkForNewPosts
  | LinkedIn => LinkedInService.checkForNewPosts
  end.

(** A [sent_notifications] row exists for [(platform, contentId)]. *)
Definition already_sent (platform contentId : string) (t : Tables) : bool :=
  match Database.select_sent platform contentId t with
  | Some _ => true
  | None => false
  end.

(** What the dedup loop keeps. *)
Definition unseen (platform : string) (t : Tables) (x : ContentItem) : bool :=
  negb (already_sent platform (item_id x) t).

(** What the body of a poller's check guarantees about its result. *)
Definition excludes_sent (platform : string) (w : World)
  (c : Completion CheckResult) : Prop :=
  c <> OutOfFuel /\
  forall r, c = Normal r ->
    forall x, In x (newContentOf r) ->
              already_sent platform (item_id x) (tables w) = false.

(** The relation that holds of any two worlds: [sat anything m] says that
    [m] does not run out of fuel. *)
Definition anything (w w' : World) : Prop := True.

(** ** Example worlds

    The base of the examples: a million seconds after the epoch, an empty
    database, YouTube and Instagram configured, Discord connected. *)
Definition world0 : World :=
  mkWorld 1000000000 empty_tables [] [] [] [] [] []
    (mkYouTube (Some "key") (Some "UC123") None)
    (mkInstagram (Some "someone") 0 0)
    (mkLinkedIn None 0)
    (mkDiscord true true) None [].

(** A video with the id [i], published at [t]. *)
Definition video (i : string) (t : Z) : ContentItem :=
  mkItem i (ValidDate t) ("https://www.youtube.com/watch?v=" ++ i)%string.

(** The video "a" was announced before and is fetched again. *)
Definition world_resent : World :=
  set_tables
    (mkTables [] 0 [mkSent 1 "youtube" "a" "url" "m1" 999000] 1)
    (set_yt_replies [YtVideos [video "a" 999999000]] world0).


(** The same notification recorded once, and once more a minute later. *)
Definition recorded_once : World :=
  snd (Database.recordSentNotification "youtube" "a" "url" "m1" world0).


(** The clock has not been turned back. *)
Definition clock_le (w w' : World) : Prop := now w <= now w'.

(** The state of a source's cursor after a check that found nothing to
    point at: checked now, no content. *)
Definition cursor_reset (platform : string) (w w' : World) : Prop :=
  exists row,
    Database.select_last_update platform (tables w') = Some row /\
    last_check_time row = Database.CURRENT_TIMESTAMP w' /\
    Database.CURRENT_TIMESTAMP w <= last_check_time row /\
    last_content_id row = None /\
    last_content_timestamp row = None.

(** What a check guarantees when it succeeds having fetched zero items. *)
Definition empty_fetch_post (platform : string) (w : World)
  (c : Completion CheckResult) (w' : World) : Prop :=
  c <> OutOfFuel /\
  forall r, c = Normal r -> success r = true -> totalChecked r = Some 0 ->
            newContent r = Some [] /\ cursor_reset platform w w'.

(** Instagram was checked before (post "p1"); the profile now shows no
    posts. *)
Definition world_quiet : World :=
  set_tables
    (mkTables
       [mkLastUpdate 1 "instagram" 999000 (Some "p1") (Some 998000000)
          999000 999000] 1 [] 0)
    (set_ig_replies [IgLoaded (Some (IgTimeline []))] world0).

(** YouTube was checked before (video "z"); the channel now lists no
    videos. *)
Definition world_no_videos : World :=
  set_tables
    (mkTables
       [mkLastUpdate 1 "youtube" 999000 (Some "z") (Some 998000000)
          999000 999000] 1 [] 0)
    (set_yt_replies [YtVideos []] world0).

(** The content fields of a source's cursor row, if it has a row. *)
Definition last_content (platform : string) (w : World)
  : option (option string * option IsoString) :=
  match Database.select_last_update platform (tables w) with
  | Some row => Some (last_content_id row, last_content_timestamp row)
  | None => None
  end.

(** [isConfigured()] of the poller contract. *)
Definition configured (s : Source) (w : World) : bool :=
  match s with
  | YouTube =>
      truthy (apiKey (youtube w))
      && (truthy (channelId (youtube w)) || truthy (channelHandle (youtube w)))
  | Instagram => truthy (username (instagram w))
  | LinkedIn => truthy (profileUrl (linkedin w))
  end.

(** The id of the YouTube channel is at hand: it is configured, or the
    next search for the handle finds it. *)
Definition channel_found (w : World) : Prop :=
  truthy (channelId (youtube w)) = true \/
  exists id more rest,
    yt_search_replies w = YtChannels (Some id :: more) :: rest.

(** The next reply of the source's content fetcher carries [items]. *)
Definition fetch_reply (s : Source) (items : list ContentItem) (w : World)
  : Prop :=
  match s with
  | YouTube =>
      channel_found w /\ exists rest, yt_replies w = YtVideos items :: rest
  | Instagram =>
      exists rest, ig_replies w = IgLoaded (Some (IgTimeline items)) :: rest
  | LinkedIn => exists rest, li_replies w = LiLoaded items :: rest
  end.

(** [new Date(...)] the check compares timestamps with. *)
Definition cursorOf (platform : string) (w : World) : JsDate :=
  match Database.select_last_update platform (tables w) with
  | Some row =>
      match last_content_timestamp row with
      | Some t => parseDate t
      | None => ValidDate (now w - oneDay)
      end
  | None => ValidDate (now w - oneDay)
  end.

(** [fetchLatest] of the poller contract. *)
Definition fetchLatest (s : Source) : M FetchResult :=
  match s with
  | YouTube => YouTubeService.getLatestVideos 10
  | Instagram => InstagramService.scrapeProfile
  | LinkedIn => LinkedInService.scrapeProfile
  end.

(** The Instagram poller keeps the ten most recent posts of the page. *)
Definition kept (s : Source) (items : list ContentItem) : list ContentItem :=
  match s with
  | Instagram => firstn 10 items
  | _ => items
  end.

(** A cursor at [T = 1000] and a fetch of three videos around it. *)
Definition cursor_row : LastUpdate :=
  mkLastUpdate 1 "youtube" 999000 (Some "z") (Some 1000) 999000 999000.

Definition three_videos : list ContentItem :=
  [video "a" 1002; video "b" 1001; video "c" 999].

(** The cursor of YouTube is at 1000 and nothing was announced yet. *)
Definition world_cursor : World :=
  set_tables (mkTables [cursor_row] 1 [] 0)
    (set_yt_replies [YtVideos three_videos] world0).

(** The same cursor and the same fetch, but the video "a" was announced
    before. *)
Definition world_cursor_sent : World :=
  set_tables
    (mkTables [cursor_row] 1 [mkSent 1 "youtube" "a" "url" "m1" 999000] 1)
    (set_yt_replies [YtVideos three_videos] world0).

(** The profile shows one post whose [taken_at_timestamp] is missing, so
    that its date is invalid. *)
Definition world_bad_date : World :=
  set_tables
    (mkTables
       [mkLastUpdate 1 "instagram" 999000 (Some "p1") (Some 998000000)
          999000 999000] 1 [] 0)
    (set_ig_replies
       [IgLoaded (Some (IgTimeline [mkItem "p2" InvalidDate "url"]))]
       world0).

(** The stored [last_check_time] of a source, if it has a row. *)
Definition checked_at (platform : string) (w : World) : option Z :=
  option_map last_check_time
    (Database.select_last_update platform (tables w)).

(** [a] is absent or not after [b]. *)
Definition not_after (a b : option Z) : Prop :=
  match a, b with
  | None, _ => True
  | Some x, Some y => x <= y
  | Some _, None => False
  end.

(** No stored check time lies in the future of the clock. *)
Definition times_in_past (w : World) : Prop :=
  Forall (fun row => last_check_time row <= Database.CURRENT_TIMESTAMP w)
    (last_updates (tables w)).

(** The clock has not been turned back, and if no stored check time was in
    the future, none is now and none has decreased. *)
Definition check_times_grow (w w' : World) : Prop :=
  now w <= now w' /\
  (times_in_past w ->
   times_in_past w' /\
   forall platform,
     not_after (checked_at platform w) (checked_at platform w')).

(** The operations of the dedup store. *)
Inductive StoreCall :=
| CallGetLastUpdate (platform : string)
| CallUpdateLastCheck (platform : string) (lastContentId : option string)
    (lastContentTimestamp : option IsoString)
| CallIsNotificationSent (platform contentId : string)
| CallRecordSentNotification (platform contentId contentUrl
    discordMessageId : string)
| CallGetBotStats
| CallCleanupOldNotifications.

(** Running an operation of the store, its result dropped. *)
Definition perform (call : StoreCall) : M unit :=
  match call with
  | CallGetLastUpdate p => Database.getLastUpdate p ;; ret tt
  | CallUpdateLastCheck p i t => Database.updateLastCheck p i t ;; ret tt
  | CallIsNotificationSent p c => Database.isNotificationSent p c ;; ret tt
  | CallRecordSentNotification p c u m =>
      Database.recordSentNotification p c u m ;; ret tt
  | CallGetBotStats => Database.getBotStats ;; ret tt
  | CallCleanupOldNotifications =>
      Database.cleanupOldNotifications ;; ret tt
  end.




(** The time at which [respectRateLimit] lets the next request go: at
    once when [currentDelay] has passed since the last one, and otherwise
    when the timer set for what is left of it fires. *)
Definition request_time (w : World) : Z :=
  let timeSinceLastRequest := now w - ig_lastRequestTime (instagram w) in
  if timeSinceLastRequest <? InstagramService.currentDelay w then
    now w
    + timerDelay (InstagramService.currentDelay w - timeSinceLastRequest)
  else now w.

(** The world when [respectRateLimit] has let the request go. *)
Definition requested (w : World) : World :=
  InstagramService.set_lastRequestTime (request_time w)
    (set_now (request_time w) w).

(** The world after a request that failed: the reply is consumed and the
    failure counted. *)
Definition failed (rest : list IgReply) (w : World) : World :=
  let w1 :=
    set_ig_replies rest
      (set_trace (trace (requested w) ++ [EvHttpGet "instagram"])
         (requested w)) in
  InstagramService.set_failureCount (failureCount (instagram w1) + 1) w1.

(** A failure that is not the rate-limit signal. *)
Definition server_error : IgReply :=
  IgThrows "Request failed with status code 500" (Some 500).

(** A profile page with one post. *)
Definition one_post : list ContentItem :=
  [mkItem "p7" (ValidDate 999999000) "https://www.instagram.com/p/p7/"].

(** Instagram answers the first request with a server error and the second
    with the profile page. *)
Definition world_500 : World :=
  set_ig_replies [server_error; IgLoaded (Some (IgTimeline one_post))] world0.

(** The rate-limit signal. *)
Definition rate_limited : IgReply :=
  IgThrows "Request failed with status code 429" (Some 429).


(** Instagram was checked before (post "p1") and now answers every
    request with status 429. *)
Definition world_rate_limited : World :=
  set_tables
    (mkTables
       [mkLastUpdate 1 "instagram" 999000 (Some "p1") (Some 998000000)
          999000 999000] 1 [] 0)
    (set_ig_replies [rate_limited; rate_limited; rate_limited] world0).

(** What the fetch of [world_rate_limited] resolves to. *)
Definition blocked : FetchResult :=
  mkFetch false
    (Some "Rate limited or blocked by Instagram. Last error: Request failed with status code 429")
    [].

(** The operation is an update of a cursor. *)
Definition is_update (e : Event) : bool :=
  match e with
  | EvUpdateLastCheck _ _ _ => true
  | _ => false
  end.

(** The trace grows, by no update of a cursor. *)
Definition no_update (w w' : World) : Prop :=
  exists d, trace w' = trace w ++ d /\ Forall (fun e => is_update e = false) d.

(** The channel is going to reject the next message. *)
Definition next_send_fails (w : World) : bool :=
  match channel_replies w with
  | ChSent _ :: _ => false
  | _ => true
  end.

(** The ids of the items handed to the channel in a stretch of the
    trace. *)
Definition dispatched (d : list Event) : list string :=
  flat_map (fun e => match e with
                     | EvChannelSend _ contentId => [contentId]
                     | _ => []
                     end) d.

(** The [switch (platform)] of [sendSocialMediaUpdate] has a case for
    [platform]. *)
Definition known_platform (platform : string) : bool :=
  (platform =? "youtube")%string || (platform =? "instagram")%string
  || (platform =? "linkedin")%string.

(** [formatForDiscord] can render the item's date. *)
Definition valid_date (item : ContentItem) : bool :=
  match item_timestamp item with
  | ValidDate _ => true
  | InvalidDate => false
  end.

(** The Discord client is ready and has found the announcement channel. *)
Definition connected (w : World) : bool :=
  isReady (discord w) && announcementChannel (discord w).

(** What a call of [sendSocialMediaUpdate] that cannot get its message
    through leaves behind: an error, the tables as they were, at most the
    attempt in the trace. *)
Definition send_failed (content : ContentItem) (platform : string)
  (w : World) (c : Completion string) (w' : World) : Prop :=
  (exists e, c = Throws e) /\
  tables w' = tables w /\
  exists d, trace w' = trace w ++ d /\
            Forall (eq (EvChannelSend platform (item_id content))) d.

(** What a call of [sendSocialMediaUpdate] that reaches the channel leaves
    behind, whether the channel accepts the message or not. *)
Definition send_attempted (content : ContentItem) (w : World)
  (c : Completion string) (w' : World) : Prop :=
  c <> OutOfFuel /\ discord w' = discord w /\
  exists d, trace w' = trace w ++ d /\ dispatched d = [item_id content].

(** A batch of two videos. *)
Definition two_videos : list ContentItem :=
  [video "x" 999999000; video "y" 999999500].

(** The channel rejects the first message and accepts the second. *)
Definition world_batch : World :=
  set_channel_replies [ChFails "Missing Access"; ChSent "m2"] world0.


(** The position of a source in the cycle. *)
Definition source_index (platform : string) : nat :=
  if (platform =? "youtube")%string then 0
  else if (platform =? "instagram")%string then 1
  else if (platform =? "linkedin")%string then 2
  else 3.

(** The stage of a cycle an operation belongs to: a source's check, then
    its notifications, source after source, then the error summary. *)
Definition stage (e : Event) : nat :=
  match e with
  | EvGetLastUpdate p | EvUpdateLastCheck p _ _ | EvIsNotificationSent p _
  | EvHttpGet p => 2 * source_index p
  | EvChannelSend p _ | EvRecordSentNotification p _ => 2 * source_index p + 1
  | EvChannelMessage _ => 8
  | EvGetBotStats | EvCleanupOldNotifications => 9
  end.

(** [a] belongs to the stage of [b] or to an earlier one. *)
Definition stage_le (a b : Event) : Prop := (stage a <= stage b)%nat.

(** The trace grows by operations of stage [k] only. *)
Definition in_stage (k : nat) (w w' : World) : Prop :=
  exists d, trace w' = trace w ++ d /\ Forall (fun e => stage e = k) d.

(** The trace grows by operations of the stages [lo] to [hi], in the order
    of their stages. *)
Definition staged (lo hi : nat) (w w' : World) : Prop :=
  exists d,
    trace w' = trace w ++ d /\
    StronglySorted stage_le d /\
    Forall (fun e => (lo <= stage e <= hi)%nat) d.

(** Only YouTube is configured; one new video is fetched and the channel
    accepts its announcement. *)
Definition world_cycle : World :=
  mkWorld 1000000000 empty_tables [] [YtVideos [video "a" 999999000]] [] []
    [ChSent "m1"] []
    (mkYouTube (Some "key") (Some "UC123") None)
    (mkInstagram None 0 0)
    (mkLinkedIn None 0)
    (mkDiscord true true) None [].

(** Only YouTube is configured; two cycles in a row fetch the video "x";
    the channel rejects the first message and would accept a second. *)
Definition world_lost : World :=
  set_yt_replies
    [YtVideos [video "x" 999999000]; YtVideos [video "x" 999999000]]
    (set_channel_replies [ChFails "Missing Access"; ChSent "m2"]
       world_cycle).

(** The operations of that cycle, in order. *)
Definition cycle_trace : list Event :=
  [EvGetLastUpdate "youtube"; EvHttpGet "youtube";
   EvIsNotificationSent "youtube" "a";
   EvUpdateLastCheck "youtube" (Some "a") (Some 999999000);
   EvChannelSend "youtube" "a"; EvRecordSentNotification "youtube" "a"].

(** ** The dedup store on its own *)

(** The instant before which [cleanupOldNotifications] forgets a
    notification: thirty days before the statement runs. *)
Definition expiry (w : World) : Z :=
  Database.CURRENT_TIMESTAMP w - 30 * 86400.

(** A cursor was written for YouTube. *)
Definition world_updated : World :=
  snd (Database.updateLastCheck "youtube" (Some "a") (Some 999999000) world0).

(** Two notifications on record, one of forty days ago, one of today. *)
Definition world_history : World :=
  set_tables
    (mkTables [] 0
       [mkSent 1 "youtube" "old" "url" "m1" (1000000 - 40 * 86400);
        mkSent 2 "youtube" "new" "url" "m2" 999000] 2)
    world0.

(** ** What a check resolves to *)

(** The item is newer than the cursor the check of [platform] starts
    from. *)
Definition newer_than_cursor (platform : string) (w : World)
  (x : ContentItem) : bool :=
  date_gt (item_timestamp x) (cursorOf platform w).

(** What the Instagram poller keeps of a page at most. *)
Definition fetch_limit (s : Source) (items : list ContentItem) : Prop :=
  match s with
  | Instagram => (List.length items <= 10)%nat
  | _ => True
  end.

(** The result of a check started in [w]: a failure carries no content and
    no count; a success reports the fetched items that are newer than the cursor and
    have no notification on record, and counts the fetched items. *)
Definition check_result (s : Source) (w : World) (r : CheckResult) : Prop :=
  (success r = false -> newContentOf r = [] /\ totalChecked r = None) /\
  (success r = true ->
   exists items,
     fetch_limit s items /\
     totalChecked r = Some (Z.of_nat (List.length items)) /\
     newContent r
     = Some (filter (unseen (platformOf s) (tables w))
               (filter (newer_than_cursor (platformOf s) w) items))).

(** What the [try] block of a check guarantees: an error or a failed
    result leaves the tables as they were. *)
Definition check_body_post (s : Source) (w : World)
  (c : Completion CheckResult) (w' : World) : Prop :=
  c <> OutOfFuel /\
  (forall e, c = Throws e -> tables w' = tables w) /\
  forall r, c = Normal r ->
            check_result s w r /\
            (success r = false -> tables w' = tables w).

(** What a whole check guarantees. *)
Definition check_post (s : Source) (w : World)
  (c : Completion CheckResult) (w' : World) : Prop :=
  exists r, c = Normal r /\ check_result s w r /\
            (s <> Instagram -> success r = false -> tables w' = tables w).

(** The YouTube API answers with an error. *)
Definition world_api_down : World :=
  set_yt_replies [YtFails "Request failed with status code 403"] world0.

(** ** The fetchers on their own *)

(** The error [tryRSSFeed] reports when the profile url names a user. *)
Definition li_restricted : string :=
  "LinkedIn data access is restricted. Consider using LinkedIn API with proper authentication.".

(** LinkedIn is configured and refuses the request. *)
Definition world_linkedin : World :=
  mkWorld 1000000000 empty_tables [] [] [] [LiThrows "status code 999"] [] []
    (mkYouTube None None None)
    (mkInstagram None 0 0)
    (mkLinkedIn (Some "https://www.linkedin.com/in/someone/") 999999000)
    (mkDiscord true true) None [].

(** ** The scheduler on its own *)

(** [results.filter(r => !r.success)] *)
Definition failedChecks (results : Scheduler.Results) : Scheduler.Results :=
  filter (fun r => negb (success (snd r))) results.

(** The message of an error summary about [results]. *)
Definition summary_of (results : Scheduler.Results) : Event :=
  EvChannelMessage (Scheduler.errorMessage (failedChecks results)).

(** A failed check of YouTube to report, nothing reported before, and a
    channel that accepts the message. *)
Definition youtube_failed : Scheduler.Results :=
  [("YouTube", mkCheck false (Some "quota exceeded") None None)].

Definition world_summary : World :=
  set_channel_replies [ChSent "m1"] world0.

(** The platform an operation is about, if it is about one. *)
Definition platform_of (e : Event) : option string :=
  match e with
  | EvGetLastUpdate p | EvUpdateLastCheck p _ _ | EvIsNotificationSent p _
  | EvRecordSentNotification p _ | EvHttpGet p | EvChannelSend p _ => Some p
  | EvGetBotStats | EvCleanupOldNotifications | EvChannelMessage _ => None
  end.

(** No operation of a stretch of the trace is about [platform]. *)
Definition untouched (platform : string) (d : list Event) : Prop :=
  Forall (fun e => platform_of e <> Some platform) d.

(** The configuration the pollers were constructed with is what it was. *)
Definition same_config (w w' : World) : Prop :=
  youtube w' = youtube w /\
  username (instagram w') = username (instagram w) /\
  profileUrl (linkedin w') = profileUrl (linkedin w).

(** [isConfigured] of the poller contract, as the method of each
    service. *)
Definition isConfiguredOf (s : Source) : M bool :=
  match s with
  | YouTube => YouTubeService.isConfigured
  | Instagram => InstagramService.isConfigured
  | LinkedIn => LinkedInService.isConfigured
  end.

(** ** The dispatcher on its own *)

(** A video that can be announced and a channel that accepts the message;
    the store then fails or not. *)
Definition world_send : World :=
  set_channel_replies [ChSent "m1"] world0.

(** ** The configuration *)

(** A configuration with Discord, YouTube and Instagram set up, from which
    the services of [world0] are constructed. *)
Definition config0 : Config.Config :=
  Config.mkConfig
    (Config.mkDiscordConfig (Some "token") None None (Some "channel") None)
    (Config.mkSocialMedia
       (Config.mkInstagramConfig (Some "someone") None)
       (Config.mkLinkedInConfig None None)
       (mkYouTube (Some "key") (Some "UC123") None)).

(** The services of [w] are the ones constructed from [config]. *)
Definition constructed_from (config : Config.Config) (w : World) : Prop :=
  youtube w = YouTubeService.constructor config /\
  username (instagram w) = username (InstagramService.constructor config) /\
  profileUrl (linkedin w) = profileUrl (LinkedInService.constructor config).

(** ** The text helpers *)

(** [body] has no white space at either end. *)
Definition trimmed (body : JsString) : Prop :=
  (forall c, hd_error body = Some c -> isWhiteSpace c = false) /\
  (forall c, hd_error (rev body) = Some c -> isWhiteSpace c = false).

(** [out] is what a text helper makes of [text] under the limit
    [maxLength]: the placeholder [fallback] for a missing or empty text,
    the text itself when it fits, and otherwise its first [maxLength] code
    units, stripped of the white space at their ends and followed by three
    dots. *)
Definition cut_to (fallback : string) (text : option JsString)
  (maxLength : Z) (out : JsString) : Prop :=
  match text with
  | None | Some [] => out = units fallback
  | Some s =>
      (Z.of_nat (List.length s) <= maxLength -> out = s) /\
      (maxLength < Z.of_nat (List.length s) ->
       Z.of_nat (List.length out) <= maxLength + 3 /\
       exists white body white' rest,
         out = body ++ units "..." /\
         s = white ++ body ++ white' ++ rest /\
         Z.of_nat (List.length (white ++ body ++ white')) = maxLength /\
         forallb isWhiteSpace white = true /\
         forallb isWhiteSpace white' = true /\
         trimmed body)
  end.

(** A text of 21 code units. *)
Definition sample_text : JsString := units "Hello brave new world".

(** [s] holds no [/]. *)
Definition no_slash (s : string) : Prop :=
  forall c, In c (list_ascii_of_string s) -> c <> "/"%char.

(** [rest] is empty or begins with [/]. *)
Definition at_slash (rest : string) : Prop :=
  rest = "" \/ exists r, rest = String "/" r.

(** The cursors are what they were. *)
Definition same_cursors (w w' : World) : Prop :=
  last_updates (tables w') = last_updates (tables w).

(** What was on record as sent still is. *)
Definition sent_grows (w w' : World) : Prop :=
  forall p i,
    already_sent p i (tables w) = true -> already_sent p i (tables w') = true.

(** The Discord client lost its connection; two videos wait to be
    announced. *)
Definition world_offline : World :=
  mkWorld 1000000000 empty_tables [] [] [] [] [ChSent "m1"; ChSent "m2"] []
    (mkYouTube (Some "key") (Some "UC123") None)
    (mkInstagram (Some "someone") 0 0)
    (mkLinkedIn None 0)
    (mkDiscord false true) None [].

(** ** The slash command /check-now *)

(** Nothing but the clock has changed. *)
Definition only_clock (w w' : World) : Prop :=
  now w <= now w' /\ w' = set_now (now w') w.

(** The methods of the interaction talk to Discord about the command and
    leave the bot alone. *)
Definition passive (interaction : DiscordService.Interaction) : Prop :=
  sat only_clock (DiscordService.deferReply interaction) /\
  forall reply, sat only_clock (DiscordService.editReply interaction reply).

(** An interaction whose replies all get through. *)
Definition interaction0 : DiscordService.Interaction :=
  DiscordService.mkInteraction (ret tt) (fun _ => ret tt).

(** An operation of a check: a read or a write of a cursor, a look at the
    notifications on record, a request to the platform. *)
Definition is_check (e : Event) : Prop :=
  match e with
  | EvGetLastUpdate _ | EvUpdateLastCheck _ _ _ | EvIsNotificationSent _ _
  | EvHttpGet _ => True
  | _ => False
  end.

(** The trace grows by operations of checks only. *)
Definition checks_only (w w' : World) : Prop :=
  exists d, trace w' = trace w ++ d /\ Forall is_check d.

(** Sends that were each followed by the recording of the notification. *)
Inductive recorded_sends : list Event -> Prop :=
| recorded_nil : recorded_sends []
| recorded_cons platform contentId rest :
    recorded_sends rest ->
    recorded_sends
      (EvChannelSend platform contentId
       :: EvRecordSentNotification platform contentId :: rest).

(** Sends of which only the last may lack the recording of its
    notification: a send that did not get through ends the sequence. *)
Inductive send_chain : list Event -> Prop :=
| chain_nil : send_chain []
| chain_last platform contentId :
    send_chain [EvChannelSend platform contentId]
| chain_cons platform contentId rest :
    send_chain rest ->
    send_chain
      (EvChannelSend platform contentId
       :: EvRecordSentNotification platform contentId :: rest).

(** What a send, or a run of sends, leaves behind: a chain of sends, each
    one recorded when the run comes to its end. *)
(** What a send, or a sequence of sends that stops at the first one that
    fails, adds to the trace. *)
Definition sends_post (w : World) {A} (c : Completion A) (w' : World) : Prop :=
  c <> OutOfFuel /\
  exists d,
    trace w' = trace w ++ d /\ send_chain d /\
    forall a, c = Normal a -> recorded_sends d.

(** The trace grows. *)
Definition trace_grows (w w' : World) : Prop :=
  exists d, trace w' = trace w ++ d.

(** What a check started in [w] guarantees of the cursor: a result that
    reports new content was preceded by an update of the cursor of
    [platform]. *)
Definition cursor_updated (platform : string) (w : World)
  (c : Completion CheckResult) (w' : World) : Prop :=
  forall r,
    c = Normal r -> success r = true -> newContentOf r <> [] ->
    exists d lastContentId lastContentTimestamp,
      trace w' = trace w ++ d /\
      In (EvUpdateLastCheck platform lastContentId lastContentTimestamp) d.

(** Every item handed to the channel comes after an update of the cursor
    of its platform. *)
Definition updates_first (d : list Event) : Prop :=
  forall platform contentId pre post,
    d = pre ++ EvChannelSend platform contentId :: post ->
    exists lastContentId lastContentTimestamp,
      In (EvUpdateLastCheck platform lastContentId lastContentTimestamp) pre.

(** The trace grows by operations in which the updates come first. *)
Definition sends_after_updates (w w' : World) : Prop :=
  exists d, trace w' = trace w ++ d /\ updates_first d.

(** What [scrapeProfile] makes of a profile page. *)
Definition page_result (jsonData : option IgData) : FetchResult :=
  match jsonData with
  | Some data => InstagramService.parseInstagramData data
  | None => InstagramService.extractBasicInfo
  end.

(** The first of the next [n] requests that gets the profile page,
    together with the replies left after it; [None] when the [n] requests
    all fail (a request without a reply fails). *)
Fixpoint first_page (n : nat) (replies : list IgReply)
  : option (option IgData * list IgReply) :=
  match n with
  | O => None
  | S n' =>
      match replies with
      | IgLoaded jsonData :: rest => Some (jsonData, rest)
      | _ => first_page n' (tl replies)
      end
  end.

(** How a fetch that has [n] attempts left settles the backoff: the first
    page it gets resets [failureCount]; [n] failed attempts are counted
    one by one. *)
Definition backoff_outcome (n : nat) (w : World) (r : FetchResult)
  (w' : World) : Prop :=
  match first_page n (ig_replies w) with
  | Some (jsonData, rest) =>
      r = page_result jsonData /\ ig_replies w' = rest /\
      failureCount (instagram w') = 0
  | None =>
      fetched r = false /\ posts r = [] /\
      failureCount (instagram w') = failureCount (instagram w) + Z.of_nat n
  end.

(** * Reasoning about computations *)

Lemma timerDelay_range ms : 1 <= timerDelay ms <= TIMEOUT_MAX.
Proof.
  unfold timerDelay, TIMEOUT_MAX.
  destruct (Z.leb_spec 1 ms), (Z.leb_spec ms 2147483647); cbn; lia.
Qed.

Lemma timerDelay_fits ms : 1 <= ms <= TIMEOUT_MAX -> timerDelay ms = ms.
Proof.
  unfold timerDelay. intros [Hlo Hhi].
  apply Z.leb_le in Hlo, Hhi. now rewrite Hlo, Hhi.
Qed.


(** What is known of every delay a timer runs with. *)
Ltac timer_facts :=
  repeat match goal with
         | |- context [timerDelay ?ms] =>
             lazymatch goal with
             | _ : 1 <= timerDelay ms <= TIMEOUT_MAX |- _ => fail
             | _ => pose proof (timerDelay_range ms)
             end
         end.

Lemma wp_run {A} (m : M A) Q w c w' :
  wp m Q w -> m w = (c, w') -> Q c w'.
Proof. unfold wp. intros H E. rewrite E in H. exact H. Qed.

Lemma wp_intro {A} (m : M A) (Q : Completion A -> World -> Prop) w :
  (forall c w', m w = (c, w') -> Q c w') -> wp m Q w.
Proof. unfold wp. intros H. apply H. destruct (m w); reflexivity. Qed.

Lemma wp_conseq {A} (m : M A) (Q Q' : Completion A -> World -> Prop) w :
  wp m Q w -> (forall c w', Q c w' -> Q' c w') -> wp m Q' w.
Proof. unfold wp. auto. Qed.

Lemma wp_and {A} (m : M A) (Q Q' : Completion A -> World -> Prop) w :
  wp m Q w -> wp m Q' w -> wp m (fun c w' => Q c w' /\ Q' c w') w.
Proof. unfold wp. auto. Qed.

Lemma wp_ret {A} (a : A) (Q : Completion A -> World -> Prop) w :
  Q (Normal a) w -> wp (ret a) Q w.
Proof. auto. Qed.

Lemma wp_throw {A} e (Q : Completion A -> World -> Prop) w :
  Q (Throws e) w -> wp (throw e) Q w.
Proof. auto. Qed.

Lemma wp_gets {A} (f : World -> A) (Q : Completion A -> World -> Prop) w :
  Q (Normal (f w)) w -> wp (gets f) Q w.
Proof. auto. Qed.

Lemma wp_modify f (Q : Completion unit -> World -> Prop) w :
  Q (Normal tt) (f w) -> wp (modify f) Q w.
Proof. auto. Qed.

Lemma wp_lift {A} (r : JsError + A) (Q : Completion A -> World -> Prop) w :
  match r with inl e => Q (Throws e) w | inr a => Q (Normal a) w end ->
  wp (lift r) Q w.
Proof. destruct r; auto. Qed.

Lemma wp_bind {A B} (m : M A) (f : A -> M B)
  (Q : Completion B -> World -> Prop) w :
  wp m (fun c w1 =>
          match c with
          | Normal a => wp (f a) Q w1
          | Throws e => Q (Throws e) w1
          | OutOfFuel => Q OutOfFuel w1
          end) w ->
  wp (bind m f) Q w.
Proof.
  unfold wp, bind. destruct (m w) as [[a|e|] w1]; simpl; auto.
Qed.

Lemma wp_try_catch {A} (m : M A) (h : JsError -> M A)
  (Q : Completion A -> World -> Prop) w :
  wp m (fun c w1 =>
          match c with
          | Throws e => wp (h e) Q w1
          | _ => Q c w1
          end) w ->
  wp (try_catch m h) Q w.
Proof.
  unfold wp, try_catch. destruct (m w) as [[a|e|] w1]; simpl; auto.
Qed.

(** One step of symbolic execution. *)
Ltac wp_step :=
  lazymatch goal with
  | |- wp (bind _ _) _ _ => apply wp_bind
  | |- wp (try_catch _ _) _ _ => apply wp_try_catch
  | |- wp (ret _) _ _ => apply wp_ret
  | |- wp (throw _) _ _ => apply wp_throw
  | |- wp (gets _) _ _ => apply wp_gets
  | |- wp Date_now _ _ => apply wp_gets
  | |- wp (modify _) _ _ => apply wp_modify
  | |- wp (emit _) _ _ => apply wp_modify
  | |- wp (sleep _) _ _ => apply wp_modify
  | |- wp (lift ?r) _ _ => apply wp_lift; destruct r eqn:?
  | |- wp (if ?b then _ else _) _ _ => destruct b eqn:?
  | |- wp (match ?x with _ => _ end) _ _ => destruct x eqn:?
  end.

Ltac wp_steps := repeat wp_step.

(** ** Computations that stay inside a relation *)

Section Sat.

Context (R : World -> World -> Prop) `{PreOrder World R}.

Lemma sat_ret {A} (a : A) : sat R (ret a).
Proof. intros w. apply wp_ret. split; [discriminate | reflexivity]. Qed.

Lemma sat_throw {A} e : sat R (@throw A e).
Proof. intros w. apply wp_throw. split; [discriminate | reflexivity]. Qed.

Lemma sat_gets {A} (f : World -> A) : sat R (gets f).
Proof. intros w. apply wp_gets. split; [discriminate | reflexivity]. Qed.

Lemma sat_lift {A} (r : JsError + A) : sat R (lift r).
Proof. destruct r; [apply sat_throw | apply sat_ret]. Qed.

Lemma sat_modify f : (forall w, R w (f w)) -> sat R (modify f).
Proof. intros Hf w. apply wp_modify. split; [discriminate | apply Hf]. Qed.

Lemma sat_bind {A B} (m : M A) (f : A -> M B) :
  sat R m -> (forall a, sat R (f a)) -> sat R (bind m f).
Proof.
  intros Hm Hf w. apply wp_bind.
  eapply wp_conseq; [apply Hm|]. intros [a|e|] w1 [Hc H1].
  - eapply wp_conseq; [apply Hf|]. simpl. intros c w2 [Hc2 H2].
    split; [exact Hc2 | etransitivity; eassumption].
  - split; [discriminate | exact H1].
  - contradiction.
Qed.

Lemma sat_try_catch {A} (m : M A) (h : JsError -> M A) :
  sat R m -> (forall e, sat R (h e)) -> sat R (try_catch m h).
Proof.
  intros Hm Hh w. apply wp_try_catch.
  eapply wp_conseq; [apply Hm|]. intros [a|e|] w1 [Hc H1].
  - split; [discriminate | exact H1].
  - eapply wp_conseq; [apply Hh|]. simpl. intros c w2 [Hc2 H2].
    split; [exact Hc2 | etransitivity; eassumption].
  - contradiction.
Qed.

Lemma sat_fun {A} (m : M A) :
  (forall w, fst (m w) <> OutOfFuel /\ R w (snd (m w))) -> sat R m.
Proof. intros Hm w. apply Hm. Qed.

End Sat.

Lemma sat_run {A} R (m : M A) w c w' :
  sat R m -> m w = (c, w') -> c <> OutOfFuel /\ R w w'.
Proof. intros Hm E. exact (wp_run _ _ _ _ _ (Hm w) E). Qed.

Lemma sat_weaken {A} (R R' : World -> World -> Prop) (m : M A) :
  (forall w w', R w w' -> R' w w') -> sat R m -> sat R' m.
Proof.
  intros HR Hm w. eapply wp_conseq; [apply Hm|]. simpl.
  intros c w' [Hc Hw]. auto.
Qed.

(** Every statement of the store stays inside a relation that its three
    effects (the recorded call, the consumed fault, the new tables) stay
    inside. *)
Lemma sat_sqlite R `{PreOrder World R} {A} call
  (stmt : Z -> Tables -> A * Tables) :
  (forall w, R w (set_trace (trace w ++ [call]) w)) ->
  (forall v w, R w (set_db_faults v w)) ->
  (forall w,
     R w (set_tables (snd (stmt (Database.CURRENT_TIMESTAMP w) (tables w)))
            w)) ->
  sat R (Database.sqlite call stmt).
Proof.
  intros Hcall Hfaults Hstmt. unfold Database.sqlite.
  apply sat_bind; [exact _ | apply sat_modify, Hcall | intros _].
  apply sat_bind; [exact _ | apply sat_gets; exact _ | intros faults].
  apply sat_bind; [exact _ | apply sat_modify, Hfaults | intros _].
  assert (Hrun : sat R (fun w =>
             let (a, t) := stmt (Database.CURRENT_TIMESTAMP w) (tables w) in
             (Normal a, set_tables t w))).
  { apply sat_fun. intros w. specialize (Hstmt w).
    destruct (stmt (Database.CURRENT_TIMESTAMP w) (tables w)).
    split; [discriminate | exact Hstmt]. }
  destruct faults as [|[msg|] rest]; auto. apply sat_throw. exact _.
Qed.

(** Programs whose definitions the tactics below may unfold. *)
Create HintDb prog discriminated.

#[export] Hint Unfold Date_now emit sleep
  Database.getLastUpdate Database.updateLastCheck
  Database.isNotificationSent Database.recordSentNotification
  Database.getBotStats Database.cleanupOldNotifications
  lastCheckTimeOf
  YouTubeService.isConfigured YouTubeService.getChannelId
  YouTubeService.playlistItems
  YouTubeService.getLatestVideos YouTubeService.checkForNewVideos
  YouTubeService.checkForNewVideos_try
  InstagramService.isConfigured InstagramService.respectRateLimit
  InstagramService.loadProfile InstagramService.scrapeProfile
  InstagramService.scrapeProfile_try
  InstagramService.checkForNewPosts InstagramService.checkForNewPosts_try
  InstagramService.checkForNewPosts_catch
  LinkedInService.isConfigured LinkedInService.respectRateLimit
  LinkedInService.loadProfile LinkedInService.tryRSSFeed
  LinkedInService.scrapeProfile LinkedInService.checkForNewPosts
  LinkedInService.checkForNewPosts_try
  DiscordService.channelSend DiscordService.requireReady
  DiscordService.sendSocialMediaUpdate DiscordService.sendMessage
  Scheduler.sendNotifications Scheduler.sendErrorSummary
  Scheduler.checkPlatform Scheduler.performScheduledCheck
  Scheduler.performDailyCleanup Scheduler.triggerManualCheck : prog.

(** Lemmas [sat R m] about loops, used as leaves. *)
Create HintDb sat discriminated.

(** Decomposes a goal [sat R m] along the structure of [m]; [leaf] is run
    on the goals [R w (f w)] left by state updates. *)
Ltac sat_leaf leaf :=
  intros;
  lazymatch goal with
  | |- PreOrder _ => exact _
  | _ => solve [leaf]
  end.

Ltac sat_go leaf :=
  repeat (intros;
    lazymatch goal with
    | |- PreOrder _ => exact _
    | |- sat _ (ret _) => apply sat_ret
    | |- sat _ (throw _) => apply sat_throw
    | |- sat _ (gets _) => apply sat_gets
    | |- sat _ (lift _) => apply sat_lift
    | |- sat _ (bind _ _) => apply sat_bind
    | |- sat _ (try_catch _ _) => apply sat_try_catch
    | |- sat _ (modify _) => apply sat_modify; sat_leaf leaf
    | |- sat _ (Database.sqlite _ _) => apply sat_sqlite; sat_leaf leaf
    | |- sat _ (if ?b then _ else _) => destruct b
    | |- sat _ (match ?x with _ => _ end) => destruct x
    | |- sat _ _ =>
        first [ solve [auto 2 with sat nocore]
              | progress (cbv zeta)
              | progress (autounfold with prog) ]
    end).

(** * The pollers leave the tables alone until the cursor update *)

#[export] Instance same_tables_preorder : PreOrder same_tables.
Proof.
  split; unfold same_tables; [intros w | intros a b c Hab Hbc]; congruence.
Qed.

Ltac same_tables_leaf := unfold same_tables; reflexivity.

Lemma getLastUpdate_same_tables platform :
  sat same_tables (Database.getLastUpdate platform).
Proof. sat_go same_tables_leaf. Qed.

Lemma isNotificationSent_same_tables platform contentId :
  sat same_tables (Database.isNotificationSent platform contentId).
Proof. sat_go same_tables_leaf. Qed.

Lemma getLatestVideos_same_tables n :
  sat same_tables (YouTubeService.getLatestVideos n).
Proof. sat_go same_tables_leaf. Qed.

Lemma enough_fuel_next fuel attempt :
  enough_fuel (S fuel) attempt ->
  (attempt + 1 <? InstagramService.maxRetries) = true \/
  (InstagramService.maxRetries <=? attempt + 1) = false ->
  enough_fuel fuel (attempt + 1).
Proof. unfold enough_fuel, InstagramService.maxRetries. lia. Qed.

(** The induction shared by the invariants of the retry loop. *)
Ltac loop_induction leaf :=
  let fuel := fresh "fuel" in
  let IH := fresh "IH" in
  let attempt := fresh "attempt" in
  let Hfuel := fresh "Hfuel" in
  let err := fresh "err" in
  intros fuel; induction fuel as [|fuel IH]; intros attempt Hfuel;
  [ exfalso; unfold enough_fuel in Hfuel; lia
  | cbn [InstagramService.scrapeProfile_loop];
    destruct (attempt <? InstagramService.maxRetries) eqn:Hlt;
    [ apply sat_try_catch; [exact _ | sat_go leaf | intros err];
      apply sat_bind; [exact _ | sat_go leaf | intros _];
      cbv zeta;
      destruct (InstagramService.maxRetries <=? attempt + 1) eqn:Hmax;
      destruct (InstagramService.is429 err);
      destruct (attempt + 1 <? InstagramService.maxRetries) eqn:Hnext;
      try (apply sat_bind; [exact _ | sat_go leaf | intros _]);
      first
        [ apply sat_ret; exact _
        | apply IH; apply enough_fuel_next; auto
        | exfalso; unfold InstagramService.maxRetries in *; lia ]
    | apply sat_ret; exact _ ] ].

Lemma ig_scrapeProfile_loop_same_tables :
  forall fuel attempt,
    enough_fuel fuel attempt ->
    sat same_tables (InstagramService.scrapeProfile_loop fuel attempt).
Proof. loop_induction same_tables_leaf. Qed.

Lemma enough_fuel_scrapeProfile :
  enough_fuel (S (Z.to_nat InstagramService.maxRetries)) 0.
Proof. unfold enough_fuel, InstagramService.maxRetries. simpl. lia. Qed.

Lemma ig_scrapeProfile_same_tables :
  sat same_tables InstagramService.scrapeProfile.
Proof.
  apply ig_scrapeProfile_loop_same_tables, enough_fuel_scrapeProfile.
Qed.

Lemma li_scrapeProfile_same_tables :
  sat same_tables LinkedInService.scrapeProfile.
Proof. sat_go same_tables_leaf. Qed.

(** * Running a statement of the store *)

Lemma sqlite_run {A} call (stmt : Z -> Tables -> A * Tables) w :
  Database.sqlite call stmt w =
  match next_fault w with
  | Some msg => (Throws (Error msg), after_call call w)
  | None =>
      (Normal (fst (stmt (Database.CURRENT_TIMESTAMP w) (tables w))),
       set_tables (snd (stmt (Database.CURRENT_TIMESTAMP w) (tables w)))
         (after_call call w))
  end.
Proof.
  unfold Database.sqlite, next_fault, after_call, bind, emit, modify, gets,
    throw.
  cbn. destruct (db_faults w) as [|[msg|] rest]; cbn; try reflexivity;
    unfold Database.CURRENT_TIMESTAMP; cbn;
    destruct (stmt (now w / 1000) (tables w)); reflexivity.
Qed.

(** * The polymorphic poller contract *)

Lemma isNotificationSent_spec platform contentId w :
  wp (Database.isNotificationSent platform contentId)
    (fun c w' =>
       c <> OutOfFuel /\ tables w' = tables w /\
       forall b, c = Normal b -> b = already_sent platform contentId (tables w))
    w.
Proof.
  apply wp_intro. intros c w'. unfold Database.isNotificationSent.
  rewrite sqlite_run. destruct (next_fault w); intros E; inversion E; subst;
    cbn; (split; [discriminate|]); (split; [reflexivity|]);
    intros b Hb; inversion Hb; reflexivity.
Qed.

Lemma filterUnseen_spec platform items :
  forall acc w,
    wp (filterUnseen platform items acc)
      (fun c w' =>
         c <> OutOfFuel /\ tables w' = tables w /\
         forall r, c = Normal r ->
                   r = acc ++ filter (unseen platform (tables w)) items)
      w.
Proof.
  induction items as [|x rest IH]; intros acc w; cbn [filterUnseen].
  - apply wp_ret. repeat split; try discriminate.
    intros r Hr. inversion Hr. cbn. now rewrite app_nil_r.
  - apply wp_bind. eapply wp_conseq; [apply isNotificationSent_spec|].
    cbv beta. intros [b|e|] w1 (Hc & Ht & Hb); [| |contradiction].
    + eapply wp_conseq; [apply IH|]. cbv beta.
      intros c w2 (Hc2 & Ht2 & Hr). split; [exact Hc2|].
      split; [congruence|]. intros r Er. rewrite (Hr r Er), Ht.
      cbn [filter]. unfold unseen at 2. rewrite <- (Hb b eq_refl).
      destruct b; cbn; [reflexivity|]. now rewrite <- app_assoc.
    + repeat split; try discriminate. exact Ht.
Qed.

#[export] Instance anything_preorder : PreOrder anything.
Proof. split; unfold anything; auto. Qed.

Ltac anything_leaf := exact I.

(** Use a [sat] lemma for the first computation of a [bind]. *)
Ltac wp_sat lemma :=
  apply wp_bind; eapply wp_conseq; [apply lemma|];
  cbv beta; intros [?|?|] ? [? ?]; [ | | contradiction].

Lemma lastCheckTimeOf_same_tables lastUpdate :
  sat same_tables (lastCheckTimeOf lastUpdate).
Proof. sat_go same_tables_leaf. Qed.

(** The part of a check that follows a successful fetch: the dedup loop,
    the cursor update, the result object. *)
Lemma check_tail_excludes_sent platform w w1 items (update : M unit)
  (total : option Z) :
  tables w1 = tables w ->
  sat anything update ->
  wp (unseenItems <- filterUnseen platform items [] ;;
      update ;;
      ret (mkCheck true None (Some unseenItems) total))
    (fun c _ => excludes_sent platform w c) w1.
Proof.
  intros Ht Hupdate. apply wp_bind.
  eapply wp_conseq; [apply filterUnseen_spec|]. cbv beta.
  intros [u|e|] w2 (Hc & Ht2 & Hu); [| |contradiction].
  - wp_sat Hupdate.
    + apply wp_ret. split; [discriminate|]. intros r E x Hx.
      inversion E; subst r. cbn in Hx. rewrite (Hu u eq_refl) in Hx.
      cbn in Hx. apply filter_In in Hx. destruct Hx as [_ Hx].
      unfold unseen in Hx. rewrite Ht in Hx.
      now apply negb_true_iff in Hx.
    + split; [discriminate|]. intros r E. discriminate E.
  - split; [discriminate|]. intros r E. discriminate E.
Qed.

Ltac excludes_trivial :=
  split; [discriminate|];
  let r := fresh "r" in let E := fresh "E" in
  intros r E; try discriminate E; inversion E; cbn; tauto.

Lemma youtube_try_excludes_sent w :
  wp YouTubeService.checkForNewVideos_try
    (fun c _ => excludes_sent "youtube" w c) w.
Proof.
  unfold YouTubeService.checkForNewVideos_try.
  apply wp_bind. unfold YouTubeService.isConfigured. apply wp_gets.
  destruct (negb _); [ apply wp_ret; excludes_trivial | ].
  wp_sat getLastUpdate_same_tables; [ | excludes_trivial ].
  wp_sat lastCheckTimeOf_same_tables; [ | excludes_trivial ].
  wp_sat getLatestVideos_same_tables; [ | excludes_trivial ].
  destruct (negb _); [ apply wp_ret; excludes_trivial | ].
  cbv zeta. apply check_tail_excludes_sent;
    [ unfold same_tables in *; congruence | sat_go anything_leaf ].
Qed.

Lemma instagram_try_excludes_sent w :
  wp InstagramService.checkForNewPosts_try
    (fun c _ => excludes_sent "instagram" w c) w.
Proof.
  unfold InstagramService.checkForNewPosts_try.
  apply wp_bind. unfold InstagramService.isConfigured. apply wp_gets.
  destruct (negb _); [ apply wp_ret; excludes_trivial | ].
  wp_sat getLastUpdate_same_tables; [ | excludes_trivial ].
  wp_sat lastCheckTimeOf_same_tables; [ | excludes_trivial ].
  wp_sat ig_scrapeProfile_same_tables; [ | excludes_trivial ].
  destruct (negb _); [ apply wp_ret; excludes_trivial | ].
  cbv zeta. apply check_tail_excludes_sent;
    [ unfold same_tables in *; congruence | sat_go anything_leaf ].
Qed.

Lemma linkedin_try_excludes_sent w :
  wp LinkedInService.checkForNewPosts_try
    (fun c _ => excludes_sent "linkedin" w c) w.
Proof.
  unfold LinkedInService.checkForNewPosts_try.
  apply wp_bind. unfold LinkedInService.isConfigured. apply wp_gets.
  destruct (negb _); [ apply wp_ret; excludes_trivial | ].
  wp_sat getLastUpdate_same_tables; [ | excludes_trivial ].
  wp_sat lastCheckTimeOf_same_tables; [ | excludes_trivial ].
  wp_sat li_scrapeProfile_same_tables; [ | excludes_trivial ].
  destruct (negb _); [ apply wp_ret; excludes_trivial | ].
  cbv zeta. apply check_tail_excludes_sent;
    [ unfold same_tables in *; congruence | sat_go anything_leaf ].
Qed.

Lemma updateLastCheck_anything platform lastContentId lastContentTimestamp :
  sat anything
    (Database.updateLastCheck platform lastContentId lastContentTimestamp).
Proof. sat_go anything_leaf. Qed.

(** The [catch] of the Instagram check always resolves to a failed check
    without content. *)
Lemma instagram_catch_returns e w :
  wp (InstagramService.checkForNewPosts_catch e)
    (fun c _ =>
       exists r, c = Normal r /\ success r = false /\ newContent r = Some [])
    w.
Proof.
  unfold InstagramService.checkForNewPosts_catch.
  apply wp_bind, wp_try_catch.
  wp_sat updateLastCheck_anything.
  - do 2 apply wp_ret. eexists. repeat split.
  - do 2 apply wp_ret. eexists. repeat split.
Qed.

Lemma checkForNew_spec s w :
  wp (checkForNew s)
    (fun c _ =>
       exists r, c = Normal r /\
         forall x, In x (newContentOf r) ->
                   already_sent (platformOf s) (item_id x) (tables w) = false)
    w.
Proof.
  destruct s; cbn [checkForNew platformOf].
  - unfold YouTubeService.checkForNewVideos. apply wp_try_catch.
    eapply wp_conseq; [apply youtube_try_excludes_sent|]. cbv beta.
    intros [r|e|] w1 [Hc Hr]; [| |contradiction].
    + exists r. split; [reflexivity | exact (Hr r eq_refl)].
    + apply wp_ret. eexists. split; [reflexivity|]. cbn. tauto.
  - unfold InstagramService.checkForNewPosts. apply wp_try_catch.
    eapply wp_conseq; [apply instagram_try_excludes_sent|]. cbv beta.
    intros [r|e|] w1 [Hc Hr]; [| |contradiction].
    + exists r. split; [reflexivity | exact (Hr r eq_refl)].
    + eapply wp_conseq; [apply instagram_catch_returns|]. cbv beta.
      intros c w2 (r & -> & _ & Hnew). exists r. split; [reflexivity|].
      unfold newContentOf. rewrite Hnew. cbn. tauto.
  - unfold LinkedInService.checkForNewPosts. apply wp_try_catch.
    eapply wp_conseq; [apply linkedin_try_excludes_sent|]. cbv beta.
    intros [r|e|] w1 [Hc Hr]; [| |contradiction].
    + exists r. split; [reflexivity | exact (Hr r eq_refl)].
    + apply wp_ret. eexists. split; [reflexivity|]. cbn. tauto.
Qed.

(** C1. For every source and every world, the check resolves to a result,
    and an item for which [sent_notifications] already holds a row with the
    source's platform and the item's id is not in the [newContent] of that
    result. *)
Theorem checkForNew_excludes_sent_items (s : Source) (w : World)
  (x : ContentItem) :
  already_sent (platformOf s) (item_id x) (tables w) = true ->
  exists r w',
    checkForNew s w = (Normal r, w') /\ ~ In x (newContentOf r).
Proof.
  intros Hsent. pose proof (checkForNew_spec s w) as Hspec.
  unfold wp in Hspec. destruct (checkForNew s w) as [c w'].
  cbn in Hspec. destruct Hspec as (r & -> & Hr).
  exists r, w'. split; [reflexivity|]. intros Hx.
  rewrite (Hr x Hx) in Hsent. discriminate.
Qed.

Lemma checkForNew_excludes_sent_items_witness :
  exists r w',
    checkForNew YouTube world_resent = (Normal r, w') /\
    ~ In (video "a" 999999000) (newContentOf r).
Proof.
  apply (checkForNew_excludes_sent_items YouTube world_resent
           (video "a" 999999000)).
  reflexivity.
Defined.

(** * Upserts of the dedup store *)

Lemma find_replaced {A} (key : A -> bool) (rows : list A) (row : A) :
  key row = true ->
  find key (filter (fun r => negb (key r)) rows ++ [row]) = Some row.
Proof.
  intros Hrow. induction rows as [|r rows IH]; cbn.
  - now rewrite Hrow.
  - destruct (key r) eqn:Hr; cbn; [exact IH|]. now rewrite Hr.
Qed.


Lemma find_other {A} (key other : A -> bool) (rows : list A) (row : A) :
  other row = false ->
  find other (filter (fun r => negb (key r)) rows ++ [row]) =
  find other (filter (fun r => negb (key r)) rows).
Proof.
  intros Hrow. induction (filter (fun r => negb (key r)) rows) as [|r l IH];
    cbn.
  - now rewrite Hrow.
  - destruct (other r); [reflexivity | exact IH].
Qed.

Lemma is_sent_key_refl platform contentId i url m ts :
  Database.is_sent_key platform contentId
    (mkSent i platform contentId url m ts) = true.
Proof.
  unfold Database.is_sent_key. cbn. now rewrite !String.eqb_refl.
Qed.


Lemma replace_sent_already_sent platform contentId url m ts t :
  already_sent platform contentId
    (Database.replace_sent platform contentId url m ts t) = true.
Proof.
  unfold already_sent, Database.select_sent, Database.replace_sent. cbn.
  rewrite find_replaced; [reflexivity | apply is_sent_key_refl].
Qed.




(** * The clock only moves forward inside a check *)

#[export] Instance clock_le_preorder : PreOrder clock_le.
Proof. split; unfold clock_le; [intros w | intros a b c Hab Hbc]; lia. Qed.

Ltac clock_le_leaf := unfold clock_le; cbn; timer_facts; lia.

Lemma filterUnseen_clock_le platform items :
  forall acc, sat clock_le (filterUnseen platform items acc).
Proof.
  induction items as [|x rest IH]; intros acc; cbn [filterUnseen];
    sat_go clock_le_leaf.
Qed.

Lemma ig_scrapeProfile_loop_clock_le :
  forall fuel attempt,
    enough_fuel fuel attempt ->
    sat clock_le (InstagramService.scrapeProfile_loop fuel attempt).
Proof. loop_induction clock_le_leaf. Qed.

Lemma ig_scrapeProfile_clock_le : sat clock_le InstagramService.scrapeProfile.
Proof.
  apply ig_scrapeProfile_loop_clock_le, enough_fuel_scrapeProfile.
Qed.

#[export] Hint Resolve filterUnseen_clock_le ig_scrapeProfile_clock_le : sat.

Lemma instagram_try_clock_le : sat clock_le InstagramService.checkForNewPosts_try.
Proof. sat_go clock_le_leaf. Qed.

Lemma linkedin_try_clock_le : sat clock_le LinkedInService.checkForNewPosts_try.
Proof. sat_go clock_le_leaf. Qed.

Lemma youtube_try_clock_le : sat clock_le YouTubeService.checkForNewVideos_try.
Proof. sat_go clock_le_leaf. Qed.

Lemma CURRENT_TIMESTAMP_mono w w' :
  clock_le w w' ->
  Database.CURRENT_TIMESTAMP w <= Database.CURRENT_TIMESTAMP w'.
Proof.
  unfold clock_le, Database.CURRENT_TIMESTAMP. intros Hle.
  apply Z.div_le_mono; lia.
Qed.

(** * Cursor updates *)

Lemma updateLastCheck_run platform lastContentId lastContentTimestamp w :
  Database.updateLastCheck platform lastContentId lastContentTimestamp w =
  match next_fault w with
  | Some msg =>
      (Throws (Error msg),
       after_call
         (EvUpdateLastCheck platform lastContentId lastContentTimestamp) w)
  | None =>
      (Normal 1,
       set_tables
         (Database.replace_last_update platform lastContentId
            lastContentTimestamp (Database.CURRENT_TIMESTAMP w) (tables w))
         (after_call
            (EvUpdateLastCheck platform lastContentId lastContentTimestamp)
            w))
  end.
Proof. unfold Database.updateLastCheck. now rewrite sqlite_run. Qed.

Lemma is_platform_refl platform i ts lastId lastTs c u :
  Database.is_platform platform
    (mkLastUpdate i platform ts lastId lastTs c u) = true.
Proof. unfold Database.is_platform. cbn. apply String.eqb_refl. Qed.

Lemma select_replaced_last_update platform lastId lastTs ts t :
  Database.select_last_update platform
    (Database.replace_last_update platform lastId lastTs ts t) =
  Some (mkLastUpdate (last_updates_seq t + 1) platform ts lastId lastTs ts ts).
Proof.
  unfold Database.select_last_update, Database.replace_last_update. cbn.
  apply find_replaced, is_platform_refl.
Qed.

Lemma updateLastCheck_reset platform w0 w :
  clock_le w0 w ->
  wp (Database.updateLastCheck platform None None)
    (fun c w' =>
       c <> OutOfFuel /\
       (next_fault w = None -> exists n, c = Normal n) /\
       trace w' = trace w ++ [EvUpdateLastCheck platform None None] /\
       forall n, c = Normal n -> cursor_reset platform w0 w')
    w.
Proof.
  intros Hle. apply wp_intro. intros c w'. rewrite updateLastCheck_run.
  destruct (next_fault w); intros E; inversion E; subst; clear E.
  - repeat split; try discriminate.
  - repeat split; try discriminate; [eauto|]. intros n _.
    eexists. cbn [tables set_tables].
    rewrite select_replaced_last_update. split; [reflexivity|]. cbn.
    repeat split. now apply CURRENT_TIMESTAMP_mono.
Qed.

Lemma filterUnseen_anything platform items :
  forall acc, sat anything (filterUnseen platform items acc).
Proof.
  induction items as [|x rest IH]; intros acc; cbn [filterUnseen];
    sat_go anything_leaf.
Qed.

#[export] Hint Resolve filterUnseen_anything : sat.

(** Run the first computation of a [bind] inside the relation [R]. *)
Ltac wp_sat_by R leaf :=
  apply wp_bind; eapply wp_conseq;
  [ refine ((_ : sat R _) _); sat_go leaf
  | cbv beta; intros [?|?|] ? [? ?]; [ | | contradiction] ].

(** * Checks that fetch nothing *)

Ltac empty_fetch_trivial :=
  split; [discriminate|];
  let r := fresh "r" in let E := fresh "E" in
  let Hs := fresh "Hs" in let Ht := fresh "Ht" in
  intros r E Hs Ht; try discriminate E; inversion E; subst r;
  cbn in Hs, Ht; try discriminate Hs; try discriminate Ht;
  exfalso; inversion Ht; lia.

(** The part of a check that follows a successful fetch, for the two
    pollers that update the cursor when nothing was fetched. *)
Lemma empty_fetch_tail platform w w1 lastCheckTime (items : list ContentItem)
  (update : ContentItem -> M unit) :
  clock_le w w1 ->
  (forall x, sat anything (update x)) ->
  wp (unseenItems <-
        filterUnseen platform
          (filter (fun post => date_gt (item_timestamp post) lastCheckTime)
             items) [] ;;
      match items with
      | latest :: _ => update latest
      | [] => Database.updateLastCheck platform None None ;; ret tt
      end ;;
      ret (mkCheck true None (Some unseenItems)
             (Some (Z.of_nat (List.length items)))))
    (empty_fetch_post platform w) w1.
Proof.
  intros Hle Hupdate. destruct items as [|x rest].
  - cbn [filter filterUnseen]. apply wp_bind, wp_ret.
    do 2 apply wp_bind. eapply wp_conseq;
      [apply (updateLastCheck_reset platform w w1 Hle)|].
    cbv beta. intros [n|e|] w2 (Hc & _ & _ & Hreset); [| |contradiction].
    + do 2 apply wp_ret. split; [discriminate|].
      intros r E _ _. inversion E. split; [reflexivity|].
      exact (Hreset n eq_refl).
    + empty_fetch_trivial.
  - wp_sat_by anything anything_leaf; [|empty_fetch_trivial].
    wp_sat (Hupdate x); [|empty_fetch_trivial].
    apply wp_ret. empty_fetch_trivial.
Qed.

Lemma instagram_try_empty_fetch w :
  wp InstagramService.checkForNewPosts_try (empty_fetch_post "instagram" w) w.
Proof.
  unfold InstagramService.checkForNewPosts_try.
  apply wp_bind. unfold InstagramService.isConfigured. apply wp_gets.
  destruct (negb _); [apply wp_ret; empty_fetch_trivial|].
  wp_sat_by clock_le clock_le_leaf; [|empty_fetch_trivial].
  wp_sat_by clock_le clock_le_leaf; [|empty_fetch_trivial].
  wp_sat_by clock_le clock_le_leaf; [|empty_fetch_trivial].
  destruct (negb _); [apply wp_ret; empty_fetch_trivial|].
  cbv zeta.
  apply (empty_fetch_tail "instagram" w _ _ _
           (fun latestPost =>
              timestamp <- lift (toISOString (item_timestamp latestPost)) ;;
              Database.updateLastCheck "instagram"
                (Some (item_id latestPost)) (Some timestamp) ;;
              ret tt)).
  - unfold clock_le in *. lia.
  - sat_go anything_leaf.
Qed.

Lemma linkedin_try_empty_fetch w :
  wp LinkedInService.checkForNewPosts_try (empty_fetch_post "linkedin" w) w.
Proof.
  unfold LinkedInService.checkForNewPosts_try.
  apply wp_bind. unfold LinkedInService.isConfigured. apply wp_gets.
  destruct (negb _); [apply wp_ret; empty_fetch_trivial|].
  wp_sat_by clock_le clock_le_leaf; [|empty_fetch_trivial].
  wp_sat_by clock_le clock_le_leaf; [|empty_fetch_trivial].
  wp_sat_by clock_le clock_le_leaf; [|empty_fetch_trivial].
  destruct (negb _); [apply wp_ret; empty_fetch_trivial|].
  cbv zeta.
  apply (empty_fetch_tail "linkedin" w _ _ _
           (fun latestPost =>
              timestamp <- lift (toISOString (item_timestamp latestPost)) ;;
              Database.updateLastCheck "linkedin"
                (Some (item_id latestPost)) (Some timestamp) ;;
              ret tt)).
  - unfold clock_le in *. lia.
  - sat_go anything_leaf.
Qed.

(** C4, as the code has it. When the Instagram or the LinkedIn poller
    succeeds having fetched zero items, it reports no new content and its
    cursor row is rewritten: [last_check_time] is the current time (not
    before the time the check started), [last_content_id] and
    [last_content_timestamp] are null, whatever they were before. *)
Theorem empty_fetch_resets_cursor (s : Source) (w w' : World)
  (r : CheckResult) :
  s <> YouTube ->
  checkForNew s w = (Normal r, w') ->
  success r = true ->
  totalChecked r = Some 0 ->
  newContent r = Some [] /\ cursor_reset (platformOf s) w w'.
Proof.
  intros Hs E Hok Hzero. destruct s; [contradiction| |];
    cbn [checkForNew platformOf] in *.
  - unfold InstagramService.checkForNewPosts, try_catch in E.
    pose proof (instagram_try_empty_fetch w) as Hbody. unfold wp in Hbody.
    destruct (InstagramService.checkForNewPosts_try w) as [[r0|e|] w1];
      cbn in Hbody.
    + inversion E; subst. now apply Hbody.
    + pose proof (wp_run _ _ _ _ _ (instagram_catch_returns e w1) E)
        as (r1 & E1 & Hfail & _).
      inversion E1; subst. congruence.
    + discriminate E.
  - unfold LinkedInService.checkForNewPosts, try_catch in E.
    pose proof (linkedin_try_empty_fetch w) as Hbody. unfold wp in Hbody.
    destruct (LinkedInService.checkForNewPosts_try w) as [[r0|e|] w1];
      cbn in Hbody.
    + inversion E; subst. now apply Hbody.
    + inversion E; subst. discriminate Hok.
    + discriminate E.
Qed.

Lemma empty_fetch_resets_cursor_witness :
  newContent (mkCheck true None (Some []) (Some 0)) = Some [] /\
  cursor_reset "instagram" world_quiet
    (snd (checkForNew Instagram world_quiet)).
Proof.
  apply (empty_fetch_resets_cursor Instagram world_quiet
           (snd (checkForNew Instagram world_quiet))
           (mkCheck true None (Some []) (Some 0)));
    [discriminate | vm_compute; reflexivity | reflexivity | reflexivity].
Defined.

(** C4 as stated fails: the fetch succeeds with zero items, and the content
    fields of the cursor, which held the post "p1", do not remain
    unchanged. *)
Lemma empty_fetch_keeps_cursor_counterexample :
  exists r w',
    checkForNew Instagram world_quiet = (Normal r, w') /\
    success r = true /\ totalChecked r = Some 0 /\
    last_content "instagram" world_quiet
    = Some (Some "p1", Some 998000000) /\
    last_content "instagram" w' = Some (None, None) /\
    last_content "instagram" w' <> last_content "instagram" world_quiet.
Proof.
  eexists. eexists. split; [vm_compute; reflexivity|].
  repeat split; try reflexivity. discriminate.
Qed.

(** The YouTube poller has no [else] to its [if (latestVideo)]: on a
    successful fetch of zero videos it leaves the cursor row alone, check
    time included. *)
Example youtube_empty_fetch_skips_update :
  exists r w',
    checkForNew YouTube world_no_videos = (Normal r, w') /\
    success r = true /\ totalChecked r = Some 0 /\
    tables w' = tables world_no_videos /\
    checked_at "youtube" w' = Some 999000.
Proof.
  do 2 eexists. split; [vm_compute; reflexivity|]. repeat split.
Qed.

(** * The cursor boundary *)

Ltac run_monad :=
  unfold bind, try_catch, gets, modify, emit, sleep, ret, throw, lift,
    Date_now; cbn.

Lemma bind_run {A B} (m : M A) (f : A -> M B) w a w1 :
  m w = (Normal a, w1) -> bind m f w = f a w1.
Proof. unfold bind. now intros ->. Qed.

Lemma try_run {A} (m : M A) h w a w1 :
  m w = (Normal a, w1) -> try_catch m h w = (Normal a, w1).
Proof. unfold try_catch. now intros ->. Qed.

Lemma next_fault_none w : db_faults w = [] -> next_fault w = None.
Proof. unfold next_fault. now intros ->. Qed.

Lemma getLastUpdate_ok platform w :
  db_faults w = [] ->
  exists w',
    Database.getLastUpdate platform w
    = (Normal (Database.select_last_update platform (tables w)), w') /\
    tables w' = tables w /\ db_faults w' = [] /\ now w' = now w /\
    yt_replies w' = yt_replies w /\ ig_replies w' = ig_replies w /\
    li_replies w' = li_replies w /\ youtube w' = youtube w /\
    instagram w' = instagram w /\ linkedin w' = linkedin w /\
    yt_search_replies w' = yt_search_replies w.
Proof.
  intros Hf. unfold Database.getLastUpdate. rewrite sqlite_run.
  rewrite (next_fault_none w Hf). eexists. split; [reflexivity|].
  cbn. rewrite Hf. repeat split.
Qed.

Lemma lastCheckTimeOf_ok platform w w1 :
  tables w1 = tables w -> now w1 = now w ->
  lastCheckTimeOf (Database.select_last_update platform (tables w)) w1
  = (Normal (cursorOf platform w), w1).
Proof.
  intros Ht Hn. unfold lastCheckTimeOf, cursorOf.
  destruct (Database.select_last_update platform (tables w)) as [row|];
    [destruct (last_content_timestamp row)|];
    unfold bind, ret, Date_now, gets; now rewrite ?Hn.
Qed.

Lemma filterUnseen_ok platform items :
  forall acc w,
    db_faults w = [] ->
    exists w',
      filterUnseen platform items acc w
      = (Normal (acc ++ filter (unseen platform (tables w)) items), w') /\
      tables w' = tables w /\ db_faults w' = [] /\ now w' = now w.
Proof.
  induction items as [|x rest IH]; intros acc w Hf; cbn [filterUnseen filter].
  - exists w. rewrite app_nil_r. repeat split. exact Hf.
  - unfold Database.isNotificationSent.
    erewrite bind_run
      by (rewrite sqlite_run, (next_fault_none w Hf); reflexivity).
    cbn [fst snd].
    destruct (IH (if match Database.select_sent platform (item_id x) (tables w)
                     with Some _ => true | None => false end
                  then acc else acc ++ [x])
                (set_tables (tables w)
                   (after_call
                      (EvIsNotificationSent platform (item_id x)) w)))
      as (w' & E & Ht & Hf' & Hn).
    { cbn. now rewrite Hf. }
    exists w'. rewrite E. cbn [tables set_tables] in *. split.
    + unfold unseen at 2. unfold already_sent.
      destruct (Database.select_sent platform (item_id x) (tables w));
        cbn [negb]; [reflexivity|]. now rewrite <- app_assoc.
    + repeat split; assumption.
Qed.

Lemma fetchLatest_ok s items w :
  configured s w = true ->
  fetch_reply s items w ->
  exists w',
    fetchLatest s w = (Normal (mkFetch true None (kept s items)), w') /\
    tables w' = tables w /\ db_faults w' = db_faults w /\ now w <= now w'.
Proof.
  intros Hconf Hreply.
  destruct w as [t0 tbl faults ytr igr lir chr tr yt ig li dc les yts].
  destruct s; cbn in Hconf, Hreply;
    [ destruct Hreply as [Hchannel [rest Hreply]]
    | destruct Hreply as [rest Hreply]
    | destruct Hreply as [rest Hreply] ];
    subst; cbn [fetchLatest kept].
  - unfold YouTubeService.getLatestVideos, YouTubeService.playlistItems,
      YouTubeService.isConfigured, YouTubeService.getChannelId,
      YouTubeService.uploadsPlaylist.
    run_monad. rewrite Hconf. cbn.
    destruct Hchannel as [Hid | (id & more & others & Hsearch)];
      cbn in Hid || cbn in Hsearch.
    + rewrite Hid. cbn. destruct (channelId yt) as [id|];
        [|discriminate Hid].
      cbn. eexists. split; [reflexivity|]. cbn. repeat split. lia.
    + subst yts. destruct (truthy (channelId yt)) eqn:Hid; cbn.
      * destruct (channelId yt) as [id'|]; [|discriminate Hid].
        cbn. eexists. split; [reflexivity|]. cbn. repeat split. lia.
      * rewrite andb_comm in Hconf.
        cbn in Hconf. apply andb_prop in Hconf. destruct Hconf as [Hh _].
        rewrite Hh. cbn.
        eexists. split; [reflexivity|]. cbn. repeat split. lia.
  - change InstagramService.scrapeProfile
      with (InstagramService.scrapeProfile_loop 4 0).
    cbn [InstagramService.scrapeProfile_loop].
    change (0 <? InstagramService.maxRetries) with true. cbv iota.
    assert (Htry : exists w',
      InstagramService.scrapeProfile_try
        (mkWorld t0 tbl faults ytr
           (IgLoaded (Some (IgTimeline items)) :: rest) lir chr tr yt ig li
           dc les yts)
      = (Normal (mkFetch true None (firstn 10 items)), w') /\
      tables w' = tbl /\ db_faults w' = faults /\ t0 <= now w').
    { unfold InstagramService.scrapeProfile_try,
        InstagramService.isConfigured, InstagramService.respectRateLimit,
        InstagramService.loadProfile.
      set (delay := InstagramService.currentDelay). clearbody delay.
      run_monad. rewrite Hconf. cbn.
      destruct (t0 - ig_lastRequestTime ig <? delay _); cbn;
        (eexists; split; [reflexivity|]; cbn; repeat split; timer_facts; lia). }
    destruct Htry as (w' & E & Ht & Hf & Hn). exists w'.
    rewrite (try_run _ _ _ _ _ E). cbn. auto.
  - unfold LinkedInService.scrapeProfile, LinkedInService.isConfigured,
      LinkedInService.respectRateLimit, LinkedInService.loadProfile.
    set (delay := LinkedInService.rateLimitDelay). clearbody delay.
    run_monad. rewrite Hconf. cbn.
    destruct (t0 - li_lastRequestTime li <? delay); cbn;
      (eexists; split; [reflexivity|]; cbn; repeat split; timer_facts; lia).
Qed.

Lemma check_tail_ok platform lastCheckTime latest more ts total w0 w :
  db_faults w = [] ->
  tables w = tables w0 ->
  item_timestamp latest = ValidDate ts ->
  exists w',
    (unseenItems <-
       filterUnseen platform
         (filter (fun x => date_gt (item_timestamp x) lastCheckTime)
            (latest :: more)) [] ;;
     (timestamp <- lift (toISOString (item_timestamp latest)) ;;
      Database.updateLastCheck platform (Some (item_id latest))
        (Some timestamp) ;;
      ret tt) ;;
     ret (mkCheck true None (Some unseenItems) total)) w
    = (Normal
         (mkCheck true None
            (Some (filter (unseen platform (tables w0))
                     (filter
                        (fun x => date_gt (item_timestamp x) lastCheckTime)
                        (latest :: more))))
            total), w') /\
    last_content platform w' = Some (Some (item_id latest), Some ts).
Proof.
  intros Hf Ht Hts.
  destruct (filterUnseen_ok platform
              (filter (fun x => date_gt (item_timestamp x) lastCheckTime)
                 (latest :: more)) [] w Hf)
    as (w1 & E1 & Ht1 & Hf1 & _).
  rewrite (bind_run _ _ _ _ _ E1). rewrite Hts. cbn [toISOString lift].
  rewrite app_nil_l, Ht.
  eexists. split.
  - erewrite bind_run; [reflexivity|].
    erewrite bind_run by reflexivity.
    erewrite bind_run
      by (rewrite updateLastCheck_run, (next_fault_none w1 Hf1);
          reflexivity).
    reflexivity.
  - unfold last_content. cbn [tables set_tables].
    now rewrite select_replaced_last_update.
Qed.

Lemma configured_frame s w w1 :
  youtube w1 = youtube w -> instagram w1 = instagram w ->
  linkedin w1 = linkedin w ->
  configured s w1 = configured s w.
Proof. intros Hy Hi Hl. destruct s; cbn; congruence. Qed.

Lemma fetch_reply_frame s items w w1 :
  yt_replies w1 = yt_replies w -> ig_replies w1 = ig_replies w ->
  li_replies w1 = li_replies w -> youtube w1 = youtube w ->
  yt_search_replies w1 = yt_search_replies w ->
  fetch_reply s items w -> fetch_reply s items w1.
Proof.
  intros Hy Hi Hl Hc Hs. destruct s; cbn.
  - unfold channel_found. rewrite Hc, Hs, Hy. auto.
  - intros [rest Hr]; exists rest; congruence.
  - intros [rest Hr]; exists rest; congruence.
Qed.

(** A check whose statements and fetch all succeed, with at least one item
    fetched: the result and the cursor it leaves. *)
Lemma checkForNew_ok s w items latest more ts :
  configured s w = true ->
  db_faults w = [] ->
  fetch_reply s items w ->
  kept s items = latest :: more ->
  item_timestamp latest = ValidDate ts ->
  exists r w',
    checkForNew s w = (Normal r, w') /\
    success r = true /\
    newContent r
    = Some (filter (unseen (platformOf s) (tables w))
              (filter
                 (fun x => date_gt (item_timestamp x)
                             (cursorOf (platformOf s) w))
                 (latest :: more))) /\
    last_content (platformOf s) w' = Some (Some (item_id latest), Some ts).
Proof.
  intros Hconf Hf Hreply Hkept Hts.
  destruct (getLastUpdate_ok (platformOf s) w Hf)
    as (w1 & E1 & Ht1 & Hf1 & Hn1 & Hy & Hi & Hl & Hcy & Hci & Hcl & Hys).
  pose proof (lastCheckTimeOf_ok (platformOf s) w w1 Ht1 Hn1) as E2.
  destruct (fetchLatest_ok s items w1) as (w2 & E3 & Ht2 & Hf2 & _).
  { rewrite (configured_frame s w w1); assumption. }
  { apply (fetch_reply_frame s items w w1); assumption. }
  rewrite Hkept in E3.
  assert (Hf2' : db_faults w2 = []) by congruence.
  assert (Ht2' : tables w2 = tables w) by congruence.
  destruct s; cbn [checkForNew platformOf fetchLatest] in *.
  - destruct (check_tail_ok "youtube" (cursorOf "youtube" w) latest more ts
                (Some (Z.of_nat (List.length (latest :: more)))) w w2
                Hf2' Ht2' Hts) as (w3 & E4 & Hcur).
    exists (mkCheck true None
              (Some (filter (unseen "youtube" (tables w))
                       (filter
                          (fun x => date_gt (item_timestamp x)
                                      (cursorOf "youtube" w))
                          (latest :: more))))
              (Some (Z.of_nat (List.length (latest :: more))))), w3.
    split; [|auto].
    unfold YouTubeService.checkForNewVideos. apply try_run.
    unfold YouTubeService.checkForNewVideos_try.
    rewrite (bind_run YouTubeService.isConfigured _ w (configured YouTube w) w eq_refl),
      Hconf.
    cbn [negb].
    rewrite (bind_run _ _ _ _ _ E1), (bind_run _ _ _ _ _ E2),
      (bind_run _ _ _ _ _ E3).
    cbn [fetched posts negb]. exact E4.
  - destruct (check_tail_ok "instagram" (cursorOf "instagram" w) latest more
                ts (Some (Z.of_nat (List.length (latest :: more)))) w w2
                Hf2' Ht2' Hts) as (w3 & E4 & Hcur).
    exists (mkCheck true None
              (Some (filter (unseen "instagram" (tables w))
                       (filter
                          (fun x => date_gt (item_timestamp x)
                                      (cursorOf "instagram" w))
                          (latest :: more))))
              (Some (Z.of_nat (List.length (latest :: more))))), w3.
    split; [|auto].
    unfold InstagramService.checkForNewPosts. apply try_run.
    unfold InstagramService.checkForNewPosts_try.
    rewrite (bind_run InstagramService.isConfigured _ w (configured Instagram w) w eq_refl),
      Hconf.
    cbn [negb].
    rewrite (bind_run _ _ _ _ _ E1), (bind_run _ _ _ _ _ E2),
      (bind_run _ _ _ _ _ E3).
    cbn [fetched posts negb]. exact E4.
  - destruct (check_tail_ok "linkedin" (cursorOf "linkedin" w) latest more
                ts (Some (Z.of_nat (List.length (latest :: more)))) w w2
                Hf2' Ht2' Hts) as (w3 & E4 & Hcur).
    exists (mkCheck true None
              (Some (filter (unseen "linkedin" (tables w))
                       (filter
                          (fun x => date_gt (item_timestamp x)
                                      (cursorOf "linkedin" w))
                          (latest :: more))))
              (Some (Z.of_nat (List.length (latest :: more))))), w3.
    split; [|auto].
    unfold LinkedInService.checkForNewPosts. apply try_run.
    unfold LinkedInService.checkForNewPosts_try.
    rewrite (bind_run LinkedInService.isConfigured _ w (configured LinkedIn w) w eq_refl),
      Hconf.
    cbn [negb].
    rewrite (bind_run _ _ _ _ _ E1), (bind_run _ _ _ _ _ E2),
      (bind_run _ _ _ _ _ E3).
    cbn [fetched posts negb]. exact E4.
Qed.

(** C3, as the code has it. With the cursor of a source at [T] and a fetch
    returning items timestamped [T+2; T+1; T-1], the check (source
    configured, no statement of the store failing) reports exactly the
    first two, provided neither of them has a row in [sent_notifications]
    already, and moves the cursor to the id and timestamp [T+2] of the
    first. *)
Theorem cursor_semantics (s : Source) (w : World) (T : Z)
  (a b c : ContentItem) (row : LastUpdate) :
  configured s w = true ->
  db_faults w = [] ->
  Database.select_last_update (platformOf s) (tables w) = Some row ->
  last_content_timestamp row = Some T ->
  fetch_reply s [a; b; c] w ->
  item_timestamp a = ValidDate (T + 2) ->
  item_timestamp b = ValidDate (T + 1) ->
  item_timestamp c = ValidDate (T - 1) ->
  already_sent (platformOf s) (item_id a) (tables w) = false ->
  already_sent (platformOf s) (item_id b) (tables w) = false ->
  exists r w',
    checkForNew s w = (Normal r, w') /\
    success r = true /\
    newContent r = Some [a; b] /\
    last_content (platformOf s) w' = Some (Some (item_id a), Some (T + 2)).
Proof.
  intros Hconf Hfaults Hrow HT Hreply Ha Hb Hc Hsa Hsb.
  destruct (checkForNew_ok s w [a; b; c] a [b; c] (T + 2))
    as (r & w' & E & Hok & Hnew & Hcur); try assumption.
  { destruct s; reflexivity. }
  exists r, w'. repeat split; try assumption.
  rewrite Hnew. f_equal.
  assert (Hcursor : cursorOf (platformOf s) w = ValidDate T).
  { unfold cursorOf. now rewrite Hrow, HT. }
  rewrite Hcursor. cbn [filter]. rewrite Ha, Hb, Hc. cbn [date_gt].
  replace (T <? T + 2) with true by lia.
  replace (T <? T + 1) with true by lia.
  replace (T <? T - 1) with false by lia.
  cbn [filter]. unfold unseen. now rewrite Hsa, Hsb.
Qed.

Lemma cursor_semantics_witness :
  exists r w',
    checkForNew YouTube world_cursor = (Normal r, w') /\
    success r = true /\
    newContent r = Some [video "a" 1002; video "b" 1001] /\
    last_content "youtube" w' = Some (Some "a", Some (1000 + 2)).
Proof.
  apply (cursor_semantics YouTube world_cursor 1000 (video "a" 1002)
           (video "b" 1001) (video "c" 999) cursor_row);
    try reflexivity.
  split; [left; reflexivity | exists []; reflexivity].
Defined.

(** C3 as stated fails: the cursor is at [T = 1000], the fetch returns the
    items timestamped [T+2; T+1; T-1], and the new content is not the
    first two items. *)
Lemma cursor_semantics_counterexample :
  cursorOf "youtube" world_cursor_sent = ValidDate 1000 /\
  fetch_reply YouTube three_videos world_cursor_sent /\
  map item_timestamp three_videos
  = [ValidDate (1000 + 2); ValidDate (1000 + 1); ValidDate (1000 - 1)] /\
  exists r w',
    checkForNew YouTube world_cursor_sent = (Normal r, w') /\
    newContent r = Some [video "b" 1001] /\
    newContentOf r <> [video "a" 1002; video "b" 1001].
Proof.
  split; [reflexivity|].
  split; [split; [left; reflexivity | exists []; reflexivity]|].
  split; [reflexivity|].
  eexists. eexists. split; [vm_compute; reflexivity|].
  split; [reflexivity | discriminate].
Qed.

(** * The error path of the Instagram check *)

Lemma cursor_reset_default platform w w' v :
  cursor_reset platform w w' ->
  tables v = tables w' ->
  lastCheckTimeOf (Database.select_last_update platform (tables v)) v
  = (Normal (ValidDate (now v - oneDay)), v).
Proof.
  intros (row & Hrow & _ & _ & _ & Hts) Hv.
  rewrite Hv, Hrow. unfold lastCheckTimeOf. now rewrite Hts.
Qed.

#[export] Instance no_update_preorder : PreOrder no_update.
Proof.
  split.
  - intros w. exists []. now rewrite app_nil_r.
  - intros a b c (d1 & E1 & F1) (d2 & E2 & F2). exists (d1 ++ d2).
    rewrite E2, E1, app_assoc. split; [reflexivity|].
    apply Forall_app. auto.
Qed.

Ltac no_update_leaf :=
  first [ exists []; split; [cbn; now rewrite app_nil_r | constructor]
        | eexists; split; [reflexivity | repeat constructor] ].

Lemma getLastUpdate_no_update platform :
  sat no_update (Database.getLastUpdate platform).
Proof. sat_go no_update_leaf. Qed.

Lemma ig_scrapeProfile_loop_no_update :
  forall fuel attempt,
    enough_fuel fuel attempt ->
    sat no_update (InstagramService.scrapeProfile_loop fuel attempt).
Proof. loop_induction no_update_leaf. Qed.

Lemma ig_scrapeProfile_no_update : sat no_update InstagramService.scrapeProfile.
Proof.
  apply ig_scrapeProfile_loop_no_update, enough_fuel_scrapeProfile.
Qed.

Lemma lastCheckTimeOf_run lastUpdate w :
  exists t, lastCheckTimeOf lastUpdate w = (Normal t, w).
Proof.
  unfold lastCheckTimeOf.
  destruct lastUpdate as [row|]; [destruct (last_content_timestamp row)|];
    eexists; reflexivity.
Qed.

(** C10, as the code has it. When an error is raised inside
    [checkForNewPosts] of the Instagram poller (a statement of the store is
    rejected, or a date is invalid), the check still resolves (to a failed
    check without content), having called [updateLastCheck('instagram',
    null, null)]; unless that call fails in its turn, the cursor row now
    holds the current time as [last_check_time] and null content fields,
    so that a later check compares timestamps with the default cursor, 24
    hours before its own time.  The failures that are returned and not
    raised leave the check state as it was: without a configuration the
    check returns at once, and when [scrapeProfile] fails (rate limited,
    the attempts used up, a page that cannot be parsed) the check returns
    that failure with the tables unchanged and without any update of a
    cursor. *)
Theorem instagram_error_resets_cursor (w : World) :
  (forall e w1,
     InstagramService.checkForNewPosts_try w = (Throws e, w1) ->
     exists r w',
       InstagramService.checkForNewPosts w = (Normal r, w') /\
       success r = false /\
       newContent r = Some [] /\
       trace w' = trace w1 ++ [EvUpdateLastCheck "instagram" None None] /\
       (next_fault w1 = None ->
        cursor_reset "instagram" w w' /\
        forall v,
          tables v = tables w' ->
          lastCheckTimeOf
            (Database.select_last_update "instagram" (tables v)) v
          = (Normal (ValidDate (now v - oneDay)), v))) /\
  (configured Instagram w = false ->
   InstagramService.checkForNewPosts w
   = (Normal
        (mkCheck false (Some "Instagram service not configured") (Some [])
           None),
      w)) /\
  (forall lastUpdate w1 result w2,
     configured Instagram w = true ->
     Database.getLastUpdate "instagram" w = (Normal lastUpdate, w1) ->
     InstagramService.scrapeProfile w1 = (Normal result, w2) ->
     fetched result = false ->
     InstagramService.checkForNewPosts w
     = (Normal (mkCheck false (fetch_error result) (Some []) None), w2) /\
     tables w2 = tables w /\
     no_update w w2).
Proof.
  split; [|split].
  - intros e w1 E.
    pose proof (sat_run _ _ _ _ _ instagram_try_clock_le E) as [_ Hle].
    pose proof (updateLastCheck_reset "instagram" w w1 Hle) as Hupd.
    unfold wp in Hupd.
    unfold InstagramService.checkForNewPosts, try_catch. rewrite E.
    unfold InstagramService.checkForNewPosts_catch, bind, try_catch, ret.
    destruct (Database.updateLastCheck "instagram" None None w1)
      as [[n|e'|] w2]; cbn [fst snd] in Hupd;
      destruct Hupd as (Hc & Hok & Htrace & Hreset); [| |contradiction].
    + do 2 eexists. split; [reflexivity|]. repeat split; try assumption.
      * exact (Hreset n eq_refl).
      * intros v Hv.
        exact (cursor_reset_default _ _ _ _ (Hreset n eq_refl) Hv).
    + do 2 eexists. split; [reflexivity|]. repeat split; try assumption;
        destruct (Hok H) as [n Hn]; discriminate Hn.
  - intros Hconf. cbn [configured] in Hconf.
    unfold InstagramService.checkForNewPosts. apply try_run.
    unfold InstagramService.checkForNewPosts_try.
    rewrite (bind_run InstagramService.isConfigured _ w
               (configured Instagram w) w eq_refl).
    cbn [configured]. now rewrite Hconf.
  - intros lastUpdate w1 result w2 Hconf E1 E2 Hfailed.
    pose proof (sat_run _ _ _ _ _ (getLastUpdate_same_tables "instagram") E1)
      as [_ Ht1].
    pose proof (sat_run _ _ _ _ _ ig_scrapeProfile_same_tables E2)
      as [_ Ht2].
    pose proof (sat_run _ _ _ _ _ (getLastUpdate_no_update "instagram") E1)
      as [_ Hu1].
    pose proof (sat_run _ _ _ _ _ ig_scrapeProfile_no_update E2) as [_ Hu2].
    split; [|split].
    + unfold InstagramService.checkForNewPosts. apply try_run.
      unfold InstagramService.checkForNewPosts_try.
      rewrite (bind_run InstagramService.isConfigured _ w
                 (configured Instagram w) w eq_refl), Hconf.
      cbn [negb]. rewrite (bind_run _ _ _ _ _ E1).
      destruct (lastCheckTimeOf_run lastUpdate w1) as [t Et].
      rewrite (bind_run _ _ _ _ _ Et), (bind_run _ _ _ _ _ E2), Hfailed.
      reflexivity.
    + unfold same_tables in *. congruence.
    + etransitivity; eassumption.
Qed.

Lemma instagram_error_resets_cursor_witness :
  (exists r w',
     InstagramService.checkForNewPosts world_bad_date = (Normal r, w') /\
     success r = false /\
     newContent r = Some [] /\
     trace w'
     = trace (snd (InstagramService.checkForNewPosts_try world_bad_date))
       ++ [EvUpdateLastCheck "instagram" None None] /\
     (next_fault (snd (InstagramService.checkForNewPosts_try world_bad_date))
      = None ->
      cursor_reset "instagram" world_bad_date w' /\
      forall v,
        tables v = tables w' ->
        lastCheckTimeOf
          (Database.select_last_update "instagram" (tables v)) v
        = (Normal (ValidDate (now v - oneDay)), v))) /\
  InstagramService.checkForNewPosts world_cycle
  = (Normal
       (mkCheck false (Some "Instagram service not configured") (Some [])
          None),
     world_cycle) /\
  (InstagramService.checkForNewPosts world_rate_limited
   = (Normal (mkCheck false (fetch_error blocked) (Some []) None),
      snd (InstagramService.scrapeProfile
             (snd (Database.getLastUpdate "instagram" world_rate_limited)))) /\
   tables
     (snd (InstagramService.scrapeProfile
             (snd (Database.getLastUpdate "instagram" world_rate_limited))))
   = tables world_rate_limited /\
   no_update world_rate_limited
     (snd (InstagramService.scrapeProfile
             (snd (Database.getLastUpdate "instagram" world_rate_limited))))).
Proof.
  split; [|split].
  - destruct (instagram_error_resets_cursor world_bad_date) as (Hraised & _).
    apply (Hraised (Error "Invalid time value")
             (snd (InstagramService.checkForNewPosts_try world_bad_date))).
    vm_compute. reflexivity.
  - destruct (instagram_error_resets_cursor world_cycle) as (_ & Hnone & _).
    apply Hnone. reflexivity.
  - destruct (instagram_error_resets_cursor world_rate_limited)
      as (_ & _ & Hfailed).
    apply (Hfailed
             (Database.select_last_update "instagram"
                (tables world_rate_limited))
             (snd (Database.getLastUpdate "instagram" world_rate_limited))
             blocked);
      vm_compute; reflexivity.
Defined.

(** C10 as stated fails: Instagram answers the three requests of the fetch
    with status 429, so the check fails with the error of the fetch; it
    makes no [updateLastCheck] call, and the cursor row still holds the
    post and the timestamp it held before, which the next check compares
    timestamps with. *)
Lemma instagram_failure_keeps_cursor_counterexample :
  exists r w',
    InstagramService.checkForNewPosts world_rate_limited = (Normal r, w') /\
    success r = false /\
    check_error r = fetch_error blocked /\
    trace w'
    = [EvGetLastUpdate "instagram"; EvHttpGet "instagram";
       EvHttpGet "instagram"; EvHttpGet "instagram"] /\
    tables w' = tables world_rate_limited /\
    last_content "instagram" w' = Some (Some "p1", Some 998000000) /\
    checked_at "instagram" w' = Some 999000 /\
    cursorOf "instagram" w' = ValidDate 998000000 /\
    cursorOf "instagram" w' <> ValidDate (now w' - oneDay).
Proof.
  do 2 eexists. split; [vm_compute; reflexivity|].
  repeat split. discriminate.
Qed.

(** * Check times never decrease *)

Lemma not_after_refl a : not_after a a.
Proof. destruct a; cbn; [lia | exact I]. Qed.

Lemma not_after_trans a b c : not_after a b -> not_after b c -> not_after a c.
Proof. destruct a, b, c; cbn; try tauto; lia. Qed.

#[export] Instance check_times_grow_preorder : PreOrder check_times_grow.
Proof.
  split.
  - intros w. split; [lia|]. intros Hw. split; [exact Hw|].
    intros p. apply not_after_refl.
  - intros a b c [Hab Hab'] [Hbc Hbc']. split; [lia|]. intros Ha.
    destruct (Hab' Ha) as [Hb Hpab]. destruct (Hbc' Hb) as [Hc Hpbc].
    split; [exact Hc|]. intros p.
    eapply not_after_trans; [apply Hpab | apply Hpbc].
Qed.

(** Updates that leave [last_updates] alone and do not turn the clock
    back. *)
Lemma grow_same_rows w w' :
  last_updates (tables w') = last_updates (tables w) ->
  now w <= now w' ->
  check_times_grow w w'.
Proof.
  intros Hrows Hnow. split; [exact Hnow|]. intros Hpast. split.
  - unfold times_in_past in *. rewrite Hrows.
    eapply Forall_impl; [|exact Hpast]. cbv beta. intros row Hrow.
    pose proof (CURRENT_TIMESTAMP_mono w w' Hnow). lia.
  - intros p. unfold checked_at, Database.select_last_update.
    rewrite Hrows. apply not_after_refl.
Qed.

Lemma find_filter_other (p q : string) (rows : list LastUpdate) :
  (q =? p)%string = false ->
  find (Database.is_platform q)
    (filter (fun r => negb (Database.is_platform p r)) rows)
  = find (Database.is_platform q) rows.
Proof.
  intros Hqp. unfold Database.is_platform.
  induction rows as [|r rows IH]; cbn; [reflexivity|].
  destruct (lu_platform r =? p)%string eqn:Hp; cbn.
  - apply String.eqb_eq in Hp. rewrite Hp.
    rewrite String.eqb_sym, Hqp. exact IH.
  - destruct (lu_platform r =? q)%string; [reflexivity | exact IH].
Qed.

Lemma grow_update platform lastContentId lastContentTimestamp w :
  check_times_grow w
    (set_tables
       (Database.replace_last_update platform lastContentId
          lastContentTimestamp (Database.CURRENT_TIMESTAMP w) (tables w))
       w).
Proof.
  split; [cbn; lia|]. intros Hpast. split.
  - unfold times_in_past in *. cbn. apply Forall_app. split.
    + apply incl_Forall with (l1 := last_updates (tables w));
        [apply incl_filter | exact Hpast].
    + constructor; [cbn; unfold Database.CURRENT_TIMESTAMP; cbn; lia
                   | constructor].
  - intros q. unfold checked_at. cbn [tables set_tables].
    destruct (q =? platform)%string eqn:Hq.
    + apply String.eqb_eq in Hq. subst q.
      rewrite select_replaced_last_update. cbn.
      destruct (Database.select_last_update platform (tables w)) as [row|]
        eqn:Hrow; cbn; [|exact I].
      apply find_some in Hrow. destruct Hrow as [Hin _].
      unfold times_in_past in Hpast. rewrite Forall_forall in Hpast.
      exact (Hpast row Hin).
    + unfold Database.select_last_update, Database.replace_last_update.
      cbn [last_updates]. rewrite find_other.
      * rewrite (find_filter_other platform q _ Hq). apply not_after_refl.
      * unfold Database.is_platform. cbn. now rewrite String.eqb_sym.
Qed.

Ltac grow_leaf :=
  first [ apply grow_update
        | apply grow_same_rows; [reflexivity | cbn; timer_facts; lia] ].

Lemma perform_grow call : sat check_times_grow (perform call).
Proof. destruct call; cbn [perform]; sat_go grow_leaf. Qed.

Lemma filterUnseen_grow platform items :
  forall acc, sat check_times_grow (filterUnseen platform items acc).
Proof.
  induction items as [|x rest IH]; intros acc; cbn [filterUnseen];
    sat_go grow_leaf.
Qed.

Lemma ig_scrapeProfile_loop_grow :
  forall fuel attempt,
    enough_fuel fuel attempt ->
    sat check_times_grow (InstagramService.scrapeProfile_loop fuel attempt).
Proof. loop_induction grow_leaf. Qed.

Lemma ig_scrapeProfile_grow :
  sat check_times_grow InstagramService.scrapeProfile.
Proof. apply ig_scrapeProfile_loop_grow, enough_fuel_scrapeProfile. Qed.

Lemma sendNotifications_items_grow content platform items :
  sat check_times_grow
    (Scheduler.sendNotifications_items content items platform).
Proof.
  induction items as [|x rest IH]; cbn [Scheduler.sendNotifications_items];
    sat_go grow_leaf.
Qed.

#[export] Hint Resolve filterUnseen_grow ig_scrapeProfile_grow
  sendNotifications_items_grow : sat.

Lemma performScheduledCheck_grow :
  sat check_times_grow Scheduler.performScheduledCheck.
Proof. sat_go grow_leaf. Qed.

Lemma times_in_past_later w t :
  times_in_past w -> now w <= t -> times_in_past (set_now t w).
Proof.
  intros Hpast Ht.
  assert (Hgrow : check_times_grow w (set_now t w))
    by (apply grow_same_rows; [reflexivity | exact Ht]).
  now apply Hgrow.
Qed.

(** C6. In a world where no stored check time lies in the future, every
    operation of the dedup store, and every whole check cycle, leaves each
    source's [last_check_time] where it was or later, and leaves no stored
    check time in the future; the passing of time between operations keeps
    that too.  So the check times seen by successive operations and cycles
    never decrease. *)
Theorem last_check_time_monotone (w : World) (platform : string) :
  times_in_past w ->
  (forall call c w',
     perform call w = (c, w') ->
     not_after (checked_at platform w) (checked_at platform w') /\
     times_in_past w') /\
  (forall c w',
     Scheduler.performScheduledCheck w = (c, w') ->
     not_after (checked_at platform w) (checked_at platform w') /\
     times_in_past w') /\
  (forall t, now w <= t ->
     checked_at platform (set_now t w) = checked_at platform w /\
     times_in_past (set_now t w)).
Proof.
  intros Hpast. repeat split.
  - destruct (sat_run _ _ _ _ _ (perform_grow call) H) as [_ [_ Hgrow]].
    now apply Hgrow.
  - destruct (sat_run _ _ _ _ _ (perform_grow call) H) as [_ [_ Hgrow]].
    now apply Hgrow.
  - destruct (sat_run _ _ _ _ _ performScheduledCheck_grow H)
      as [_ [_ Hgrow]].
    now apply Hgrow.
  - destruct (sat_run _ _ _ _ _ performScheduledCheck_grow H)
      as [_ [_ Hgrow]].
    now apply Hgrow.
  - now apply times_in_past_later.
Qed.

Lemma last_check_time_monotone_witness :
  (forall call c w',
     perform call world_cursor = (c, w') ->
     not_after (checked_at "youtube" world_cursor) (checked_at "youtube" w') /\
     times_in_past w') /\
  (forall c w',
     Scheduler.performScheduledCheck world_cursor = (c, w') ->
     not_after (checked_at "youtube" world_cursor) (checked_at "youtube" w') /\
     times_in_past w') /\
  (forall t, now world_cursor <= t ->
     checked_at "youtube" (set_now t world_cursor)
     = checked_at "youtube" world_cursor /\
     times_in_past (set_now t world_cursor)).
Proof.
  apply (last_check_time_monotone world_cursor "youtube").
  repeat constructor. cbn. lia.
Defined.

(** * The retry loop of the Instagram poller *)










Lemma failed_facts rest w :
  configured Instagram (failed rest w) = configured Instagram w /\
  ig_replies (failed rest w) = rest /\
  failureCount (instagram (failed rest w)) = failureCount (instagram w) + 1 /\
  now (failed rest w) = request_time w /\
  ig_lastRequestTime (instagram (failed rest w)) = request_time w.
Proof. repeat split. Qed.









(** After eighteen failures in a row the delay no longer fits a timer: a
    request made just after the last one goes out a millisecond later. *)
Example respectRateLimit_overflow :
  let w :=
    set_instagram (mkInstagram (Some "someone") 1000000000 18) world0 in
  InstagramService.currentDelay w = 2621440000 /\
  InstagramService.respectRateLimit w = (Normal tt, requested w) /\
  now (requested w) = now w + 1.
Proof. vm_compute. repeat split. Qed.

(** * Dispatch *)

Lemma sendSocialMediaUpdate_fails content platform w :
  next_send_fails w = true ->
  wp (DiscordService.sendSocialMediaUpdate content platform)
    (send_failed content platform w) w.
Proof.
  intros Hfails.
  unfold DiscordService.sendSocialMediaUpdate, DiscordService.requireReady,
    DiscordService.channelSend.
  wp_steps.
  all: try (exfalso; cbn in *; unfold next_send_fails in Hfails;
            match goal with
            | H : _ = ChSent _ :: _ |- _ => rewrite H in Hfails
            end; discriminate).
  all: split; [eexists; reflexivity | split; [reflexivity|]].
  all: first
         [ exists []; rewrite app_nil_r; split; [reflexivity | constructor]
         | eexists; split; [reflexivity | repeat constructor] ].
Qed.

Lemma recordSentNotification_spec platform contentId url m w :
  wp (Database.recordSentNotification platform contentId url m)
    (fun c w' =>
       c <> OutOfFuel /\ discord w' = discord w /\
       trace w' = trace w ++ [EvRecordSentNotification platform contentId])
    w.
Proof.
  apply wp_intro. intros c w'. unfold Database.recordSentNotification.
  rewrite sqlite_run. destruct (next_fault w); intros E; inversion E;
    repeat split; discriminate.
Qed.

Lemma sendSocialMediaUpdate_attempts content platform w :
  connected w = true ->
  known_platform platform = true ->
  valid_date content = true ->
  wp (DiscordService.sendSocialMediaUpdate content platform)
    (send_attempted content w) w.
Proof.
  intros Hconn Hknown Hvalid.
  unfold connected in Hconn. unfold known_platform in Hknown.
  unfold valid_date in Hvalid.
  unfold DiscordService.sendSocialMediaUpdate, DiscordService.requireReady,
    DiscordService.channelSend, YouTubeService.formatForDiscord,
    InstagramService.formatForDiscord, LinkedInService.formatForDiscord,
    formatEmbed, toISOString.
  wp_steps.
  all: try (exfalso;
            repeat match goal with
                   | H : (_ =? _)%string = false |- _ =>
                       rewrite H in Hknown
                   end;
            destruct (isReady (discord w));
            destruct (announcementChannel (discord w));
            destruct (item_timestamp content);
            cbn in *; discriminate).
  all: try (eapply wp_conseq; [apply recordSentNotification_spec|];
            cbv beta; intros [n|e0|] w1 (Hc & Hd & Htr);
            [apply wp_ret; cbv beta iota | apply wp_throw | contradiction];
            (split; [discriminate|]); (split; [exact Hd|]);
            rewrite Htr; cbn [trace set_trace set_channel_replies];
            rewrite <- app_assoc; eexists; split; reflexivity).
  all: split; [discriminate|]; split; [reflexivity|];
    eexists; split; reflexivity.
Qed.

Lemma dispatched_app d1 d2 :
  dispatched (d1 ++ d2) = dispatched d1 ++ dispatched d2.
Proof. unfold dispatched. apply flat_map_app. Qed.

Lemma sendNotifications_items_dispatches content platform items :
  forall w,
    connected w = true ->
    known_platform platform = true ->
    forallb valid_date items = true ->
    wp (Scheduler.sendNotifications_items content items platform)
      (fun c w' =>
         c = Normal tt /\ discord w' = discord w /\
         exists d, trace w' = trace w ++ d /\
                   dispatched d = map item_id items)
      w.
Proof.
  induction items as [|x rest IH]; intros w Hconn Hknown Hvalid;
    cbn [Scheduler.sendNotifications_items].
  - apply wp_ret. repeat split. exists []. now rewrite app_nil_r.
  - cbn [forallb] in Hvalid. apply andb_true_iff in Hvalid.
    destruct Hvalid as [Hx Hrest].
    assert (Hnext : forall w1 d1,
      discord w1 = discord w -> trace w1 = trace w ++ d1 ->
      dispatched d1 = [item_id x] ->
      wp (Scheduler.sendNotifications_items content rest platform)
        (fun c w' =>
           c = Normal tt /\ discord w' = discord w /\
           exists d, trace w' = trace w ++ d /\
                     dispatched d = map item_id (x :: rest)) w1).
    { intros w1 d1 Hd Htr Hdis.
      eapply wp_conseq; [apply IH; try assumption|].
      - unfold connected in *. now rewrite Hd.
      - cbv beta. intros c w2 (Hc & Hd2 & d2 & Htr2 & Hdis2).
        split; [exact Hc|]. split; [congruence|].
        exists (d1 ++ d2). rewrite Htr2, Htr, <- app_assoc.
        split; [reflexivity|]. rewrite dispatched_app, Hdis, Hdis2.
        reflexivity. }
    apply wp_bind, wp_try_catch, wp_bind.
    eapply wp_conseq;
      [apply (sendSocialMediaUpdate_attempts x platform w Hconn Hknown Hx)|].
    cbv beta. intros [m|e|] w1 (Hc & Hd & d1 & Htr & Hdis); [| |contradiction].
    + destruct (1 <? Z.of_nat (List.length content)).
      * apply wp_modify. apply (Hnext _ d1); [exact Hd | exact Htr | exact Hdis].
      * apply wp_ret. apply (Hnext _ d1); [exact Hd | exact Htr | exact Hdis].
    + apply wp_ret. apply (Hnext _ d1); [exact Hd | exact Htr | exact Hdis].
Qed.

(** The batch of the witness, run: "x" is not recorded, "y" is. *)
Example batch_continues_after_failure :
  let w' := snd (Scheduler.sendNotifications two_videos "youtube" world_batch)
  in
  trace w'
  = [EvChannelSend "youtube" "x"; EvChannelSend "youtube" "y";
     EvRecordSentNotification "youtube" "y"] /\
  already_sent "youtube" "x" (tables w') = false /\
  already_sent "youtube" "y" (tables w') = true.
Proof. vm_compute. repeat split. Qed.

(** * The order of operations inside a check cycle *)

#[export] Instance in_stage_preorder k : PreOrder (in_stage k).
Proof.
  split.
  - intros w. exists []. now rewrite app_nil_r.
  - intros a b c (d1 & E1 & F1) (d2 & E2 & F2). exists (d1 ++ d2).
    rewrite E2, E1, app_assoc. split; [reflexivity|].
    apply Forall_app. auto.
Qed.

Ltac stage_leaf :=
  first [ exists []; split; [cbn; now rewrite app_nil_r | constructor]
        | eexists; split; [reflexivity | repeat constructor] ].

Lemma filterUnseen_stage platform items :
  forall acc,
    sat (in_stage (2 * source_index platform))
      (filterUnseen platform items acc).
Proof.
  induction items as [|x rest IH]; intros acc; cbn [filterUnseen];
    sat_go stage_leaf.
Qed.

Lemma ig_scrapeProfile_loop_stage :
  forall fuel attempt,
    enough_fuel fuel attempt ->
    sat (in_stage 2) (InstagramService.scrapeProfile_loop fuel attempt).
Proof. loop_induction stage_leaf. Qed.

Lemma ig_scrapeProfile_stage : sat (in_stage 2) InstagramService.scrapeProfile.
Proof. apply ig_scrapeProfile_loop_stage, enough_fuel_scrapeProfile. Qed.

Lemma sendNotifications_items_stage content platform items :
  sat (in_stage (2 * source_index platform + 1))
    (Scheduler.sendNotifications_items content items platform).
Proof.
  induction items as [|x rest IH]; cbn [Scheduler.sendNotifications_items];
    sat_go stage_leaf.
Qed.

#[export] Hint Resolve ig_scrapeProfile_stage sendNotifications_items_stage
  : sat.

Lemma checkForNew_stage s :
  sat (in_stage (2 * source_index (platformOf s))) (checkForNew s).
Proof.
  destruct s; cbn [checkForNew platformOf];
    pose proof (filterUnseen_stage "youtube");
    pose proof (filterUnseen_stage "instagram");
    pose proof (filterUnseen_stage "linkedin");
    sat_go stage_leaf.
Qed.

Lemma sendNotifications_stage content platform :
  sat (in_stage (2 * source_index platform + 1))
    (Scheduler.sendNotifications content platform).
Proof. sat_go stage_leaf. Qed.

Lemma sendErrorSummary_stage results :
  sat (in_stage 8) (Scheduler.sendErrorSummary results).
Proof. sat_go stage_leaf. Qed.

Lemma staged_refl lo hi w : staged lo hi w w.
Proof.
  exists []. rewrite app_nil_r. repeat split; constructor.
Qed.

Lemma in_stage_staged k w w' : in_stage k w w' -> staged k k w w'.
Proof.
  intros (d & E & F). exists d. split; [exact E|]. clear E. split.
  - induction F as [|e d He F IH]; [constructor|].
    constructor; [exact IH|].
    eapply Forall_impl; [|exact F]. cbv beta. unfold stage_le.
    intros e' He'. lia.
  - eapply Forall_impl; [|exact F]. cbv beta. intros e He. lia.
Qed.

Lemma sorted_app (d1 d2 : list Event) (m : nat) :
  StronglySorted stage_le d1 -> StronglySorted stage_le d2 ->
  Forall (fun e => (stage e <= m)%nat) d1 ->
  Forall (fun e => (m <= stage e)%nat) d2 ->
  StronglySorted stage_le (d1 ++ d2).
Proof.
  intros S1 S2 F1 F2. induction S1 as [|e d1 S1 IH Hall]; cbn; [exact S2|].
  inversion F1 as [|? ? He F1']; subst. constructor; [exact (IH F1')|].
  apply Forall_app. split; [exact Hall|].
  eapply Forall_impl; [|exact F2]. cbv beta. unfold stage_le.
  intros e' He'. lia.
Qed.

Lemma staged_seq lo1 hi1 lo2 hi2 w w1 w2 :
  staged lo1 hi1 w w1 -> staged lo2 hi2 w1 w2 ->
  (lo1 <= lo2)%nat -> (hi1 <= lo2)%nat -> (hi1 <= hi2)%nat ->
  staged lo1 hi2 w w2.
Proof.
  intros (d1 & E1 & S1 & F1) (d2 & E2 & S2 & F2) Hlo Hmid Hhi.
  exists (d1 ++ d2). rewrite E2, E1, app_assoc. split; [reflexivity|]. split.
  - apply (sorted_app d1 d2 hi1); try assumption.
    + eapply Forall_impl; [|exact F1]. cbv beta. intros e He. lia.
    + eapply Forall_impl; [|exact F2]. cbv beta. intros e He. lia.
  - apply Forall_app. split.
    + eapply Forall_impl; [|exact F1]. cbv beta. intros e He. lia.
    + eapply Forall_impl; [|exact F2]. cbv beta. intros e He. lia.
Qed.

(** One block of the cycle: the source's check, then its notifications. *)
Lemma checkPlatform_staged (s : Source) (isConfigured : M bool)
  (label : string) (acc : Scheduler.Results * Z) w :
  (forall v, exists b, isConfigured v = (Normal b, v)) ->
  wp (Scheduler.checkPlatform isConfigured (checkForNew s) label
        (platformOf s) acc)
    (fun c w' =>
       (exists acc', c = Normal acc') /\
       staged (2 * source_index (platformOf s))
         (2 * source_index (platformOf s) + 1) w w')
    w.
Proof.
  intros Hconf. unfold Scheduler.checkPlatform.
  apply wp_bind. apply wp_intro. intros c w1 E.
  destruct (Hconf w) as [b Eb]. rewrite Eb in E. inversion E; subst c w1.
  destruct b.
  2: { apply wp_ret. split; [eauto | apply staged_refl]. }
  apply wp_try_catch, wp_bind.
  eapply wp_conseq; [apply (checkForNew_stage s)|]. cbv beta.
  intros [r|e|] w1 [Hc Hcheck]; [| |contradiction];
    apply in_stage_staged in Hcheck.
  - destruct (success r && (0 <? Z.of_nat (List.length (newContentOf r)))).
    + apply wp_bind.
      eapply wp_conseq;
        [apply (sendNotifications_stage (newContentOf r) (platformOf s))|].
      cbv beta. intros [u|e|] w2 [Hc2 Hsend]; [| |contradiction];
        apply in_stage_staged in Hsend;
        [apply wp_ret | apply wp_ret];
        (split; [eauto|]);
        (eapply staged_seq; [exact Hcheck | exact Hsend | lia | lia | lia]).
    + apply wp_ret. split; [eauto|].
      eapply staged_seq;
        [ exact Hcheck
        | apply (staged_refl (2 * source_index (platformOf s) + 1)
                   (2 * source_index (platformOf s) + 1))
        | lia | lia | lia].
  - apply wp_ret. split; [eauto|].
    eapply staged_seq;
      [ exact Hcheck
      | apply (staged_refl (2 * source_index (platformOf s) + 1)
                 (2 * source_index (platformOf s) + 1))
      | lia | lia | lia].
Qed.

Lemma isConfigured_reads (s : Source) :
  forall v,
    exists b,
      match s with
      | YouTube => YouTubeService.isConfigured
      | Instagram => InstagramService.isConfigured
      | LinkedIn => LinkedInService.isConfigured
      end v = (Normal b, v).
Proof. intros v. destruct s; eexists; reflexivity. Qed.

Lemma performScheduledCheck_staged w :
  wp Scheduler.performScheduledCheck
    (fun c w' => c = Normal tt /\ staged 0 8 w w') w.
Proof.
  unfold Scheduler.performScheduledCheck. apply wp_try_catch, wp_bind.
  eapply wp_conseq;
    [apply (checkPlatform_staged YouTube _ _ _ w (isConfigured_reads YouTube))|].
  cbv beta. intros c w1 [[acc1 ->] H1]. apply wp_bind.
  eapply wp_conseq;
    [apply (checkPlatform_staged Instagram _ _ _ w1
              (isConfigured_reads Instagram))|].
  cbv beta. intros c w2 [[acc2 ->] H2]. apply wp_bind.
  eapply wp_conseq;
    [apply (checkPlatform_staged LinkedIn _ _ _ w2
              (isConfigured_reads LinkedIn))|].
  cbv beta. intros c w3 [[acc3 ->] H3].
  change (staged 0 1 w w1) in H1. change (staged 2 3 w1 w2) in H2.
  change (staged 4 5 w2 w3) in H3.
  assert (H123 : staged 0 5 w w3).
  { apply (staged_seq 0 3 4 5 w w2 w3); [|exact H3|lia..].
    apply (staged_seq 0 1 2 3 w w1 w2); [exact H1|exact H2|lia..]. }
  cbv zeta.
  destruct (_ <? _)%nat.
  - eapply wp_conseq; [apply sendErrorSummary_stage|]. cbv beta.
    intros [u|e|] w4 [Hc Hs]; [| |contradiction];
      apply in_stage_staged in Hs.
    + destruct u. split; [reflexivity|].
      eapply staged_seq; [exact H123 | exact Hs | lia..].
    + apply wp_ret. split; [reflexivity|].
      eapply staged_seq; [exact H123 | exact Hs | lia..].
  - apply wp_ret. split; [reflexivity|].
    eapply staged_seq; [exact H123 | apply (staged_refl 8 8) | lia..].
Qed.

Lemma sorted_after (pre post : list Event) (e : Event) :
  StronglySorted stage_le (pre ++ e :: post) -> Forall (stage_le e) post.
Proof.
  induction pre as [|x pre IH]; cbn; intros S; inversion S; subst; auto.
Qed.

#[export] Instance trace_grows_preorder : PreOrder trace_grows.
Proof.
  split.
  - intros w. exists []. now rewrite app_nil_r.
  - intros a b c [d1 E1] [d2 E2]. exists (d1 ++ d2).
    now rewrite E2, E1, app_assoc.
Qed.

Lemma in_stage_grows k w w' : in_stage k w w' -> trace_grows w w'.
Proof. intros (d & E & _). now exists d. Qed.

Ltac grows_from_stage k :=
  apply (sat_weaken (in_stage k) trace_grows);
  [apply in_stage_grows | sat_go stage_leaf].

Lemma updateLastCheck_trace platform lastContentId lastContentTimestamp w :
  wp (Database.updateLastCheck platform lastContentId lastContentTimestamp)
    (fun _ w' =>
       trace w'
       = trace w
         ++ [EvUpdateLastCheck platform lastContentId lastContentTimestamp])
    w.
Proof.
  apply wp_intro. intros c w'. rewrite updateLastCheck_run.
  destruct (next_fault w); intros E; inversion E; reflexivity.
Qed.

(** A result that is not a success with new content. *)
Ltac not_updated :=
  let r := fresh "r" in
  let Hr := fresh "Hr" in
  let Hs := fresh "Hs" in
  let Hn := fresh "Hn" in
  intros r Hr;
  first
    [ discriminate Hr
    | inversion Hr; subst r; cbn; intros Hs Hn;
      first [discriminate Hs | now destruct Hn] ].

(** The part of a check that follows a successful fetch: when it reports
    new content, items were fetched, and the cursor was moved to the first
    of them. *)
Lemma check_tail_updates platform (f : ContentItem -> bool)
  (items : list ContentItem) (onEmpty : M unit) (total : option Z) w0 w1 :
  trace_grows w0 w1 ->
  wp (unseenItems <- filterUnseen platform (filter f items) [] ;;
      match items with
      | latest :: _ =>
          timestamp <- lift (toISOString (item_timestamp latest)) ;;
          Database.updateLastCheck platform (Some (item_id latest))
            (Some timestamp) ;;
          ret tt
      | [] => onEmpty
      end ;;
      ret (mkCheck true None (Some unseenItems) total))
    (cursor_updated platform w0) w1.
Proof.
  intros [d0 Hd0]. apply wp_bind.
  eapply wp_conseq.
  { apply wp_and;
      [ apply filterUnseen_spec
      | refine ((_ : sat trace_grows _) w1);
        apply (sat_weaken (in_stage (2 * source_index platform))
                 trace_grows);
        [apply in_stage_grows | apply (filterUnseen_stage platform)] ]. }
  cbv beta. intros [u|e|] w2 [(_ & _ & Hu) [_ [d1 Hd1]]];
    [| not_updated | not_updated].
  rewrite (Hu u eq_refl), app_nil_l. apply wp_bind.
  destruct items as [|latest more].
  - apply wp_intro. intros [[]|e|] w3 _; [apply wp_ret | |]; not_updated.
  - apply wp_bind, wp_lift.
    destruct (toISOString (item_timestamp latest)) as [e|t];
      [not_updated|].
    apply wp_bind.
    eapply wp_conseq; [apply updateLastCheck_trace|]. cbv beta.
    intros [n|e|] w3 Htr; [| not_updated | not_updated].
    do 2 apply wp_ret. intros r Hr _ _.
    exists (d0 ++ d1 ++ [EvUpdateLastCheck platform (Some (item_id latest))
                           (Some t)]),
      (Some (item_id latest)), (Some t).
    rewrite Htr, Hd1, Hd0, <- !app_assoc. split; [reflexivity|].
    apply in_or_app. right. apply in_or_app. right. now left.
Qed.

Lemma youtube_try_updates w :
  wp YouTubeService.checkForNewVideos_try (cursor_updated "youtube" w) w.
Proof.
  unfold YouTubeService.checkForNewVideos_try.
  apply wp_bind. unfold YouTubeService.isConfigured. apply wp_gets.
  destruct (negb _); [apply wp_ret; not_updated|].
  apply wp_bind. eapply wp_conseq.
  { refine ((_ : sat trace_grows _) w). grows_from_stage 0%nat. }
  cbv beta. intros [lastUpdate|e|] w1 [_ H1]; [| not_updated | not_updated].
  apply wp_bind. eapply wp_conseq.
  { refine ((_ : sat trace_grows _) w1). grows_from_stage 0%nat. }
  cbv beta. intros [lastCheckTime|e|] w2 [_ H2];
    [| not_updated | not_updated].
  apply wp_bind. eapply wp_conseq.
  { refine ((_ : sat trace_grows _) w2). grows_from_stage 0%nat. }
  cbv beta. intros [result|e|] w3 [_ H3]; [| not_updated | not_updated].
  destruct (negb (fetched _)); [apply wp_ret; not_updated|].
  cbv zeta. apply check_tail_updates.
  etransitivity; [exact H1|]. etransitivity; eassumption.
Qed.

Lemma instagram_try_updates w :
  wp InstagramService.checkForNewPosts_try (cursor_updated "instagram" w) w.
Proof.
  unfold InstagramService.checkForNewPosts_try.
  apply wp_bind. unfold InstagramService.isConfigured. apply wp_gets.
  destruct (negb _); [apply wp_ret; not_updated|].
  apply wp_bind. eapply wp_conseq.
  { refine ((_ : sat trace_grows _) w). grows_from_stage 2%nat. }
  cbv beta. intros [lastUpdate|e|] w1 [_ H1]; [| not_updated | not_updated].
  apply wp_bind. eapply wp_conseq.
  { refine ((_ : sat trace_grows _) w1). grows_from_stage 2%nat. }
  cbv beta. intros [lastCheckTime|e|] w2 [_ H2];
    [| not_updated | not_updated].
  apply wp_bind. eapply wp_conseq.
  { refine ((_ : sat trace_grows _) w2).
    apply (sat_weaken (in_stage 2) trace_grows);
      [apply in_stage_grows | apply ig_scrapeProfile_stage]. }
  cbv beta. intros [result|e|] w3 [_ H3]; [| not_updated | not_updated].
  destruct (negb (fetched _)); [apply wp_ret; not_updated|].
  cbv zeta. apply check_tail_updates.
  etransitivity; [exact H1|]. etransitivity; eassumption.
Qed.

Lemma linkedin_try_updates w :
  wp LinkedInService.checkForNewPosts_try (cursor_updated "linkedin" w) w.
Proof.
  unfold LinkedInService.checkForNewPosts_try.
  apply wp_bind. unfold LinkedInService.isConfigured. apply wp_gets.
  destruct (negb _); [apply wp_ret; not_updated|].
  apply wp_bind. eapply wp_conseq.
  { refine ((_ : sat trace_grows _) w). grows_from_stage 4%nat. }
  cbv beta. intros [lastUpdate|e|] w1 [_ H1]; [| not_updated | not_updated].
  apply wp_bind. eapply wp_conseq.
  { refine ((_ : sat trace_grows _) w1). grows_from_stage 4%nat. }
  cbv beta. intros [lastCheckTime|e|] w2 [_ H2];
    [| not_updated | not_updated].
  apply wp_bind. eapply wp_conseq.
  { refine ((_ : sat trace_grows _) w2). grows_from_stage 4%nat. }
  cbv beta. intros [result|e|] w3 [_ H3]; [| not_updated | not_updated].
  destruct (negb (fetched _)); [apply wp_ret; not_updated|].
  cbv zeta. apply check_tail_updates.
  etransitivity; [exact H1|]. etransitivity; eassumption.
Qed.

(** A check that reports new content has moved the cursor of its
    source. *)
Lemma checkForNew_updates s w :
  wp (checkForNew s) (cursor_updated (platformOf s) w) w.
Proof.
  destruct s; cbn [checkForNew platformOf].
  - unfold YouTubeService.checkForNewVideos. apply wp_try_catch.
    eapply wp_conseq; [apply youtube_try_updates|]. cbv beta.
    intros [r|e|] w1 Hr; [exact Hr | apply wp_ret; not_updated | exact Hr].
  - unfold InstagramService.checkForNewPosts. apply wp_try_catch.
    eapply wp_conseq; [apply instagram_try_updates|]. cbv beta.
    intros [r|e|] w1 Hr; [exact Hr | | exact Hr].
    unfold InstagramService.checkForNewPosts_catch. apply wp_bind.
    apply wp_intro. intros [[]|e'|] w2 _; [apply wp_ret | |]; not_updated.
  - unfold LinkedInService.checkForNewPosts. apply wp_try_catch.
    eapply wp_conseq; [apply linkedin_try_updates|]. cbv beta.
    intros [r|e|] w1 Hr; [exact Hr | apply wp_ret; not_updated | exact Hr].
Qed.

Lemma updates_first_no_send d :
  (forall platform contentId, ~ In (EvChannelSend platform contentId) d) ->
  updates_first d.
Proof.
  intros Hno platform contentId pre post Hd. exfalso.
  apply (Hno platform contentId). rewrite Hd. apply in_elt.
Qed.

Lemma updates_first_app d1 d2 :
  updates_first d1 -> updates_first d2 -> updates_first (d1 ++ d2).
Proof.
  intros H1 H2 platform contentId pre post Hd.
  apply app_eq_app in Hd. destruct Hd as [l [[E1 E2] | [E1 E2]]].
  - destruct l as [|x l].
    + rewrite app_nil_r in E1. subst pre. cbn in E2.
      destruct (H2 platform contentId [] post (eq_sym E2)) as (i & t & []).
    + cbn in E2. inversion E2; subst x post.
      exact (H1 platform contentId pre l E1).
  - destruct (H2 platform contentId l post E2) as (i & t & Hin).
    exists i, t. rewrite E1. apply in_or_app. now right.
Qed.

#[export] Instance sends_after_updates_preorder : PreOrder sends_after_updates.
Proof.
  split.
  - intros w. exists []. rewrite app_nil_r. split; [reflexivity|].
    apply updates_first_no_send. intros p c [].
  - intros a b c (d1 & E1 & F1) (d2 & E2 & F2). exists (d1 ++ d2).
    rewrite E2, E1, app_assoc. split; [reflexivity|].
    now apply updates_first_app.
Qed.

Lemma stage_no_send k d :
  Forall (fun e => stage e = (2 * k)%nat) d ->
  forall platform contentId, ~ In (EvChannelSend platform contentId) d.
Proof.
  intros F platform contentId Hin. rewrite Forall_forall in F.
  specialize (F _ Hin). cbn in F. lia.
Qed.

Lemma source_index_platformOf s platform :
  source_index platform = source_index (platformOf s) ->
  platform = platformOf s.
Proof.
  unfold source_index.
  destruct (platform =? "youtube")%string eqn:Hy;
    [apply String.eqb_eq in Hy|];
    [|destruct (platform =? "instagram")%string eqn:Hi;
      [apply String.eqb_eq in Hi|]];
    [| |destruct (platform =? "linkedin")%string eqn:Hl;
        [apply String.eqb_eq in Hl|]];
    destruct s; cbn; intros E; try discriminate E; assumption.
Qed.

(** In the block of a source the sends come after the check, and a check
    that leads to sends has moved the cursor. *)
Lemma block_updates_first s dc ds :
  Forall (fun e => stage e = (2 * source_index (platformOf s))%nat) dc ->
  Forall (fun e => stage e = (2 * source_index (platformOf s) + 1)%nat) ds ->
  (exists lastContentId lastContentTimestamp,
     In (EvUpdateLastCheck (platformOf s) lastContentId lastContentTimestamp)
        dc) ->
  updates_first (dc ++ ds).
Proof.
  intros Fc Fs (i & t & Hin) platform contentId pre post Hd.
  apply app_eq_app in Hd. destruct Hd as [l [[E1 E2] | [E1 E2]]].
  - destruct l as [|x l].
    + rewrite app_nil_r in E1. subst pre. cbn in E2.
      rewrite Forall_forall in Fs.
      assert (Hs : In (EvChannelSend platform contentId) ds)
        by (rewrite <- E2; now left).
      specialize (Fs _ Hs). cbn in Fs.
      assert (Hp : platform = platformOf s)
        by (apply source_index_platformOf; lia).
      subst platform. eauto.
    + exfalso. cbn in E2. inversion E2; subst x post.
      apply (stage_no_send _ dc Fc platform contentId). rewrite E1.
      apply in_elt.
  - rewrite Forall_forall in Fs.
    assert (Hs : In (EvChannelSend platform contentId) ds)
      by (rewrite E2; apply in_elt).
    specialize (Fs _ Hs). cbn in Fs.
    assert (Hp : platform = platformOf s)
      by (apply source_index_platformOf; lia).
    subst platform. exists i, t. rewrite E1. apply in_or_app. now left.
Qed.

Lemma checkPlatform_updates_first (s : Source) (isConfigured : M bool)
  (label : string) (acc : Scheduler.Results * Z) :
  (forall v, exists b, isConfigured v = (Normal b, v)) ->
  sat sends_after_updates
    (Scheduler.checkPlatform isConfigured (checkForNew s) label
       (platformOf s) acc).
Proof.
  intros Hconf w. unfold Scheduler.checkPlatform.
  apply wp_bind. apply wp_intro. intros c w1 E.
  destruct (Hconf w) as [b Eb]. rewrite Eb in E. inversion E; subst c w1.
  destruct b.
  2: { apply wp_ret. split; [discriminate | reflexivity]. }
  apply wp_try_catch, wp_bind.
  eapply wp_conseq;
    [apply wp_and; [apply (checkForNew_stage s) | apply checkForNew_updates]|].
  cbv beta.
  assert (Hcheck : forall w1,
             in_stage (2 * source_index (platformOf s)) w w1 ->
             sends_after_updates w w1).
  { intros w1 (dc & Edc & Fc). exists dc. split; [exact Edc|].
    apply updates_first_no_send. exact (stage_no_send _ dc Fc). }
  intros [r|e|] w1 [[Hc Hstage] Hupd]; [| |contradiction].
  - destruct (success r) eqn:Hs; cbn [andb].
    2: { apply wp_ret. split; [discriminate | auto]. }
    destruct (0 <? Z.of_nat (List.length (newContentOf r))) eqn:Hn.
    2: { apply wp_ret. split; [discriminate | auto]. }
    destruct (Hupd r eq_refl Hs) as (dc' & i & t & Edc' & Hin).
    { intros Hnil. rewrite Hnil in Hn. discriminate Hn. }
    destruct Hstage as (dc & Edc & Fc).
    assert (dc' = dc) by (rewrite Edc in Edc'; now apply app_inv_head in Edc').
    subst dc'.
    apply wp_bind.
    eapply wp_conseq;
      [apply (sendNotifications_stage (newContentOf r) (platformOf s))|].
    cbv beta. intros [u|e|] w2 [Hc2 (ds & Eds & Fs)]; [| |contradiction];
      apply wp_ret; (split; [discriminate|]);
      exists (dc ++ ds); rewrite Eds, Edc, app_assoc;
      (split; [reflexivity|]);
      apply (block_updates_first s); eauto.
  - apply wp_ret. split; [discriminate | auto].
Qed.

Lemma sendErrorSummary_updates_first results :
  sat sends_after_updates (Scheduler.sendErrorSummary results).
Proof.
  eapply sat_weaken; [|apply (sendErrorSummary_stage results)].
  intros w w' (d & E & F). exists d. split; [exact E|].
  apply updates_first_no_send. exact (stage_no_send 4 d F).
Qed.

Lemma performScheduledCheck_updates_first :
  sat sends_after_updates Scheduler.performScheduledCheck.
Proof.
  unfold Scheduler.performScheduledCheck.
  apply sat_try_catch; [exact _ | | intros e; apply sat_ret; exact _].
  apply sat_bind; [exact _ | |intros acc1].
  { apply (checkPlatform_updates_first YouTube), (isConfigured_reads YouTube). }
  apply sat_bind; [exact _ | |intros acc2].
  { apply (checkPlatform_updates_first Instagram),
      (isConfigured_reads Instagram). }
  apply sat_bind; [exact _ | |intros acc3].
  { apply (checkPlatform_updates_first LinkedIn),
      (isConfigured_reads LinkedIn). }
  cbv zeta. destruct (_ <? _)%nat.
  - apply sendErrorSummary_updates_first.
  - apply sat_ret. exact _.
Qed.

(** C2, as the code has it. In a check cycle the cursor of a source is
    updated by the source's check, which comes before the source's
    notifications: every item handed to the channel is preceded in the
    cycle by an update of the cursor of its source, and once an item of a
    source has been handed to the channel, no update of that source's
    cursor follows in the cycle. *)
Theorem cursor_update_precedes_sends (w w' : World) (c : Completion unit) :
  Scheduler.performScheduledCheck w = (c, w') ->
  c = Normal tt /\
  exists d,
    trace w' = trace w ++ d /\
    forall platform contentId pre post,
      d = pre ++ EvChannelSend platform contentId :: post ->
      (exists lastContentId lastContentTimestamp,
         In (EvUpdateLastCheck platform lastContentId lastContentTimestamp)
            pre) /\
      forall lastContentId lastContentTimestamp,
        ~ In (EvUpdateLastCheck platform lastContentId lastContentTimestamp)
            post.
Proof.
  intros E.
  destruct (wp_run _ _ _ _ _ (performScheduledCheck_staged w) E)
    as (Hc & d & Htr & Hsorted & _).
  destruct (sat_run _ _ _ _ _ performScheduledCheck_updates_first E)
    as (_ & d' & Htr' & Hfirst).
  assert (d' = d) by (rewrite Htr in Htr'; now apply app_inv_head in Htr').
  subst d'.
  split; [exact Hc|]. exists d. split; [exact Htr|].
  intros platform contentId pre post Hd. split.
  - exact (Hfirst platform contentId pre post Hd).
  - intros lastId lastTs Hin. subst d.
    apply sorted_after in Hsorted. rewrite Forall_forall in Hsorted.
    specialize (Hsorted _ Hin). unfold stage_le in Hsorted. cbn in Hsorted.
    lia.
Qed.

Lemma cursor_update_precedes_sends_witness :
  Normal tt = Normal tt /\
  exists d,
    trace (snd (Scheduler.performScheduledCheck world_cycle))
    = trace world_cycle ++ d /\
    forall platform contentId pre post,
      d = pre ++ EvChannelSend platform contentId :: post ->
      (exists lastContentId lastContentTimestamp,
         In (EvUpdateLastCheck platform lastContentId lastContentTimestamp)
            pre) /\
      forall lastContentId lastContentTimestamp,
        ~ In (EvUpdateLastCheck platform lastContentId lastContentTimestamp)
            post.
Proof.
  apply (cursor_update_precedes_sends world_cycle
           (snd (Scheduler.performScheduledCheck world_cycle)) (Normal tt)).
  vm_compute. reflexivity.
Defined.

(** C2 as stated fails: in this cycle the update of YouTube's cursor is not
    the last operation for YouTube; the send of the video and the recording
    of the notification come after it. *)
Lemma cursor_update_last_counterexample :
  exists w',
    Scheduler.performScheduledCheck world_cycle = (Normal tt, w') /\
    trace w' = cycle_trace /\
    exists pre post,
      trace w'
      = pre ++ EvUpdateLastCheck "youtube" (Some "a") (Some 999999000)
        :: post /\
      In (EvChannelSend "youtube" "a") post /\
      last (trace w') (EvGetLastUpdate "youtube")
      <> EvUpdateLastCheck "youtube" (Some "a") (Some 999999000).
Proof.
  eexists. split; [vm_compute; reflexivity|]. split; [reflexivity|].
  exists [EvGetLastUpdate "youtube"; EvHttpGet "youtube";
          EvIsNotificationSent "youtube" "a"],
         [EvChannelSend "youtube" "a"; EvRecordSentNotification "youtube" "a"].
  split; [reflexivity|]. split; [left; reflexivity | discriminate].
Qed.

(** * The dedup store on its own *)

Lemma select_sent_other p i platform contentId url m ts t :
  (p, i) <> (platform, contentId) ->
  Database.select_sent p i (Database.replace_sent platform contentId url m ts t)
  = Database.select_sent p i t.
Proof.
  intros Hne. unfold Database.select_sent, Database.replace_sent.
  cbn [sent_notifications].
  assert (Hkey : forall r,
             Database.is_sent_key p i r = true ->
             Database.is_sent_key platform contentId r = false).
  { intros r Hr. unfold Database.is_sent_key in *.
    apply andb_true_iff in Hr. destruct Hr as [Hp Hi].
    apply String.eqb_eq in Hp, Hi.
    destruct (sn_platform r =? platform)%string eqn:Hp'; [|reflexivity].
    destruct (content_id r =? contentId)%string eqn:Hi'; [|reflexivity].
    apply String.eqb_eq in Hp', Hi'. exfalso. apply Hne. congruence. }
  rewrite find_other.
  - induction (sent_notifications t) as [|r rows IH]; cbn; [reflexivity|].
    destruct (Database.is_sent_key p i r) eqn:Hr.
    + rewrite (Hkey r Hr). cbn. now rewrite Hr.
    + destruct (Database.is_sent_key platform contentId r); cbn;
        [exact IH | now rewrite Hr].
  - destruct (Database.is_sent_key p i
                (mkSent (sent_notifications_seq t + 1) platform contentId url
                   m ts)) eqn:Hr; [|reflexivity].
    apply Hkey in Hr. now rewrite is_sent_key_refl in Hr.
Qed.

(** X1. A cursor written by [updateLastCheck] is the row [getLastUpdate]
    reads back for that platform: it carries the content id and timestamp
    that were passed and the second in which the statement ran.  The rows
    of the other platforms and the notifications on record are as they
    were. *)
Theorem updateLastCheck_then_getLastUpdate
  (platform : string) (lastContentId : option string)
  (lastContentTimestamp : option IsoString) (w w1 v : World) (n : Z) :
  Database.updateLastCheck platform lastContentId lastContentTimestamp w
  = (Normal n, w1) ->
  tables v = tables w1 ->
  next_fault v = None ->
  (exists row v',
     Database.getLastUpdate platform v = (Normal (Some row), v') /\
     tables v' = tables v /\
     last_content_id row = lastContentId /\
     last_content_timestamp row = lastContentTimestamp /\
     last_check_time row = Database.CURRENT_TIMESTAMP w) /\
  (forall other,
     other <> platform ->
     Database.select_last_update other (tables w1)
     = Database.select_last_update other (tables w)) /\
  sent_notifications (tables w1) = sent_notifications (tables w).
Proof.
  intros E Hv Hfault. rewrite updateLastCheck_run in E.
  destruct (next_fault w); inversion E; subst n w1; clear E.
  cbn [tables set_tables] in *. split; [|split; [|reflexivity]].
  - unfold Database.getLastUpdate. rewrite sqlite_run, Hfault.
    cbn [fst snd]. rewrite Hv, select_replaced_last_update.
    do 2 eexists. split; [reflexivity|]. cbn. repeat split.
  - intros other Hother. unfold Database.select_last_update,
      Database.replace_last_update. cbn [last_updates].
    assert (Hne : (other =? platform)%string = false)
      by now apply String.eqb_neq.
    rewrite find_other.
    + apply find_filter_other, Hne.
    + unfold Database.is_platform. cbn. now rewrite String.eqb_sym.
Qed.

Lemma updateLastCheck_then_getLastUpdate_witness :
  (exists row v',
     Database.getLastUpdate "youtube" world_updated = (Normal (Some row), v') /\
     tables v' = tables world_updated /\
     last_content_id row = Some "a" /\
     last_content_timestamp row = Some 999999000 /\
     last_check_time row = Database.CURRENT_TIMESTAMP world0) /\
  (forall other,
     other <> "youtube" ->
     Database.select_last_update other (tables world_updated)
     = Database.select_last_update other (tables world0)) /\
  sent_notifications (tables world_updated)
  = sent_notifications (tables world0).
Proof.
  apply (updateLastCheck_then_getLastUpdate "youtube" (Some "a")
           (Some 999999000) world0 world_updated world_updated 1);
    reflexivity.
Defined.

(** X2. [recordSentNotification] touches one key only: whether it resolves
    or rejects, the cursors are as they were and so is what the store
    holds for every other pair of platform and content id.  When it
    resolves, the row of its own pair carries the url, the id of the
    Discord message and the second in which the statement ran; when it
    rejects, the tables are unchanged. *)
Theorem recordSentNotification_frame
  (platform contentId contentUrl discordMessageId : string) (w w1 : World)
  (c : Completion Z) :
  Database.recordSentNotification platform contentId contentUrl
    discordMessageId w = (c, w1) ->
  last_updates (tables w1) = last_updates (tables w) /\
  (forall p i,
     (p, i) <> (platform, contentId) ->
     Database.select_sent p i (tables w1)
     = Database.select_sent p i (tables w)) /\
  (forall n,
     c = Normal n ->
     exists row,
       Database.select_sent platform contentId (tables w1) = Some row /\
       content_url row = contentUrl /\
       discord_message_id row = discordMessageId /\
       sent_at row = Database.CURRENT_TIMESTAMP w) /\
  (forall e, c = Throws e -> tables w1 = tables w).
Proof.
  unfold Database.recordSentNotification. rewrite sqlite_run.
  destruct (next_fault w); intros E; inversion E; subst c w1; clear E;
    cbn [tables set_tables after_call fst snd]; repeat split;
    try discriminate.
  intros p i Hne. now apply select_sent_other.
  intros n _. unfold Database.select_sent, Database.replace_sent.
  cbn [sent_notifications]. rewrite find_replaced by apply is_sent_key_refl.
  eexists. split; [reflexivity|]. repeat split.
Qed.

Lemma recordSentNotification_frame_witness :
  last_updates (tables recorded_once) = last_updates (tables world0) /\
  (forall p i,
     (p, i) <> ("youtube", "a") ->
     Database.select_sent p i (tables recorded_once)
     = Database.select_sent p i (tables world0)) /\
  (forall n,
     Normal 1 = Normal n ->
     exists row,
       Database.select_sent "youtube" "a" (tables recorded_once) = Some row /\
       content_url row = "url" /\
       discord_message_id row = "m1" /\
       sent_at row = Database.CURRENT_TIMESTAMP world0) /\
  (forall e, Normal 1 = Throws e -> tables recorded_once = tables world0).
Proof.
  apply (recordSentNotification_frame "youtube" "a" "url" "m1" world0
           recorded_once (Normal 1)).
  reflexivity.
Defined.

Lemma filter_length_mono {A} (f g : A -> bool) (l : list A) :
  (forall x, f x = true -> g x = true) ->
  (List.length (filter f l) <= List.length (filter g l))%nat.
Proof.
  intros Hfg. induction l as [|x l IH]; cbn; [lia|].
  destruct (f x) eqn:Hf.
  - rewrite (Hfg x Hf). cbn. lia.
  - destruct (g x); cbn; lia.
Qed.

Lemma find_is_some {A} (f : A -> bool) (l : list A) :
  (exists x, find f l = Some x) <-> exists x, In x l /\ f x = true.
Proof.
  split.
  - intros [x Hx]. exists x. now apply find_some in Hx.
  - intros (x & Hin & Hf). destruct (find f l) as [y|] eqn:Hfind; [eauto|].
    rewrite (find_none _ _ Hfind x Hin) in Hf. discriminate.
Qed.

(** X3. [cleanupOldNotifications] resolves to the number of rows it
    deleted and forgets exactly the notifications sent more than thirty
    days before it ran: a row stays if and only if it is not older, and a
    pair of platform and content id is still reported as sent if and only
    if it has such a row.  The cursors are not touched. *)
Theorem cleanupOldNotifications_forgets_only_old (w w1 : World) (n : Z) :
  Database.cleanupOldNotifications w = (Normal n, w1) ->
  last_updates (tables w1) = last_updates (tables w) /\
  (forall row,
     In row (sent_notifications (tables w1)) <->
     In row (sent_notifications (tables w)) /\ expiry w <= sent_at row) /\
  n + Z.of_nat (List.length (sent_notifications (tables w1)))
  = Z.of_nat (List.length (sent_notifications (tables w))) /\
  (forall p i,
     already_sent p i (tables w1) = true <->
     exists row,
       In row (sent_notifications (tables w)) /\
       Database.is_sent_key p i row = true /\
       expiry w <= sent_at row).
Proof.
  unfold Database.cleanupOldNotifications. rewrite sqlite_run.
  destruct (next_fault w); intros E; inversion E; subst n w1; clear E.
  cbn [tables set_tables after_call fst snd Database.delete_old_sent
       last_updates sent_notifications].
  change (Database.CURRENT_TIMESTAMP w - 2592000) with (expiry w).
  assert (Hrows : forall row,
             In row (filter (fun r => negb (sent_at r <? expiry w))
                       (sent_notifications (tables w))) <->
             In row (sent_notifications (tables w)) /\
             expiry w <= sent_at row).
  { intros row. rewrite filter_In, negb_true_iff, Z.ltb_ge. tauto. }
  split; [reflexivity|]. split; [exact Hrows|]. split.
  - rewrite <- (filter_length (fun r => sent_at r <? expiry w)
                  (sent_notifications (tables w))). lia.
  - intros p i. unfold already_sent, Database.select_sent.
    cbn [sent_notifications].
    destruct (find_is_some (Database.is_sent_key p i)
                (filter (fun r => negb (sent_at r <? expiry w))
                   (sent_notifications (tables w)))) as [Hto Hfrom].
    split.
    + intros Hsent.
      destruct (find _ _) as [row|] eqn:Hfind; [|discriminate].
      destruct Hto as (x & Hin & Hkey); [eauto|].
      apply Hrows in Hin. exists x. tauto.
    + intros (row & Hin & Hkey & Hnew).
      destruct Hfrom as [x Hx].
      { exists row. split; [apply Hrows; tauto | exact Hkey]. }
      now rewrite Hx.
Qed.

Lemma cleanupOldNotifications_forgets_only_old_witness :
  last_updates (tables (snd (Database.cleanupOldNotifications world_history)))
  = last_updates (tables world_history) /\
  (forall row,
     In row
       (sent_notifications
          (tables (snd (Database.cleanupOldNotifications world_history)))) <->
     In row (sent_notifications (tables world_history)) /\
     expiry world_history <= sent_at row) /\
  1 + Z.of_nat
        (List.length
           (sent_notifications
              (tables (snd (Database.cleanupOldNotifications world_history)))))
  = Z.of_nat (List.length (sent_notifications (tables world_history))) /\
  (forall p i,
     already_sent p i
       (tables (snd (Database.cleanupOldNotifications world_history))) = true <->
     exists row,
       In row (sent_notifications (tables world_history)) /\
       Database.is_sent_key p i row = true /\
       expiry world_history <= sent_at row).
Proof.
  apply (cleanupOldNotifications_forgets_only_old world_history
           (snd (Database.cleanupOldNotifications world_history)) 1).
  vm_compute. reflexivity.
Defined.

Lemma max_check_time_fold (rows : list LastUpdate) :
  forall acc,
    match
      fold_left
        (fun acc r =>
           match acc with
           | None => Some (last_check_time r)
           | Some m => Some (Z.max m (last_check_time r))
           end) rows acc
    with
    | None => acc = None /\ rows = []
    | Some m =>
        (forall a, acc = Some a -> a <= m) /\
        (forall row, In row rows -> last_check_time row <= m) /\
        (acc = Some m \/ exists row, In row rows /\ last_check_time row = m)
    end.
Proof.
  induction rows as [|r rows IH]; intros acc; cbn [fold_left].
  - destruct acc as [a|]; [|auto]. repeat split.
    + intros b E. inversion E. lia.
    + intros row [].
    + now left.
  - match goal with |- context [fold_left _ rows ?a] => specialize (IH a) end.
    destruct (fold_left _ rows _) as [m|].
    + destruct IH as (Hacc & Hrows & Hmax). repeat split.
      * intros a E. subst acc. specialize (Hacc _ eq_refl). lia.
      * intros row [<- | Hin]; [|auto].
        destruct acc as [a|]; specialize (Hacc _ eq_refl); lia.
      * destruct Hmax as [Hm | (row & Hin & Hm)].
        -- destruct acc as [a|]; inversion Hm.
           ++ destruct (Z.max_spec a (last_check_time r)) as [[_ ->] | [_ ->]];
                [right; exists r; split; [now left | reflexivity] | now left].
           ++ right. exists r. split; [now left | reflexivity].
        -- right. exists row. split; [now right | exact Hm].
    + destruct IH as [Hacc _]. destruct acc; discriminate.
Qed.

Lemma nodup_length_le (l : list string) :
  (List.length (nodup string_dec l) <= List.length l)%nat.
Proof.
  induction l as [|x l IH]; cbn; [lia|].
  destruct (in_dec string_dec x l); cbn; lia.
Qed.

(** X4. [getBotStats] only reads.  Its counts are nested: the
    notifications of the last 24 hours are among those of the last 7 days,
    which are among all; there are no more active platforms than cursor
    rows; and [last_global_check] is the latest [last_check_time] on
    record, missing exactly when no platform was ever checked. *)
Theorem getBotStats_summary (w w1 : World) (stats : Database.BotStats) :
  Database.getBotStats w = (Normal stats, w1) ->
  tables w1 = tables w /\
  Database.total_notifications stats
  = Z.of_nat (List.length (sent_notifications (tables w))) /\
  0 <= Database.notifications_24h stats <= Database.notifications_7d stats /\
  Database.notifications_7d stats <= Database.total_notifications stats /\
  0 <= Database.active_platforms stats
    <= Z.of_nat (List.length (last_updates (tables w))) /\
  (Database.last_global_check stats = None <->
   last_updates (tables w) = []) /\
  (forall m,
     Database.last_global_check stats = Some m ->
     (forall row,
        In row (last_updates (tables w)) -> last_check_time row <= m) /\
     exists row,
       In row (last_updates (tables w)) /\ last_check_time row = m).
Proof.
  unfold Database.getBotStats. rewrite sqlite_run.
  destruct (next_fault w); intros E; inversion E; subst stats w1; clear E.
  cbn [tables set_tables after_call fst snd Database.select_stats
       Database.total_notifications Database.notifications_24h
       Database.notifications_7d Database.active_platforms
       Database.last_global_check].
  set (ts := Database.CURRENT_TIMESTAMP w).
  pose proof (filter_length_mono
                (fun r => ts - 86400 <? sent_at r)
                (fun r => ts - 7 * 86400 <? sent_at r)
                (sent_notifications (tables w))) as H24.
  pose proof (filter_length_le
                (fun r => ts - 7 * 86400 <? sent_at r)
                (sent_notifications (tables w))) as H7.
  pose proof (nodup_length_le (map lu_platform (last_updates (tables w))))
    as Hact.
  rewrite length_map in Hact.
  pose proof (max_check_time_fold (last_updates (tables w)) None) as Hmax.
  unfold Database.max_check_time.
  split; [reflexivity|]. split; [reflexivity|].
  split; [split; [lia|]; apply Nat2Z.inj_le, H24; intros x Hx; lia|].
  split; [lia|]. split; [lia|].
  destruct (fold_left _ _ None) as [m|].
  - destruct Hmax as (_ & Hrows & [Hm | Hm]); [discriminate|]. split.
    + split; [discriminate|]. intros Hnil. destruct Hm as (row & Hin & _).
      rewrite Hnil in Hin. destruct Hin.
    + intros m' E. inversion E; subst m'. auto.
  - destruct Hmax as [_ Hnil]. split; [tauto|]. intros m E. discriminate E.
Qed.

Lemma getBotStats_summary_witness :
  tables (snd (Database.getBotStats world_history)) = tables world_history /\
  Database.total_notifications
    (Database.select_stats 1000000 (tables world_history))
  = Z.of_nat (List.length (sent_notifications (tables world_history))) /\
  0 <= Database.notifications_24h
         (Database.select_stats 1000000 (tables world_history))
    <= Database.notifications_7d
         (Database.select_stats 1000000 (tables world_history)) /\
  Database.notifications_7d
    (Database.select_stats 1000000 (tables world_history))
  <= Database.total_notifications
       (Database.select_stats 1000000 (tables world_history)) /\
  0 <= Database.active_platforms
         (Database.select_stats 1000000 (tables world_history))
    <= Z.of_nat (List.length (last_updates (tables world_history))) /\
  (Database.last_global_check
     (Database.select_stats 1000000 (tables world_history)) = None <->
   last_updates (tables world_history) = []) /\
  (forall m,
     Database.last_global_check
       (Database.select_stats 1000000 (tables world_history)) = Some m ->
     (forall row,
        In row (last_updates (tables world_history)) ->
        last_check_time row <= m) /\
     exists row,
       In row (last_updates (tables world_history)) /\
       last_check_time row = m).
Proof.
  apply (getBotStats_summary world_history
           (snd (Database.getBotStats world_history))
           (Database.select_stats 1000000 (tables world_history))).
  vm_compute. reflexivity.
Defined.

(** * What a check resolves to *)

Lemma getLastUpdate_spec platform w :
  wp (Database.getLastUpdate platform)
    (fun c w' =>
       c <> OutOfFuel /\ tables w' = tables w /\ now w' = now w /\
       forall r, c = Normal r ->
                 r = Database.select_last_update platform (tables w))
    w.
Proof.
  apply wp_intro. intros c w'. unfold Database.getLastUpdate.
  rewrite sqlite_run. destruct (next_fault w); intros E; inversion E; subst;
    cbn; repeat split; try discriminate.
  intros r Hr. now inversion Hr.
Qed.

Lemma updateLastCheck_throw_keeps platform lastContentId lastContentTimestamp
  v :
  wp (Database.updateLastCheck platform lastContentId lastContentTimestamp)
    (fun c v' =>
       c <> OutOfFuel /\ forall e, c = Throws e -> tables v' = tables v)
    v.
Proof.
  apply wp_intro. intros c v'. rewrite updateLastCheck_run.
  destruct (next_fault v); intros E; inversion E; subst;
    split; try discriminate; reflexivity.
Qed.

(** The cursor update at the end of a check, in the forms the three
    pollers give it. *)
Lemma cursor_update_throw_keeps platform (items : list ContentItem)
  (onEmpty : M unit) v :
  (onEmpty = ret tt \/
   onEmpty = (Database.updateLastCheck platform None None ;; ret tt)) ->
  wp (match items with
      | latest :: _ =>
          timestamp <- lift (toISOString (item_timestamp latest)) ;;
          Database.updateLastCheck platform (Some (item_id latest))
            (Some timestamp) ;;
          ret tt
      | [] => onEmpty
      end)
    (fun c v' =>
       c <> OutOfFuel /\ forall e, c = Throws e -> tables v' = tables v)
    v.
Proof.
  assert (Hupdate : forall i t,
             wp (Database.updateLastCheck platform i t ;; ret tt)
               (fun c v' =>
                  c <> OutOfFuel /\
                  forall e, c = Throws e -> tables v' = tables v) v).
  { intros i t. apply wp_bind.
    eapply wp_conseq; [apply updateLastCheck_throw_keeps|]. cbv beta.
    intros [n|e|] v' [Hc Hkeep]; [| |contradiction].
    - apply wp_ret. split; discriminate.
    - split; [discriminate | intros _ _; exact (Hkeep e eq_refl)]. }
  intros Hempty. destruct items as [|latest more].
  - destruct Hempty as [-> | ->]; [|apply Hupdate].
    apply wp_ret. split; discriminate.
  - apply wp_bind, wp_lift.
    destruct (toISOString (item_timestamp latest)) as [e|t].
    + split; [discriminate | reflexivity].
    + apply Hupdate.
Qed.

(** The part of a check that follows a successful fetch. *)
Lemma check_tail_post s w w1 (items : list ContentItem) (update : M unit) :
  tables w1 = tables w ->
  fetch_limit s items ->
  (forall v,
     wp update
       (fun c v' =>
          c <> OutOfFuel /\ forall e, c = Throws e -> tables v' = tables v)
       v) ->
  wp (unseenItems <-
        filterUnseen (platformOf s)
          (filter
             (fun x => date_gt (item_timestamp x) (cursorOf (platformOf s) w))
             items) [] ;;
      update ;;
      ret (mkCheck true None (Some unseenItems)
             (Some (Z.of_nat (List.length items)))))
    (check_body_post s w) w1.
Proof.
  intros Ht Hlimit Hupdate. apply wp_bind.
  eapply wp_conseq; [apply filterUnseen_spec|]. cbv beta.
  intros [u|e|] w2 (Hc & Ht2 & Hu); [| |contradiction].
  - apply wp_bind. eapply wp_conseq; [apply Hupdate|]. cbv beta.
    intros [[]|e|] w3 [Hc3 Hkeep]; [| |contradiction].
    + apply wp_ret. split; [discriminate|]. split; [discriminate|].
      intros r E. inversion E; subst r. cbn [success]. split.
      * split; [discriminate|]. intros _. exists items.
        split; [exact Hlimit|]. split; [reflexivity|].
        cbn [newContent]. rewrite (Hu u eq_refl), Ht. reflexivity.
      * discriminate.
    + split; [discriminate|]. split; [|discriminate].
      intros e' _. rewrite (Hkeep e eq_refl). congruence.
  - split; [discriminate|]. split; [|discriminate].
    intros e' _. congruence.
Qed.

Ltac check_body_trivial :=
  split; [discriminate|];
  split;
  [ let e := fresh "e" in let E := fresh "E" in
    intros e E; try discriminate E;
    unfold same_tables in *; congruence
  | let r := fresh "r" in let E := fresh "E" in
    intros r E;
    first
      [ discriminate E
      | inversion E; subst r;
        split;
        [ split; [intros _; split; reflexivity | intros Hs; discriminate Hs]
        | intros _; unfold same_tables in *; congruence ] ] ].

(** The posts the retry loop resolves to satisfy what every attempt's
    result and every failure result satisfy. *)
Lemma scrapeProfile_loop_result (P : FetchResult -> Prop) :
  (forall w,
     wp InstagramService.scrapeProfile_try
       (fun c _ => forall r, c = Normal r -> P r) w) ->
  (forall msg, P (mkFetch false msg [])) ->
  forall fuel attempt w,
    wp (InstagramService.scrapeProfile_loop fuel attempt)
      (fun c _ => forall r, c = Normal r -> P r) w.
Proof.
  intros Htry Hfail. induction fuel as [|fuel IH]; intros attempt w.
  { intros r E. discriminate E. }
  cbn [InstagramService.scrapeProfile_loop].
  destruct (attempt <? InstagramService.maxRetries).
  - apply wp_try_catch. eapply wp_conseq; [apply Htry|]. cbv beta.
    intros [r|e|] w1 Hr; [exact Hr | | intros r E; discriminate E].
    apply wp_bind, wp_modify. cbv zeta.
    destruct (InstagramService.maxRetries <=? attempt + 1);
      destruct (InstagramService.is429 e);
      destruct (attempt + 1 <? InstagramService.maxRetries);
      try (apply wp_bind, wp_modify);
      first
        [ apply wp_ret; intros r E; inversion E; apply Hfail
        | apply IH ].
  - apply wp_ret. intros r E. inversion E. apply Hfail.
Qed.

Lemma scrapeProfile_try_at_most_ten w :
  wp InstagramService.scrapeProfile_try
    (fun c _ =>
       forall r, c = Normal r -> (List.length (posts r) <= 10)%nat) w.
Proof.
  apply wp_intro. intros c w'.
  unfold InstagramService.scrapeProfile_try, InstagramService.isConfigured,
    InstagramService.respectRateLimit, InstagramService.loadProfile.
  set (delay := InstagramService.currentDelay). clearbody delay.
  assert (Hparse : forall data,
             (List.length (posts (InstagramService.parseInstagramData data))
              <= 10)%nat).
  { intros [items|msg]; cbn [InstagramService.parseInstagramData posts];
      [rewrite length_firstn; lia | cbn; lia]. }
  set (parse := InstagramService.parseInstagramData) in *. clearbody parse.
  destruct w as [t0 tbl faults ytr igr lir chr tr yt ig li dc les yts].
  run_monad. destruct (truthy (username ig)); cbn.
  - destruct (t0 - ig_lastRequestTime ig <? delay _); cbn;
      destruct igr as [|[m st|[data|]] rest]; cbn;
      intros E; inversion E; subst; cbn;
      intros r Hr; inversion Hr; subst; cbn; try lia; apply Hparse.
  - intros E; inversion E; subst. intros r Hr. discriminate Hr.
Qed.

Lemma ig_scrapeProfile_at_most_ten w :
  wp InstagramService.scrapeProfile
    (fun c _ =>
       forall r, c = Normal r -> (List.length (posts r) <= 10)%nat) w.
Proof.
  apply scrapeProfile_loop_result.
  - apply scrapeProfile_try_at_most_ten.
  - intros msg. cbn. lia.
Qed.

Lemma youtube_try_post w :
  wp YouTubeService.checkForNewVideos_try (check_body_post YouTube w) w.
Proof.
  unfold YouTubeService.checkForNewVideos_try.
  apply wp_bind. unfold YouTubeService.isConfigured. apply wp_gets.
  destruct (negb _); [apply wp_ret; check_body_trivial|].
  apply wp_bind. eapply wp_conseq; [apply getLastUpdate_spec|]. cbv beta.
  intros [lastUpdate|e|] w1 (Hc & Ht1 & Hn1 & Hrow);
    [| check_body_trivial | contradiction].
  rewrite (Hrow _ eq_refl).
  apply wp_bind, wp_intro. intros c w2.
  rewrite (lastCheckTimeOf_ok "youtube" w w1 Ht1 Hn1).
  intros E; inversion E; subst c w2.
  wp_sat getLatestVideos_same_tables; [| check_body_trivial].
  destruct (negb (fetched _)); [apply wp_ret; check_body_trivial|].
  cbv zeta. apply (check_tail_post YouTube w);
    [ unfold same_tables in *; congruence | exact I |].
  intros v. apply cursor_update_throw_keeps. now left.
Qed.

Lemma linkedin_try_post w :
  wp LinkedInService.checkForNewPosts_try (check_body_post LinkedIn w) w.
Proof.
  unfold LinkedInService.checkForNewPosts_try.
  apply wp_bind. unfold LinkedInService.isConfigured. apply wp_gets.
  destruct (negb _); [apply wp_ret; check_body_trivial|].
  apply wp_bind. eapply wp_conseq; [apply getLastUpdate_spec|]. cbv beta.
  intros [lastUpdate|e|] w1 (Hc & Ht1 & Hn1 & Hrow);
    [| check_body_trivial | contradiction].
  rewrite (Hrow _ eq_refl).
  apply wp_bind, wp_intro. intros c w2.
  rewrite (lastCheckTimeOf_ok "linkedin" w w1 Ht1 Hn1).
  intros E; inversion E; subst c w2.
  wp_sat li_scrapeProfile_same_tables; [| check_body_trivial].
  destruct (negb (fetched _)); [apply wp_ret; check_body_trivial|].
  cbv zeta. apply (check_tail_post LinkedIn w);
    [ unfold same_tables in *; congruence | exact I |].
  intros v. apply cursor_update_throw_keeps. now right.
Qed.

Lemma instagram_try_post w :
  wp InstagramService.checkForNewPosts_try (check_body_post Instagram w) w.
Proof.
  unfold InstagramService.checkForNewPosts_try.
  apply wp_bind. unfold InstagramService.isConfigured. apply wp_gets.
  destruct (negb _); [apply wp_ret; check_body_trivial|].
  apply wp_bind. eapply wp_conseq; [apply getLastUpdate_spec|]. cbv beta.
  intros [lastUpdate|e|] w1 (Hc & Ht1 & Hn1 & Hrow);
    [| check_body_trivial | contradiction].
  rewrite (Hrow _ eq_refl).
  apply wp_bind, wp_intro. intros c w2.
  rewrite (lastCheckTimeOf_ok "instagram" w w1 Ht1 Hn1).
  intros E; inversion E; subst c w2.
  apply wp_bind. eapply wp_conseq;
    [ apply wp_and;
      [apply ig_scrapeProfile_same_tables | apply ig_scrapeProfile_at_most_ten]
    |]. cbv beta.
  intros [result|e|] w2 [[Hc2 Ht2] Hten]; [| check_body_trivial | contradiction].
  destruct (negb (fetched _)); [apply wp_ret; check_body_trivial|].
  cbv zeta. apply (check_tail_post Instagram w);
    [ unfold same_tables in *; congruence | exact (Hten result eq_refl) |].
  intros v. apply cursor_update_throw_keeps. now right.
Qed.

Lemma checkForNew_post s w : wp (checkForNew s) (check_post s w) w.
Proof.
  destruct s; cbn [checkForNew].
  - unfold YouTubeService.checkForNewVideos. apply wp_try_catch.
    eapply wp_conseq; [apply youtube_try_post|]. cbv beta.
    intros [r|e|] w1 (Hc & Hthrow & Hr); [| |contradiction].
    + exists r. split; [reflexivity|].
      destruct (Hr r eq_refl) as [Hres Hfail]. split; [exact Hres|].
      intros _. exact Hfail.
    + apply wp_ret. eexists. split; [reflexivity|]. split.
      * split; [intros _; split; reflexivity | discriminate].
      * intros _ _. exact (Hthrow e eq_refl).
  - unfold InstagramService.checkForNewPosts. apply wp_try_catch.
    eapply wp_conseq; [apply instagram_try_post|]. cbv beta.
    intros [r|e|] w1 (Hc & Hthrow & Hr); [| |contradiction].
    + exists r. split; [reflexivity|].
      destruct (Hr r eq_refl) as [Hres Hfail]. split; [exact Hres|].
      intros _. exact Hfail.
    + unfold InstagramService.checkForNewPosts_catch.
      apply wp_bind, wp_try_catch.
      wp_sat updateLastCheck_anything; do 2 apply wp_ret;
        (eexists; split; [reflexivity|]);
        (split; [|intros Hne; now destruct Hne]);
        (split; [intros _; split; reflexivity | discriminate]).
  - unfold LinkedInService.checkForNewPosts. apply wp_try_catch.
    eapply wp_conseq; [apply linkedin_try_post|]. cbv beta.
    intros [r|e|] w1 (Hc & Hthrow & Hr); [| |contradiction].
    + exists r. split; [reflexivity|].
      destruct (Hr r eq_refl) as [Hres Hfail]. split; [exact Hres|].
      intros _. exact Hfail.
    + apply wp_ret. eexists. split; [reflexivity|]. split.
      * split; [intros _; split; reflexivity | discriminate].
      * intros _ _. exact (Hthrow e eq_refl).
Qed.

Lemma checkForNew_runs s w :
  exists r w',
    checkForNew s w = (Normal r, w') /\ check_result s w r /\
    (s <> Instagram -> success r = false -> tables w' = tables w).
Proof.
  pose proof (checkForNew_post s w) as Hpost. unfold wp in Hpost.
  destruct (checkForNew s w) as [c w']. cbn [fst snd] in Hpost.
  destruct Hpost as (r & -> & Hres & Hkeep). eauto.
Qed.

(** The new content of a result is among the fetched items that are newer
    than the cursor. *)
Lemma newContent_newer s w r x :
  check_result s w r ->
  In x (newContentOf r) ->
  newer_than_cursor (platformOf s) w x = true.
Proof.
  intros [Hfail Hok] Hin. destruct (success r).
  - destruct (Hok eq_refl) as (items & _ & _ & Hnew).
    unfold newContentOf in Hin. rewrite Hnew in Hin.
    apply filter_In in Hin. destruct Hin as [Hin _].
    apply filter_In in Hin. tauto.
  - destruct (Hfail eq_refl) as [Hnone _]. rewrite Hnone in Hin.
    destruct Hin.
Qed.

(** X5. No check of a source ever rejects: whatever the store, the
    network and the fetched data do, the check resolves to a result.  A
    failed result carries no new content; a successful one counts the
    fetched items, of which the new content is a part. *)
Theorem checkForNew_never_rejects (s : Source) (w : World) :
  exists r w',
    checkForNew s w = (Normal r, w') /\
    (success r = false -> newContentOf r = []) /\
    (success r = true ->
     exists n,
       totalChecked r = Some n /\
       Z.of_nat (List.length (newContentOf r)) <= n).
Proof.
  destruct (checkForNew_runs s w) as (r & w' & E & [Hfail Hok] & _).
  exists r, w'. split; [exact E|]. split; [apply Hfail|]. intros Hs.
  destruct (Hok Hs) as (items & _ & Htotal & Hnew). eexists.
  split; [exact Htotal|]. unfold newContentOf. rewrite Hnew.
  apply Nat2Z.inj_le.
  etransitivity; [apply filter_length_le | apply filter_length_le].
Qed.

(** X6. Every item a check returns as new is strictly newer than the
    cursor the check started from (the stored timestamp of the last
    content, or 24 hours before the check when there is none); its date is
    therefore a valid one. *)
Theorem checkForNew_returns_newer_only (s : Source) (w w' : World)
  (r : CheckResult) (x : ContentItem) :
  checkForNew s w = (Normal r, w') ->
  In x (newContentOf r) ->
  date_gt (item_timestamp x) (cursorOf (platformOf s) w) = true /\
  valid_date x = true.
Proof.
  intros E Hin. destruct (checkForNew_runs s w) as (r0 & w0 & E0 & Hres & _).
  rewrite E in E0. inversion E0; subst r0 w0.
  pose proof (newContent_newer s w r x Hres Hin) as Hnewer.
  unfold newer_than_cursor in Hnewer. split; [exact Hnewer|].
  unfold valid_date. destruct (item_timestamp x); [reflexivity|].
  discriminate Hnewer.
Qed.

Lemma checkForNew_returns_newer_only_witness :
  date_gt (item_timestamp (video "a" 1002)) (cursorOf "youtube" world_cursor)
  = true /\
  valid_date (video "a" 1002) = true.
Proof.
  apply (checkForNew_returns_newer_only YouTube world_cursor
           (snd (checkForNew YouTube world_cursor))
           (mkCheck true None (Some [video "a" 1002; video "b" 1001])
              (Some 3))
           (video "a" 1002)).
  - vm_compute. reflexivity.
  - left. reflexivity.
Defined.

(** X7. A check of YouTube or LinkedIn that fails leaves the tables of the
    store as they were: the cursor is written only when everything before
    has succeeded. *)
Theorem failed_check_leaves_store (s : Source) (w w' : World)
  (r : CheckResult) :
  s <> Instagram ->
  checkForNew s w = (Normal r, w') ->
  success r = false ->
  tables w' = tables w.
Proof.
  intros Hs E Hfail.
  destruct (checkForNew_runs s w) as (r0 & w0 & E0 & _ & Hkeep).
  rewrite E in E0. inversion E0; subst r0 w0. auto.
Qed.

Lemma failed_check_leaves_store_witness :
  tables (snd (checkForNew YouTube world_api_down)) = tables world_api_down.
Proof.
  apply (failed_check_leaves_store YouTube world_api_down
           (snd (checkForNew YouTube world_api_down))
           (mkCheck false (Some "Request failed with status code 403") None
              None)).
  - discriminate.
  - vm_compute. reflexivity.
  - reflexivity.
Defined.

(** X8. A check of Instagram never reports more than ten items, neither
    as checked nor as new: the poller keeps the ten most recent posts of
    the page. *)
Theorem instagram_check_at_most_ten (w : World) :
  exists r w',
    InstagramService.checkForNewPosts w = (Normal r, w') /\
    (List.length (newContentOf r) <= 10)%nat /\
    forall n, totalChecked r = Some n -> n <= 10.
Proof.
  destruct (checkForNew_runs Instagram w) as (r & w' & E & [Hfail Hok] & _).
  exists r, w'. split; [exact E|]. destruct (success r).
  - destruct (Hok eq_refl) as (items & Hten & Htotal & Hnew).
    cbn [fetch_limit] in Hten. split.
    + unfold newContentOf. rewrite Hnew.
      etransitivity; [apply filter_length_le|].
      etransitivity; [apply filter_length_le | exact Hten].
    + intros n Hn. rewrite Htotal in Hn. inversion Hn. lia.
  - destruct (Hfail eq_refl) as [-> ->]. split; [cbn; lia|].
    intros n Hn. discriminate Hn.
Qed.

Lemma cursorOf_same_rows platform v w :
  last_updates (tables v) = last_updates (tables w) ->
  forall row ts,
    Database.select_last_update platform (tables w) = Some row ->
    last_content_timestamp row = Some ts ->
    cursorOf platform v = ValidDate ts.
Proof.
  intros Hrows row ts Hrow Hts. unfold cursorOf, Database.select_last_update.
  rewrite Hrows. unfold Database.select_last_update in Hrow.
  now rewrite Hrow, Hts.
Qed.

(** X9. Once a check has succeeded with [latest] as the first fetched item,
    later checks of that source return nothing that is not strictly newer
    than [latest], for as long as the cursor row stays as that check left
    it: whatever happens to the notifications in between (they do not
    touch the cursors), an item at or behind the cursor is not returned
    again, whether or not it was announced. *)
Theorem items_behind_cursor_never_return (s : Source) (w : World)
  (items : list ContentItem) (latest : ContentItem)
  (more : list ContentItem) (ts : Z) :
  configured s w = true ->
  db_faults w = [] ->
  fetch_reply s items w ->
  kept s items = latest :: more ->
  item_timestamp latest = ValidDate ts ->
  exists r w1,
    checkForNew s w = (Normal r, w1) /\
    success r = true /\
    forall v r2 v2 x,
      last_updates (tables v) = last_updates (tables w1) ->
      checkForNew s v = (Normal r2, v2) ->
      In x (newContentOf r2) ->
      exists t, item_timestamp x = ValidDate t /\ ts < t.
Proof.
  intros Hconf Hfaults Hreply Hkept Hts.
  destruct (checkForNew_ok s w items latest more ts Hconf Hfaults Hreply
              Hkept Hts) as (r & w1 & E & Hs & _ & Hcursor).
  exists r, w1. split; [exact E|]. split; [exact Hs|].
  intros v r2 v2 x Hrows E2 Hin.
  destruct (checkForNew_runs s v) as (r0 & v0 & E0 & Hres & _).
  rewrite E2 in E0. inversion E0; subst r0 v0.
  pose proof (newContent_newer s v r2 x Hres Hin) as Hnewer.
  unfold newer_than_cursor in Hnewer.
  unfold last_content in Hcursor.
  destruct (Database.select_last_update (platformOf s) (tables w1))
    as [row|] eqn:Hrow; [|discriminate].
  inversion Hcursor as [[Hid Hrowts]].
  rewrite (cursorOf_same_rows (platformOf s) v w1 Hrows row ts Hrow Hrowts)
    in Hnewer.
  destruct (item_timestamp x) as [t|]; [|discriminate].
  exists t. split; [reflexivity|]. cbn in Hnewer. lia.
Qed.

Lemma items_behind_cursor_never_return_witness :
  exists r w1,
    checkForNew YouTube world_cursor = (Normal r, w1) /\
    success r = true /\
    forall v r2 v2 x,
      last_updates (tables v) = last_updates (tables w1) ->
      checkForNew YouTube v = (Normal r2, v2) ->
      In x (newContentOf r2) ->
      exists t, item_timestamp x = ValidDate t /\ 1002 < t.
Proof.
  apply (items_behind_cursor_never_return YouTube world_cursor three_videos
           (video "a" 1002) [video "b" 1001; video "c" 999] 1002);
    try reflexivity.
  split; [left; reflexivity | exists []; reflexivity].
Defined.

(** * The fetchers on their own *)

(** X10. [scrapeProfile] of the LinkedIn poller never rejects and makes at
    most one request, none at all when no profile url is configured.  It
    leaves the tables alone.  Every failure becomes a result without
    posts, whose error says that access is restricted: the longer message
    when a user name could be read off the profile url, the shorter one
    otherwise. *)
Theorem linkedin_scrapeProfile_resolves (w : World) :
  exists r w' d,
    LinkedInService.scrapeProfile w = (Normal r, w') /\
    tables w' = tables w /\
    trace w' = trace w ++ d /\
    (d = [] \/ d = [EvHttpGet "linkedin"]) /\
    (configured LinkedIn w = false -> d = [] /\ fetched r = false) /\
    (fetched r = false ->
     posts r = [] /\
     fetch_error r
     = Some (if truthy (LinkedInService.getUsername (profileUrl (linkedin w)))
             then li_restricted
             else "LinkedIn access restricted")).
Proof.
  destruct w as [t0 tbl faults ytr igr lir chr tr yt ig li dc les yts].
  unfold LinkedInService.scrapeProfile, LinkedInService.tryRSSFeed,
    LinkedInService.isConfigured, LinkedInService.respectRateLimit,
    LinkedInService.loadProfile, configured, li_restricted.
  set (delay := LinkedInService.rateLimitDelay). clearbody delay.
  set (getUsername := LinkedInService.getUsername). clearbody getUsername.
  run_monad.
  destruct (truthy (profileUrl li)); cbn.
  - destruct (t0 - li_lastRequestTime li <? delay); cbn;
      destruct lir as [|[msg|items] rest]; cbn;
      destruct (truthy (getUsername (profileUrl li))); cbn;
      (do 3 eexists; split; [reflexivity|]; cbn;
       split; [reflexivity|]; split; [reflexivity|];
       split; [right; reflexivity|];
       split; [discriminate|]; intros Hf; try discriminate Hf;
       split; reflexivity).
  - destruct (truthy (getUsername (profileUrl li))); cbn;
      (do 2 eexists; exists []; split; [reflexivity|]; cbn;
       rewrite app_nil_r;
       split; [reflexivity|]; split; [reflexivity|];
       split; [left; reflexivity|];
       split; [intros _; split; reflexivity|];
       intros _; split; reflexivity).
Qed.

(** X11. [respectRateLimit] of the LinkedIn poller spaces the requests:
    when it lets a request go, at least three seconds have passed since the
    request before (as long as what is left of the delay fits a timer,
    which it does unless the last request lies weeks in the future), and
    that instant is remembered as the time of the last request.  It never
    waits longer than three seconds (the clock not having been turned
    back), and touches nothing else. *)
Theorem linkedin_requests_spaced (w : World) :
  exists w',
    LinkedInService.respectRateLimit w = (Normal tt, w') /\
    li_lastRequestTime (linkedin w') = now w' /\
    (LinkedInService.rateLimitDelay
     - (now w - li_lastRequestTime (linkedin w)) <= TIMEOUT_MAX ->
     li_lastRequestTime (linkedin w) + LinkedInService.rateLimitDelay
     <= now w') /\
    now w <= now w' /\
    (li_lastRequestTime (linkedin w) <= now w ->
     now w' <= now w + LinkedInService.rateLimitDelay) /\
    (li_lastRequestTime (linkedin w) + LinkedInService.rateLimitDelay
     <= now w -> now w' = now w) /\
    tables w' = tables w /\ trace w' = trace w /\
    profileUrl (linkedin w') = profileUrl (linkedin w).
Proof.
  destruct w as [t0 tbl faults ytr igr lir chr tr yt ig li dc les yts].
  unfold LinkedInService.respectRateLimit.
  set (delay := LinkedInService.rateLimitDelay).
  assert (Hdelay : 0 <= delay <= 3000) by (subst delay; cbv; split; discriminate).
  clearbody delay. run_monad.
  destruct (Z.ltb_spec (t0 - li_lastRequestTime li) delay) as [Hwait|Hwait];
    cbn; (eexists; split; [reflexivity|]); cbn;
    [|repeat split; lia].
  pose proof (timerDelay_range (delay - (t0 - li_lastRequestTime li))).
  unfold TIMEOUT_MAX in *.
  destruct (Z_le_gt_dec (delay - (t0 - li_lastRequestTime li)) 2147483647)
    as [Hfits|Hover].
  - rewrite timerDelay_fits in * by (unfold TIMEOUT_MAX; lia).
    repeat split; lia.
  - repeat split; lia.
Qed.

(** X12. [getLatestVideos] never rejects.  Without a configuration it makes
    no request and fails with "YouTube service not configured".  With a
    configured channel id it makes exactly one request, for the playlist.
    With a handle only it first searches for the channel, and the request
    for the playlist follows exactly when the search finds a channel id;
    otherwise the fetch has failed after the search.  A failure carries
    the message of the error and no videos; a success carries the videos
    of the reply.  The tables and the clock are left alone. *)
Theorem getLatestVideos_resolves (maxResults : Z) (w : World) :
  exists r w' d,
    YouTubeService.getLatestVideos maxResults w = (Normal r, w') /\
    tables w' = tables w /\ now w' = now w /\
    trace w' = trace w ++ d /\
    (configured YouTube w = false ->
     d = [] /\ fetched r = false /\
     fetch_error r = Some "YouTube service not configured") /\
    (configured YouTube w = true ->
     if truthy (channelId (youtube w)) then d = [EvHttpGet "youtube"]
     else
       match yt_search_replies w with
       | YtChannels (Some _ :: _) :: _ =>
           d = [EvHttpGet "youtube"; EvHttpGet "youtube"]
       | _ => d = [EvHttpGet "youtube"] /\ fetched r = false
       end) /\
    (fetched r = false -> posts r = [] /\ exists msg, fetch_error r = Some msg) /\
    (fetched r = true -> fetch_reply YouTube (posts r) w).
Proof.
  assert (Hsome : forall s, truthy s = true -> exists id, s = Some id)
    by (intros [id|]; [eauto | discriminate]).
  destruct w as [t0 tbl faults ytr igr lir chr tr yt ig li dc les yts].
  unfold YouTubeService.getLatestVideos, YouTubeService.isConfigured,
    YouTubeService.getChannelId, YouTubeService.uploadsPlaylist,
    YouTubeService.playlistItems, configured, fetch_reply, channel_found.
  unfold bind, try_catch, gets, modify, emit, ret, throw, lift.
  cbn -[truthy].
  destruct (truthy (apiKey yt)); cbn -[truthy].
  2: { do 2 eexists. exists []. split; [reflexivity|]. cbn.
       rewrite app_nil_r. repeat split; try discriminate. eauto. }
  destruct (truthy (channelId yt)) eqn:Hid;
    repeat (progress (rewrite ?Hid; cbn -[truthy])).
  - destruct (Hsome _ Hid) as [id ->].
    destruct ytr as [|[videos|msg] rest]; cbn;
      (do 3 eexists; split; [reflexivity|]; cbn;
       split; [reflexivity|]; split; [reflexivity|];
       split; [reflexivity|];
       split; [discriminate|]; split; [reflexivity|];
       split; intros Hf; try discriminate Hf; eauto).
  - destruct (truthy (channelHandle yt)) eqn:Hhandle;
      repeat (progress (rewrite ?Hid, ?Hhandle; cbn -[truthy])).
    2: { do 2 eexists. exists []. split; [reflexivity|]. cbn.
         rewrite app_nil_r. repeat split; try discriminate. eauto. }
    destruct yts as [|[[|[id|] more]|msg] others];
      repeat (progress (rewrite ?Hid, ?Hhandle; cbn -[truthy]));
      try (do 3 eexists; split; [reflexivity|]; cbn;
           split; [reflexivity|]; split; [reflexivity|];
           split; [reflexivity|];
           split; [discriminate|]; split; [intros _; split; reflexivity|];
           split; intros Hf; try discriminate Hf; eauto).
    destruct ytr as [|[videos|msg] rest];
      repeat (progress (rewrite ?Hid, ?Hhandle; cbn -[truthy]));
      (do 3 eexists; split; [reflexivity|]; cbn -[truthy];
       split; [reflexivity|]; split; [reflexivity|];
       split; [rewrite <- app_assoc; reflexivity|];
       split; [discriminate|]; split; [reflexivity|];
       split; intros Hf; try discriminate Hf; eauto 10).
Qed.

(** * The scheduler on its own *)

Lemma sendErrorSummary_quiet (results : Scheduler.Results) (v : World)
  (t0 : Z) :
  lastErrorSummaryTime v = Some t0 ->
  now v - t0 <= Scheduler.oneHour ->
  Scheduler.sendErrorSummary results v = (Normal tt, v).
Proof.
  intros Hlast Hrecent. unfold Scheduler.sendErrorSummary.
  set (msg := Scheduler.errorMessage _). clearbody msg.
  assert (Hlt : (Scheduler.oneHour <? now v - t0) = false) by lia.
  unfold try_catch, bind, Date_now, gets, ret.
  destruct (Z.of_nat _ =? 0); [reflexivity|].
  rewrite Hlast. cbv beta iota. now rewrite Hlt.
Qed.

(** X13. [sendErrorSummary] never rejects and sends at most one message,
    the summary of the failed checks.  It does nothing at all when no
    check failed, and nothing when the last summary went out an hour ago
    or less.  The time of the last summary moves only when the channel
    took the message, and then to the time of the call; so a summary that
    went out silences every call of the following hour. *)
Theorem sendErrorSummary_throttled (results : Scheduler.Results) (w : World) :
  exists w',
    Scheduler.sendErrorSummary results w = (Normal tt, w') /\
    tables w' = tables w /\ now w' = now w /\
    (trace w' = trace w \/ trace w' = trace w ++ [summary_of results]) /\
    (failedChecks results = [] -> w' = w) /\
    (forall t0,
       lastErrorSummaryTime w = Some t0 ->
       now w - t0 <= Scheduler.oneHour -> w' = w) /\
    (lastErrorSummaryTime w' = lastErrorSummaryTime w \/
     lastErrorSummaryTime w' = Some (now w) /\
     trace w' = trace w ++ [summary_of results] /\
     exists m rest, channel_replies w = ChSent m :: rest) /\
    (lastErrorSummaryTime w' <> lastErrorSummaryTime w ->
     forall results2 v,
       lastErrorSummaryTime v = lastErrorSummaryTime w' ->
       now v <= now w + Scheduler.oneHour ->
       Scheduler.sendErrorSummary results2 v = (Normal tt, v)).
Proof.
  assert (Hmain : exists w',
    Scheduler.sendErrorSummary results w = (Normal tt, w') /\
    tables w' = tables w /\ now w' = now w /\
    (trace w' = trace w \/ trace w' = trace w ++ [summary_of results]) /\
    (failedChecks results = [] -> w' = w) /\
    (forall t0,
       lastErrorSummaryTime w = Some t0 ->
       now w - t0 <= Scheduler.oneHour -> w' = w) /\
    (lastErrorSummaryTime w' = lastErrorSummaryTime w \/
     lastErrorSummaryTime w' = Some (now w) /\
     trace w' = trace w ++ [summary_of results] /\
     exists m rest, channel_replies w = ChSent m :: rest)).
  { destruct w as [t0 tbl faults ytr igr lir chr tr yt ig li dc les yts].
    unfold Scheduler.sendErrorSummary, DiscordService.sendMessage,
      DiscordService.requireReady, DiscordService.channelSend, summary_of.
    fold (failedChecks results).
    set (msg := Scheduler.errorMessage _). clearbody msg.
    set (hour := Scheduler.oneHour). clearbody hour.
    run_monad.
    destruct (failedChecks results) as [|failure failures]; cbn.
    { eexists. split; [reflexivity|]. repeat split; auto. }
    assert (Hquiet : forall last,
               les = Some last -> t0 - last <= hour ->
               (hour <? t0 - match les with Some t => t | None => 0 end)
               = false).
    { intros last -> Hle. lia. }
    destruct (hour <? t0 - match les with Some t => t | None => 0 end)
      eqn:Hlt; cbn.
    2: { eexists. split; [reflexivity|].
         repeat split; auto; try discriminate. }
    destruct (negb (isReady dc) || negb (announcementChannel dc)); cbn.
    { eexists. split; [reflexivity|].
      repeat split; auto; try discriminate. }
    destruct chr as [|[m|err] rest]; cbn;
      (eexists; split; [reflexivity|]; cbn;
       split; [reflexivity|]; split; [reflexivity|];
       split; [right; reflexivity|];
       split; [intros Hnil; discriminate Hnil|];
       split;
       [ intros last Hlast Hle; discriminate (Hquiet last Hlast Hle) |]);
      first [ left; reflexivity | right; repeat split; eauto ]. }
  destruct Hmain as (w' & E & Ht & Hn & Htr & Hnone & Hrecent & Hlast).
  exists w'. repeat split; try assumption.
  intros Hmoved results2 v Hv Hnow.
  destruct Hlast as [Hsame | (Hnew & _ & _)]; [contradiction|].
  apply (sendErrorSummary_quiet results2 v (now w)); [congruence | lia].
Qed.

(** X14. [triggerManualCheck] always resolves to success: the check cycle
    it runs swallows every error, so the failure branch is never taken,
    whatever the platforms, the store and the channel did. *)
Theorem triggerManualCheck_reports_success (w : World) :
  exists w',
    Scheduler.triggerManualCheck w = (Normal true, w') /\
    Scheduler.performScheduledCheck w = (Normal tt, w').
Proof.
  pose proof (performScheduledCheck_staged w) as Hcycle. unfold wp in Hcycle.
  unfold Scheduler.triggerManualCheck, try_catch, bind.
  destruct (Scheduler.performScheduledCheck w) as [c w'].
  cbn [fst snd] in Hcycle. destruct Hcycle as [-> _].
  exists w'. split; reflexivity.
Qed.

(** X15. [performDailyCleanup] never rejects.  It leaves the cursors alone,
    adds no notification and keeps every notification younger than thirty
    days.  When the store is in order it deletes the older ones and then
    reads the statistics; when the cleanup statement fails, the tables are
    unchanged and the statistics are not read. *)
Theorem performDailyCleanup_safe (w : World) :
  exists w',
    Scheduler.performDailyCleanup w = (Normal tt, w') /\
    last_updates (tables w') = last_updates (tables w) /\
    (forall row,
       In row (sent_notifications (tables w')) ->
       In row (sent_notifications (tables w))) /\
    (forall row,
       In row (sent_notifications (tables w)) ->
       expiry w <= sent_at row ->
       In row (sent_notifications (tables w'))) /\
    (next_fault w = None ->
     (forall row,
        In row (sent_notifications (tables w')) -> expiry w <= sent_at row) /\
     trace w' = trace w ++ [EvCleanupOldNotifications; EvGetBotStats]) /\
    (next_fault w <> None ->
     tables w' = tables w /\
     trace w' = trace w ++ [EvCleanupOldNotifications]).
Proof.
  unfold Scheduler.performDailyCleanup, Database.cleanupOldNotifications,
    Database.getBotStats, try_catch, bind.
  rewrite sqlite_run. destruct (next_fault w) as [msg|] eqn:Hfault.
  - eexists. split; [reflexivity|]. cbn.
    split; [reflexivity|]. split; [auto|]. split; [auto|].
    split; [intros Hnone; discriminate Hnone | intros _; split; reflexivity].
  - rewrite sqlite_run.
    assert (Hrows : forall row,
               In row (filter (fun r => negb (sent_at r <? expiry w))
                         (sent_notifications (tables w))) <->
               In row (sent_notifications (tables w)) /\
               expiry w <= sent_at row).
    { intros row. rewrite filter_In, negb_true_iff, Z.ltb_ge. tauto. }
    destruct (next_fault (set_tables _ _)); (eexists; split; [reflexivity|]);
      cbn [tables set_tables after_call fst snd Database.delete_old_sent
           last_updates sent_notifications trace set_trace set_db_faults];
      change (Database.CURRENT_TIMESTAMP w - 2592000) with (expiry w);
      (split; [reflexivity|]);
      (split; [intros row Hin; now apply Hrows in Hin|]);
      (split; [intros row Hin Hnew; apply Hrows; tauto|]);
      (split; [|intros Hne; now destruct Hne]); intros _;
      (split; [intros row Hin; now apply Hrows in Hin|]);
      now rewrite <- app_assoc.
Qed.

(** ** Platforms that are not configured *)

#[export] Instance same_config_preorder : PreOrder same_config.
Proof.
  split; unfold same_config.
  - intros w. auto.
  - intros a b c (Hy & Hi & Hl) (Hy' & Hi' & Hl'). repeat split; congruence.
Qed.

Ltac config_leaf := unfold same_config; cbn; auto.

Lemma filterUnseen_same_config platform items :
  forall acc, sat same_config (filterUnseen platform items acc).
Proof.
  induction items as [|x rest IH]; intros acc; cbn [filterUnseen];
    sat_go config_leaf.
Qed.

Lemma ig_scrapeProfile_loop_same_config :
  forall fuel attempt,
    enough_fuel fuel attempt ->
    sat same_config (InstagramService.scrapeProfile_loop fuel attempt).
Proof. loop_induction config_leaf. Qed.

Lemma ig_scrapeProfile_same_config :
  sat same_config InstagramService.scrapeProfile.
Proof.
  apply ig_scrapeProfile_loop_same_config, enough_fuel_scrapeProfile.
Qed.

Lemma sendNotifications_items_same_config content platform items :
  sat same_config (Scheduler.sendNotifications_items content items platform).
Proof.
  induction items as [|x rest IH]; cbn [Scheduler.sendNotifications_items];
    sat_go config_leaf.
Qed.

#[export] Hint Resolve filterUnseen_same_config ig_scrapeProfile_same_config
  sendNotifications_items_same_config : sat.

Lemma checkPlatform_same_config (s : Source) (label : string)
  (acc : Scheduler.Results * Z) :
  sat same_config
    (Scheduler.checkPlatform (isConfiguredOf s) (checkForNew s) label
       (platformOf s) acc).
Proof. destruct s; cbn [isConfiguredOf checkForNew]; sat_go config_leaf. Qed.

Lemma sendErrorSummary_same_config results :
  sat same_config (Scheduler.sendErrorSummary results).
Proof. sat_go config_leaf. Qed.

Lemma configured_same_config s w w' :
  same_config w w' -> configured s w' = configured s w.
Proof.
  intros (Hy & Hi & Hl). destruct s; cbn [configured]; congruence.
Qed.

Lemma isConfiguredOf_run s w :
  isConfiguredOf s w = (Normal (configured s w), w).
Proof. destruct s; reflexivity. Qed.

Lemma stage_of_platform (s : Source) (e : Event) :
  platform_of e = Some (platformOf s) ->
  (2 * source_index (platformOf s) <= stage e
   <= 2 * source_index (platformOf s) + 1)%nat.
Proof.
  destruct e; cbn [platform_of stage]; intros E; inversion E; subst; lia.
Qed.

(** The block of a source in the cycle leaves the other sources alone, and
    does nothing at all when its own source is not configured. *)
Lemma checkPlatform_untouched (s0 s : Source) (label : string)
  (acc : Scheduler.Results * Z) (w : World) :
  configured s w = false ->
  wp (Scheduler.checkPlatform (isConfiguredOf s0) (checkForNew s0) label
        (platformOf s0) acc)
    (fun c w' =>
       (exists acc', c = Normal acc') /\
       configured s w' = false /\
       exists d, trace w' = trace w ++ d /\ untouched (platformOf s) d)
    w.
Proof.
  intros Hoff.
  destruct (configured s0 w) eqn:Hon.
  - assert (Hne : source_index (platformOf s0) <> source_index (platformOf s))
      by (destruct s0, s; cbn; congruence).
    eapply wp_conseq.
    { apply wp_and.
      - apply (checkPlatform_staged s0 (isConfiguredOf s0) label acc w).
        intros v. eexists. apply isConfiguredOf_run.
      - apply checkPlatform_same_config. }
    cbv beta. intros c w' [[Hacc (d & Htr & _ & Hstages)] [_ Hconf]].
    split; [exact Hacc|]. split.
    + now rewrite (configured_same_config s w w' Hconf).
    + exists d. split; [exact Htr|]. unfold untouched.
      eapply Forall_impl; [|exact Hstages]. cbv beta.
      intros e He Hp. apply stage_of_platform in Hp. lia.
  - apply wp_intro. intros c w'. unfold Scheduler.checkPlatform.
    rewrite (bind_run _ _ _ _ _ (isConfiguredOf_run s0 w)), Hon.
    intros E. inversion E; subst c w'. split; [eauto|].
    split; [exact Hoff|]. exists []. rewrite app_nil_r.
    split; [reflexivity | constructor].
Qed.

Lemma untouched_app platform d1 d2 :
  untouched platform d1 -> untouched platform d2 ->
  untouched platform (d1 ++ d2).
Proof. unfold untouched. intros H1 H2. apply Forall_app. auto. Qed.

(** X16. A check cycle never contacts a platform that is not configured:
    no request goes to it, no statement of the store and no message of the
    channel is about it.  The cycle completes normally, and the platform is
    as unconfigured afterwards as it was before. *)
Theorem unconfigured_platform_untouched (s : Source) (w : World) :
  configured s w = false ->
  exists w' d,
    Scheduler.performScheduledCheck w = (Normal tt, w') /\
    trace w' = trace w ++ d /\
    untouched (platformOf s) d /\
    configured s w' = false.
Proof.
  intros Hoff.
  assert (Hcycle :
    wp Scheduler.performScheduledCheck
      (fun c w' =>
         c = Normal tt /\ configured s w' = false /\
         exists d, trace w' = trace w ++ d /\ untouched (platformOf s) d) w).
  { unfold Scheduler.performScheduledCheck. apply wp_try_catch, wp_bind.
    eapply wp_conseq;
      [apply (checkPlatform_untouched YouTube s "YouTube" _ w Hoff)|].
    cbv beta. intros c w1 ([acc1 ->] & Hoff1 & d1 & Htr1 & Hd1).
    apply wp_bind.
    eapply wp_conseq;
      [apply (checkPlatform_untouched Instagram s "Instagram" _ w1 Hoff1)|].
    cbv beta. intros c w2 ([acc2 ->] & Hoff2 & d2 & Htr2 & Hd2).
    apply wp_bind.
    eapply wp_conseq;
      [apply (checkPlatform_untouched LinkedIn s "LinkedIn" _ w2 Hoff2)|].
    cbv beta. intros c w3 ([acc3 ->] & Hoff3 & d3 & Htr3 & Hd3).
    assert (H123 : exists d, trace w3 = trace w ++ d /\
                             untouched (platformOf s) d).
    { exists (d1 ++ d2 ++ d3). rewrite Htr3, Htr2, Htr1, <- !app_assoc.
      split; [reflexivity|]. repeat apply untouched_app; assumption. }
    destruct H123 as (d & Htr & Hd). cbv zeta.
    destruct (_ <? _)%nat.
    - eapply wp_conseq.
      { apply wp_and;
          [apply sendErrorSummary_stage | apply sendErrorSummary_same_config]. }
      cbv beta.
      intros c w4 [[Hc (d4 & Htr4 & Hd4)] [_ Hconf]].
      assert (Hd4' : untouched (platformOf s) d4).
      { unfold untouched. eapply Forall_impl; [|exact Hd4]. cbv beta.
        intros e He Hp. apply stage_of_platform in Hp.
        destruct s; cbn in Hp; lia. }
      assert (Hend : configured s w4 = false /\
                     exists d', trace w4 = trace w ++ d' /\
                                untouched (platformOf s) d').
      { split; [now rewrite (configured_same_config s w3 w4 Hconf)|].
        exists (d ++ d4). rewrite Htr4, Htr, <- app_assoc.
        split; [reflexivity | now apply untouched_app]. }
      destruct c as [[]|e|]; [| apply wp_ret | contradiction];
        (split; [reflexivity | exact Hend]).
    - apply wp_ret. split; [reflexivity|]. split; [exact Hoff3|].
      exists d. split; [exact Htr | exact Hd]. }
  unfold wp in Hcycle.
  destruct (Scheduler.performScheduledCheck w) as [c w'].
  cbn [fst snd] in Hcycle. destruct Hcycle as (-> & Hoff' & d & Htr & Hd).
  exists w', d. auto.
Qed.

Lemma unconfigured_platform_untouched_witness :
  exists w' d,
    Scheduler.performScheduledCheck world_cycle = (Normal tt, w') /\
    trace w' = trace world_cycle ++ d /\
    untouched "instagram" d /\
    configured Instagram w' = false.
Proof.
  apply (unconfigured_platform_untouched Instagram world_cycle).
  reflexivity.
Defined.

(** X17. The time [getNextCheckTime] computes, for a scheduler whose main
    task exists and a positive interval, is the first multiple of the
    interval that is not before now: it is now itself when now is on the
    grid, and otherwise less than one interval away. *)
Theorem getNextCheckTime_next_slot (tasks : list string)
  (checkIntervalMinutes t : Z) :
  In "main-check" tasks ->
  0 < checkIntervalMinutes ->
  0 <= t ->
  t + checkIntervalMinutes * 60 * 1000 <= 8640000000000000 ->
  exists next,
    Scheduler.getNextCheckTime tasks checkIntervalMinutes t
    = Some (ValidDate next) /\
    t <= next < t + checkIntervalMinutes * 60 * 1000 /\
    (exists k, next = k * (checkIntervalMinutes * 60 * 1000)) /\
    (forall k,
       t <= k * (checkIntervalMinutes * 60 * 1000) ->
       next <= k * (checkIntervalMinutes * 60 * 1000)).
Proof.
  intros Htask Hpos Ht Hrange.
  unfold Scheduler.getNextCheckTime, Scheduler.ceilDiv, Scheduler.timeClip.
  assert (Hmain : existsb (String.eqb "main-check") tasks = true).
  { apply existsb_exists. exists "main-check".
    split; [exact Htask | apply String.eqb_refl]. }
  rewrite Hmain. cbn [negb].
  set (m := checkIntervalMinutes * 60 * 1000) in *.
  assert (Hm : 0 < m) by lia.
  pose proof (Z.div_mod (- t) m ltac:(lia)) as Hdiv.
  pose proof (Z.mod_pos_bound (- t) m Hm) as Hmod.
  set (q := (- t) / m) in *. set (r := (- t) mod m) in *.
  clearbody q r m.
  assert (Hnext : - q * m = t + r) by lia.
  destruct (Z.eqb_spec m 0) as [Hz|_]; [lia|].
  rewrite Hnext.
  destruct (Z.leb_spec (Z.abs (t + r)) 8640000000000000) as [_|Hbig]; [|lia].
  exists (t + r). split; [reflexivity|]. split; [lia|]. split.
  - exists (- q). lia.
  - intros k Hk. destruct (Z_lt_le_dec k (- q)) as [Hlt|Hge].
    + assert ((k + 1) * m <= - q * m)
        by (apply Z.mul_le_mono_nonneg_r; lia).
      lia.
    + assert (- q * m <= k * m) by (apply Z.mul_le_mono_nonneg_r; lia).
      lia.
Qed.

Lemma getNextCheckTime_next_slot_witness :
  exists next,
    Scheduler.getNextCheckTime ["main-check"; "daily-cleanup"] 30 1000000000
    = Some (ValidDate next) /\
    1000000000 <= next < 1000000000 + 30 * 60 * 1000 /\
    (exists k, next = k * (30 * 60 * 1000)) /\
    (forall k, 1000000000 <= k * (30 * 60 * 1000) ->
               next <= k * (30 * 60 * 1000)).
Proof.
  apply (getNextCheckTime_next_slot ["main-check"; "daily-cleanup"] 30
           1000000000); [left; reflexivity | lia | lia | lia].
Defined.

(** * The dispatcher on its own *)

(** X18. [sendSocialMediaUpdate] refuses before it sends: when the client
    is not ready or has no channel, when the platform is not one of the
    three, or when the date of the item is invalid, it rejects and the
    world is exactly as it was; no message went to the channel and no
    statement to the store. *)
Theorem sendSocialMediaUpdate_refuses (content : ContentItem)
  (platform : string) (w : World) :
  connected w = false \/ known_platform platform = false \/
  valid_date content = false ->
  exists e,
    DiscordService.sendSocialMediaUpdate content platform w = (Throws e, w) /\
    (connected w = false ->
     message e
     = "Discord bot not ready or announcement channel not available") /\
    (connected w = true -> known_platform platform = false ->
     message e = ("Unknown platform: " ++ platform)%string).
Proof.
  intros Hrefuse.
  unfold DiscordService.sendSocialMediaUpdate, DiscordService.requireReady,
    YouTubeService.formatForDiscord, InstagramService.formatForDiscord,
    LinkedInService.formatForDiscord, formatEmbed, toISOString,
    connected, known_platform, valid_date in *.
  unfold try_catch, bind, gets, throw, ret, lift.
  destruct (isReady (discord w)), (announcementChannel (discord w));
    cbn [negb orb andb];
    try (eexists; split; [reflexivity|]; split;
         [reflexivity | intros Hc; discriminate Hc]).
  destruct (platform =? "youtube")%string, (platform =? "instagram")%string,
    (platform =? "linkedin")%string, (item_timestamp content);
    cbn [orb] in Hrefuse;
    try (exfalso; destruct Hrefuse as [H|[H|H]]; discriminate H);
    (eexists; split; [reflexivity|]; split;
     [intros Hc; discriminate Hc | intros _ Hk; first [reflexivity | discriminate Hk]]).
Qed.

Lemma sendSocialMediaUpdate_refuses_witness :
  exists e,
    DiscordService.sendSocialMediaUpdate (video "a" 5) "twitter" world0
    = (Throws e, world0) /\
    (connected world0 = false ->
     message e
     = "Discord bot not ready or announcement channel not available") /\
    (connected world0 = true -> known_platform "twitter" = false ->
     message e = ("Unknown platform: " ++ "twitter")%string).
Proof.
  apply (sendSocialMediaUpdate_refuses (video "a" 5) "twitter" world0).
  right. left. reflexivity.
Defined.

(** X19. When the channel takes the message, [sendSocialMediaUpdate] makes
    exactly two calls, the send and then the recording of the
    notification.  If the store records it, the call resolves to the id of
    the message, the item is on record with that id and its url, and the
    cursors are as they were.  If the store fails, the call rejects with
    the error of the store although the message is out, and the tables
    are unchanged. *)
Theorem sendSocialMediaUpdate_records (content : ContentItem)
  (platform m : string) (rest : list ChannelReply) (w : World) :
  connected w = true ->
  known_platform platform = true ->
  valid_date content = true ->
  channel_replies w = ChSent m :: rest ->
  exists c w',
    DiscordService.sendSocialMediaUpdate content platform w = (c, w') /\
    trace w'
    = trace w ++ [EvChannelSend platform (item_id content);
                  EvRecordSentNotification platform (item_id content)] /\
    channel_replies w' = rest /\
    last_updates (tables w') = last_updates (tables w) /\
    (next_fault w = None ->
     c = Normal m /\
     exists row,
       Database.select_sent platform (item_id content) (tables w') = Some row /\
       discord_message_id row = m /\
       content_url row = item_url content) /\
    (forall msg,
       next_fault w = Some msg ->
       c = Throws (Error msg) /\ tables w' = tables w).
Proof.
  intros Hconn Hknown Hvalid Hreply.
  destruct w as [t0 tbl faults ytr igr lir chr tr yt ig li dc les yts].
  unfold connected, known_platform, valid_date, next_fault in *.
  cbn in Hconn, Hreply |- *. subst chr.
  apply andb_true_iff in Hconn. destruct Hconn as [Hready Hchannel].
  unfold DiscordService.sendSocialMediaUpdate, DiscordService.requireReady,
    DiscordService.channelSend, Database.recordSentNotification,
    Database.sqlite, YouTubeService.formatForDiscord,
    InstagramService.formatForDiscord, LinkedInService.formatForDiscord,
    formatEmbed, toISOString.
  set (replace := Database.replace_sent).
  run_monad. rewrite Hready, Hchannel. cbn.
  destruct (item_timestamp content) as [ms|]; [|discriminate].
  destruct (platform =? "youtube")%string, (platform =? "instagram")%string,
    (platform =? "linkedin")%string; try discriminate Hknown.
  all: cbn; destruct faults as [|[msg|] faults]; cbn; do 2 eexists.
  all: split; [reflexivity|]; cbn; rewrite <- app_assoc.
  all: split; [reflexivity|]; split; [reflexivity|]; split; [reflexivity|].
  all: split;
    [ intros Hnone;
      first
        [ discriminate Hnone
        | split; [reflexivity|];
          subst replace; unfold Database.select_sent, Database.replace_sent;
          cbn [sent_notifications];
          rewrite find_replaced by apply is_sent_key_refl;
          eexists; split; [reflexivity|]; split; reflexivity ]
    | intros msg0 E;
      first [discriminate E | inversion E; split; reflexivity] ].
Qed.

Lemma sendSocialMediaUpdate_records_witness :
  exists c w',
    DiscordService.sendSocialMediaUpdate (video "a" 5) "youtube" world_send
    = (c, w') /\
    trace w'
    = trace world_send ++ [EvChannelSend "youtube" "a";
                           EvRecordSentNotification "youtube" "a"] /\
    channel_replies w' = [] /\
    last_updates (tables w') = last_updates (tables world_send) /\
    (next_fault world_send = None ->
     c = Normal "m1" /\
     exists row,
       Database.select_sent "youtube" "a" (tables w') = Some row /\
       discord_message_id row = "m1" /\
       content_url row = item_url (video "a" 5)) /\
    (forall msg,
       next_fault world_send = Some msg ->
       c = Throws (Error msg) /\ tables w' = tables world_send).
Proof.
  apply (sendSocialMediaUpdate_records (video "a" 5) "youtube" "m1" []
           world_send); reflexivity.
Defined.

(** * The configuration *)

(** X20. [validateConfig] accepts a configuration exactly when nothing is
    missing, that is when the Discord token and the announcement channel
    are set and so is the Instagram user name, the LinkedIn profile url,
    or the YouTube API key together with the channel id.  A configuration
    it accepts always gives the scheduler something to poll: at least one
    of the three services constructed from it is configured. *)
Theorem validateConfig_sound (config : Config.Config) (w : World) :
  constructed_from config w ->
  (Config.isValid (Config.validateConfig config) = true <->
   Config.missing (Config.validateConfig config) = []) /\
  (Config.isValid (Config.validateConfig config) = true <->
   truthy (Config.token (Config.cfg_discord config)) = true /\
   truthy (Config.announcementChannelId (Config.cfg_discord config)) = true /\
   (truthy (Config.ig_username
              (Config.sm_instagram (Config.socialMedia config))) = true \/
    truthy (Config.li_profileUrl
              (Config.sm_linkedin (Config.socialMedia config))) = true \/
    truthy (apiKey (Config.sm_youtube (Config.socialMedia config))) = true /\
    truthy (channelId (Config.sm_youtube (Config.socialMedia config)))
    = true)) /\
  (Config.isValid (Config.validateConfig config) = true ->
   exists s, configured s w = true).
Proof.
  intros (Hy & Hi & Hl).
  destruct config as [[tok cid gid chan hook] [[igu iga] [lip lia] [key ch hd]]].
  unfold YouTubeService.constructor, InstagramService.constructor,
    LinkedInService.constructor in *.
  cbn in Hy, Hi, Hl.
  assert (Hsources : forall s, configured s w =
            match s with
            | YouTube => truthy key && (truthy ch || truthy hd)
            | Instagram => truthy igu
            | LinkedIn => truthy lip
            end).
  { intros s. destruct s; cbn [configured]; now rewrite ?Hy, ?Hi, ?Hl. }
  unfold Config.validateConfig. cbn.
  destruct (truthy tok), (truthy chan), (truthy igu) eqn:Higu,
    (truthy lip) eqn:Hlip, (truthy key) eqn:Hkey, (truthy ch) eqn:Hch; cbn.
  all: split; [split; intros H; first [reflexivity | discriminate H]|].
  all: split;
    [ split;
      [ intros H; first [discriminate H | tauto]
      | intros (Ht & Hc & Hs);
        first
          [ reflexivity | discriminate Ht | discriminate Hc
          | destruct Hs as [Hs|[Hs|[Hs Hs']]];
            first [discriminate Hs | discriminate Hs'] ] ]
    | intros H; try discriminate H ].
  all: first
         [ exists Instagram; rewrite Hsources; reflexivity
         | exists LinkedIn; rewrite Hsources; reflexivity
         | exists YouTube; rewrite Hsources; reflexivity ].
Qed.

Lemma validateConfig_sound_witness :
  (Config.isValid (Config.validateConfig config0) = true <->
   Config.missing (Config.validateConfig config0) = []) /\
  (Config.isValid (Config.validateConfig config0) = true <->
   truthy (Config.token (Config.cfg_discord config0)) = true /\
   truthy (Config.announcementChannelId (Config.cfg_discord config0)) = true /\
   (truthy (Config.ig_username
              (Config.sm_instagram (Config.socialMedia config0))) = true \/
    truthy (Config.li_profileUrl
              (Config.sm_linkedin (Config.socialMedia config0))) = true \/
    truthy (apiKey (Config.sm_youtube (Config.socialMedia config0))) = true /\
    truthy (channelId (Config.sm_youtube (Config.socialMedia config0)))
    = true)) /\
  (Config.isValid (Config.validateConfig config0) = true ->
   exists s, configured s world0 = true).
Proof.
  apply (validateConfig_sound config0 world0).
  repeat split.
Defined.

(** * The text helpers *)

Lemma trimStart_spec (s : JsString) :
  exists white,
    s = white ++ trimStart s /\
    forallb isWhiteSpace white = true /\
    forall c, hd_error (trimStart s) = Some c -> isWhiteSpace c = false.
Proof.
  induction s as [|c s IH]; cbn [trimStart].
  - exists []. repeat split. intros c E. discriminate E.
  - destruct (isWhiteSpace c) eqn:Hc.
    + destruct IH as (white & Hs & Hwhite & Hhead). exists (c :: white).
      cbn [app forallb]. rewrite Hc, Hwhite, <- Hs. repeat split.
      exact Hhead.
    + exists []. repeat split. intros c' E. inversion E. congruence.
Qed.

Lemma forallb_rev {A} (f : A -> bool) (l : list A) :
  forallb f l = true -> forallb f (rev l) = true.
Proof.
  rewrite !forallb_forall. intros H x Hx. apply H. now apply in_rev.
Qed.

Lemma trim_spec (s : JsString) :
  exists white white',
    s = white ++ trim s ++ white' /\
    forallb isWhiteSpace white = true /\
    forallb isWhiteSpace white' = true /\
    trimmed (trim s).
Proof.
  destruct (trimStart_spec s) as (white & Hs & Hwhite & Hhead).
  destruct (trimStart_spec (rev (trimStart s))) as (etihw & Hr & Hetihw & Hlast).
  exists white, (rev etihw). unfold trim, trimEnd.
  assert (Ht : trimStart s
               = rev (trimStart (rev (trimStart s))) ++ rev etihw).
  { rewrite <- rev_app_distr, <- Hr. now rewrite rev_involutive. }
  split; [now rewrite <- Ht|]. split; [exact Hwhite|].
  split; [now apply forallb_rev|]. split.
  - intros c Hc. apply Hhead. rewrite Ht.
    destruct (rev (trimStart (rev (trimStart s)))); [discriminate Hc|].
    exact Hc.
  - intros c Hc. rewrite rev_involutive in Hc. now apply Hlast.
Qed.

Lemma js_substring_prefix (n : Z) (s : JsString) :
  0 <= n < Z.of_nat (List.length s) ->
  js_substring 0 n s = firstn (Z.to_nat n) s /\
  List.length (firstn (Z.to_nat n) s) = Z.to_nat n.
Proof.
  intros Hn. unfold js_substring.
  replace (Nat.min (Z.to_nat 0) (List.length s)) with 0%nat by (cbn; lia).
  replace (Nat.min (Z.to_nat n) (List.length s)) with (Z.to_nat n) by lia.
  cbn [skipn]. rewrite Nat.max_0_l, Nat.min_0_l, Nat.sub_0_r.
  split; [reflexivity|]. rewrite length_firstn. lia.
Qed.

Lemma cut_to_holds (fallback : string) (text : option JsString)
  (maxLength : Z) :
  0 <= maxLength ->
  cut_to fallback text maxLength
    match text with
    | None | Some [] => units fallback
    | Some s =>
        if Z.of_nat (List.length s) <=? maxLength then s
        else trim (js_substring 0 maxLength s) ++ units "..."
    end.
Proof.
  intros Hmax. unfold cut_to. destruct text as [[|c s]|]; try reflexivity.
  set (text := c :: s).
  destruct (Z.leb_spec (Z.of_nat (List.length text)) maxLength) as [Hfits|Hlong].
  - split; [reflexivity | lia].
  - split; [lia|]. intros _.
    destruct (js_substring_prefix maxLength text ltac:(lia)) as [-> Hlen].
    destruct (trim_spec (firstn (Z.to_nat maxLength) text))
      as (white & white' & Hcut & Hwhite & Hwhite' & Htrimmed).
    assert (Hsize : (List.length white
                     + List.length (trim (firstn (Z.to_nat maxLength) text))
                     + List.length white')%nat = Z.to_nat maxLength).
    { pose proof (f_equal (@List.length N) Hcut) as Hl.
      rewrite !length_app in Hl. lia. }
    split.
    + rewrite length_app. cbn [units List.length list_ascii_of_string map].
      lia.
    + exists white, (trim (firstn (Z.to_nat maxLength) text)), white',
        (skipn (Z.to_nat maxLength) text).
      split; [reflexivity|]. split.
      * rewrite <- (firstn_skipn (Z.to_nat maxLength) text) at 1.
        transitivity
          ((white ++ trim (firstn (Z.to_nat maxLength) text) ++ white')
           ++ skipn (Z.to_nat maxLength) text);
          [f_equal; exact Hcut | now rewrite <- !app_assoc].
      * split; [rewrite !length_app; lia|]. auto.
Qed.

(** X21. The three text helpers ([truncateDescription], [truncateCaption],
    [truncateContent]) never return more than [maxLength + 3] code units
    for a text that is too long: they return its first [maxLength] code
    units without the white space at their ends, followed by three dots.
    A text that fits is returned as it is, and a missing or empty one is
    replaced by the placeholder of the helper. *)
Theorem truncation_is_bounded (text : option JsString) (maxLength : Z) :
  0 <= maxLength ->
  cut_to "No description available" text maxLength
    (YouTubeService.truncateDescription text maxLength) /\
  cut_to "No caption" text maxLength
    (InstagramService.truncateCaption text maxLength) /\
  cut_to "No content available" text maxLength
    (LinkedInService.truncateContent text maxLength).
Proof.
  intros Hmax. repeat split; apply cut_to_holds, Hmax.
Qed.

Lemma truncation_is_bounded_witness :
  cut_to "No description available" (Some sample_text) 12
    (YouTubeService.truncateDescription (Some sample_text) 12) /\
  cut_to "No caption" (Some sample_text) 12
    (InstagramService.truncateCaption (Some sample_text) 12) /\
  cut_to "No content available" (Some sample_text) 12
    (LinkedInService.truncateContent (Some sample_text) 12).
Proof.
  apply (truncation_is_bounded (Some sample_text) 12). lia.
Defined.

(** The text is cut after "Hello brave ", the space at the end goes, the
    dots come. *)
Example truncateDescription_sample :
  YouTubeService.truncateDescription (Some sample_text) 12
  = units "Hello brave...".
Proof. reflexivity. Qed.

Lemma afterLiteral_spec (p s r : string) :
  LinkedInService.afterLiteral p s = Some r <-> s = (p ++ r)%string.
Proof.
  revert s. induction p as [|a p IH]; intros s; cbn.
  - split; intros E; [now inversion E | now subst].
  - destruct s as [|b s]; [split; discriminate|].
    destruct (Ascii.eqb_spec a b) as [->|Hne].
    + rewrite IH. split; intros E; [now subst | now inversion E].
    + split; [discriminate|]. intros E. inversion E. congruence.
Qed.

Lemma untilSlash_spec (s : string) :
  exists rest,
    s = (LinkedInService.untilSlash s ++ rest)%string /\
    at_slash rest /\ no_slash (LinkedInService.untilSlash s).
Proof.
  induction s as [|c s IH]; cbn [LinkedInService.untilSlash].
  - exists "". repeat split; [now left | intros c []].
  - destruct (Ascii.eqb_spec c "/") as [->|Hne].
    + exists (String "/" s). repeat split; [right; eauto | intros c []].
    + destruct IH as (rest & Hs & Hrest & Hno). exists rest. cbn.
      rewrite <- Hs. repeat split; [exact Hrest|].
      intros c' [<-|Hin]; [exact Hne | now apply Hno].
Qed.

Lemma matchProfileUrl_sound (url name : string) :
  LinkedInService.matchProfileUrl url = Some name ->
  name <> "" /\ no_slash name /\
  exists pre post,
    url = (pre ++ "linkedin.com/in/" ++ name ++ post)%string /\
    at_slash post.
Proof.
  induction url as [|c url IH]; cbn [LinkedInService.matchProfileUrl].
  - cbn. discriminate.
  - destruct (LinkedInService.afterLiteral "linkedin.com/in/" (String c url))
      as [rest|] eqn:Hlit.
    + destruct (untilSlash_spec rest) as (post & Hrest & Hpost & Hno).
      destruct (LinkedInService.untilSlash rest) as [|g group] eqn:Hgroup.
      * intros E. destruct (IH E) as (Hne & Hslash & pre & post' & -> & Hat).
        split; [exact Hne|]. split; [exact Hslash|].
        exists (String c pre), post'. split; [reflexivity | exact Hat].
      * intros E. inversion E; subst name. split; [discriminate|].
        split; [exact Hno|]. exists "", post.
        apply afterLiteral_spec in Hlit. rewrite Hlit, Hrest.
        split; [reflexivity | exact Hpost].
    + intros E. destruct (IH E) as (Hne & Hslash & pre & post' & -> & Hat).
      split; [exact Hne|]. split; [exact Hslash|].
      exists (String c pre), post'. split; [reflexivity | exact Hat].
Qed.

Lemma matchProfileUrl_complete (pre : string) :
  forall url c rest,
    url = (pre ++ "linkedin.com/in/" ++ String c rest)%string ->
    c <> "/"%char ->
    exists name, LinkedInService.matchProfileUrl url = Some name.
Proof.
  induction pre as [|a pre IH]; intros url c rest -> Hc.
  - cbn [append]. unfold LinkedInService.matchProfileUrl.
    assert (Hlit : LinkedInService.afterLiteral "linkedin.com/in/"
                     ("linkedin.com/in/" ++ String c rest)%string
                   = Some (String c rest))
      by now apply afterLiteral_spec.
    cbn [append] in Hlit. rewrite Hlit.
    cbn [LinkedInService.untilSlash].
    destruct (Ascii.eqb_spec c "/"); [contradiction|]. eauto.
  - cbn [append LinkedInService.matchProfileUrl].
    destruct (IH _ c rest eq_refl Hc) as [name Hname].
    cbn [append] in Hname. rewrite Hname.
    destruct (LinkedInService.afterLiteral _ _) as [r|]; [|eauto].
    destruct (LinkedInService.untilSlash r); eauto.
Qed.

(** X22. [getUsername] returns the path segment that follows
    "linkedin.com/in/" in the profile url: a non-empty name without a
    slash, followed in the url by a slash or by nothing.  It finds one
    whenever the url holds "linkedin.com/in/" followed by anything but a
    slash, and returns nothing when there is no url. *)
Theorem getUsername_extracts (profileUrl : option string) :
  (forall name,
     LinkedInService.getUsername profileUrl = Some name ->
     name <> "" /\ no_slash name /\
     exists url pre post,
       profileUrl = Some url /\
       url = (pre ++ "linkedin.com/in/" ++ name ++ post)%string /\
       at_slash post) /\
  (forall url pre c rest,
     profileUrl = Some url ->
     url = (pre ++ "linkedin.com/in/" ++ String c rest)%string ->
     c <> "/"%char ->
     exists name, LinkedInService.getUsername profileUrl = Some name) /\
  (truthy profileUrl = false -> LinkedInService.getUsername profileUrl = None).
Proof.
  unfold LinkedInService.getUsername. split; [|split].
  - intros name. destruct (truthy profileUrl); cbn [negb]; [|discriminate].
    destruct profileUrl as [url|]; [|discriminate]. intros E.
    destruct (matchProfileUrl_sound url name E)
      as (Hne & Hslash & pre & post & Hurl & Hat).
    split; [exact Hne|]. split; [exact Hslash|].
    exists url, pre, post. auto.
  - intros url pre c rest -> Hurl Hc.
    assert (Htruthy : truthy (Some url) = true).
    { cbn [truthy]. destruct url; [|reflexivity].
      destruct pre; discriminate Hurl. }
    rewrite Htruthy. cbn [negb].
    exact (matchProfileUrl_complete pre url c rest Hurl Hc).
  - intros ->. reflexivity.
Qed.

Example getUsername_sample :
  LinkedInService.getUsername
    (Some "https://www.linkedin.com/in/john-doe/recent-activity/")
  = Some "john-doe".
Proof. reflexivity. Qed.

(** * Batches of notifications *)

#[export] Instance same_cursors_preorder : PreOrder same_cursors.
Proof.
  split; unfold same_cursors; [intros w | intros a b c Hab Hbc]; congruence.
Qed.

Ltac cursors_leaf := unfold same_cursors; cbn; reflexivity.

#[export] Instance sent_grows_preorder : PreOrder sent_grows.
Proof. split; unfold sent_grows; [intros w | intros a b c Hab Hbc]; auto. Qed.

Lemma sent_grows_replace platform contentId url m w :
  sent_grows w
    (set_tables
       (Database.replace_sent platform contentId url m
          (Database.CURRENT_TIMESTAMP w) (tables w)) w).
Proof.
  intros p i Hsent. cbn [tables set_tables].
  destruct (string_dec p platform) as [->|Hp];
    [destruct (string_dec i contentId) as [->|Hi]|].
  - apply replace_sent_already_sent.
  - unfold already_sent in *. rewrite select_sent_other; [exact Hsent|].
    intros E. inversion E. contradiction.
  - unfold already_sent in *. rewrite select_sent_other; [exact Hsent|].
    intros E. inversion E. contradiction.
Qed.

Ltac grows_leaf :=
  first [ apply sent_grows_replace
        | unfold sent_grows; cbn; intros; assumption ].

Lemma sendNotifications_items_same_cursors content platform items :
  sat same_cursors (Scheduler.sendNotifications_items content items platform).
Proof.
  induction items as [|x rest IH]; cbn [Scheduler.sendNotifications_items];
    sat_go cursors_leaf.
Qed.

Lemma sendNotifications_items_sent_grows content platform items :
  sat sent_grows (Scheduler.sendNotifications_items content items platform).
Proof.
  induction items as [|x rest IH]; cbn [Scheduler.sendNotifications_items];
    sat_go grows_leaf.
Qed.

Lemma sendNotifications_items_clock_le content platform items :
  sat clock_le (Scheduler.sendNotifications_items content items platform).
Proof.
  induction items as [|x rest IH]; cbn [Scheduler.sendNotifications_items];
    sat_go clock_le_leaf.
Qed.

Lemma sendNotifications_items_normal content platform items :
  forall w,
    wp (Scheduler.sendNotifications_items content items platform)
      (fun c _ => c = Normal tt) w.
Proof.
  induction items as [|x rest IH]; intros w;
    cbn [Scheduler.sendNotifications_items].
  - now apply wp_ret.
  - apply wp_bind, wp_try_catch.
    eapply wp_conseq.
    { refine ((_ : sat anything _) w). sat_go anything_leaf. }
    cbv beta. intros [u|e|] w1 [Hc _]; [| |contradiction].
    + apply IH.
    + apply wp_ret, IH.
Qed.

(** X23. [sendNotifications] never rejects, whatever the channel and the
    store do to the single sends.  It leaves every cursor as it was, does
    not turn the clock back, and forgets no notification that was on
    record. *)
Theorem sendNotifications_keeps_cursors (content : list ContentItem)
  (platform : string) (w : World) :
  exists w',
    Scheduler.sendNotifications content platform w = (Normal tt, w') /\
    last_updates (tables w') = last_updates (tables w) /\
    now w <= now w' /\
    forall p i,
      already_sent p i (tables w) = true ->
      already_sent p i (tables w') = true.
Proof.
  pose proof (sendNotifications_items_normal content platform content w)
    as Hnormal.
  pose proof (sendNotifications_items_same_cursors content platform content w)
    as Hcursors.
  pose proof (sendNotifications_items_sent_grows content platform content w)
    as Hgrows.
  pose proof (sendNotifications_items_clock_le content platform content w)
    as Hclock.
  unfold wp in *. unfold Scheduler.sendNotifications, try_catch.
  destruct (Scheduler.sendNotifications_items content content platform w)
    as [c w'].
  cbn [fst snd] in *. subst c. exists w'.
  split; [reflexivity|]. split; [apply Hcursors|].
  split; [apply Hclock | apply Hgrows].
Qed.

Lemma sendSocialMediaUpdate_offline content platform w :
  connected w = false ->
  exists e, DiscordService.sendSocialMediaUpdate content platform w
            = (Throws e, w).
Proof.
  intros Hoff.
  unfold DiscordService.sendSocialMediaUpdate, DiscordService.requireReady,
    connected in *.
  unfold try_catch, bind, gets, throw, ret.
  destruct (isReady (discord w)), (announcementChannel (discord w));
    try discriminate Hoff; cbn [negb orb]; eexists; reflexivity.
Qed.

(** X24. While the Discord client is not ready or has no channel,
    [sendNotifications] drops the whole batch: it completes normally and
    the world is exactly as it was, with nothing sent, nothing recorded
    and no pause taken. *)
Theorem sendNotifications_offline_drops_batch (content : list ContentItem)
  (platform : string) (w : World) :
  connected w = false ->
  Scheduler.sendNotifications content platform w = (Normal tt, w).
Proof.
  intros Hoff.
  assert (Hitems : forall items,
             Scheduler.sendNotifications_items content items platform w
             = (Normal tt, w)).
  { induction items as [|x rest IH]; [reflexivity|].
    cbn [Scheduler.sendNotifications_items].
    destruct (sendSocialMediaUpdate_offline x platform w Hoff) as [e He].
    unfold bind at 1. unfold try_catch, bind at 1. rewrite He. exact IH. }
  unfold Scheduler.sendNotifications, try_catch. now rewrite Hitems.
Qed.

Lemma sendNotifications_offline_drops_batch_witness :
  Scheduler.sendNotifications two_videos "youtube" world_offline
  = (Normal tt, world_offline).
Proof.
  apply (sendNotifications_offline_drops_batch two_videos "youtube"
           world_offline).
  reflexivity.
Defined.

(** [sendNotifications] resolves and leaves the cursors alone. *)
Lemma sendNotifications_same_cursors content platform w :
  exists w',
    Scheduler.sendNotifications content platform w = (Normal tt, w') /\
    same_cursors w w'.
Proof.
  pose proof (sendNotifications_items_normal content platform content w)
    as Hnormal.
  pose proof (sendNotifications_items_same_cursors content platform content w)
    as Hcursors.
  unfold wp in *. unfold Scheduler.sendNotifications, try_catch.
  destruct (Scheduler.sendNotifications_items content content platform w)
    as [c w'].
  cbn [fst snd] in *. subst c. exists w'.
  split; [reflexivity | apply Hcursors].
Qed.

(** C9, as the code has it. If the channel rejects the message of an item,
    [sendSocialMediaUpdate] raises the error, leaves the tables as they
    were and makes no [recordSentNotification] call, so the item is as
    unrecorded as before.  And [sendNotifications] hands every item of a
    batch to the channel, in order, whichever of the sends fail (Discord
    connected, a known platform, items with valid dates), and never
    raises.  The item of a failed send is not kept for a later cycle: the
    check that reported it has moved the cursor to [latest], the first
    item of its fetch, and the sends leave the cursors alone, so for as
    long as the cursor row stays, later checks report only items strictly
    newer than [latest], and never [latest] itself. *)
Theorem failed_send_is_isolated :
  (forall content platform w,
     next_send_fails w = true ->
     exists e w' d,
       DiscordService.sendSocialMediaUpdate content platform w
       = (Throws e, w') /\
       tables w' = tables w /\
       trace w' = trace w ++ d /\
       Forall (eq (EvChannelSend platform (item_id content))) d /\
       already_sent platform (item_id content) (tables w')
       = already_sent platform (item_id content) (tables w)) /\
  (forall content platform w,
     connected w = true ->
     known_platform platform = true ->
     forallb valid_date content = true ->
     exists w' d,
       Scheduler.sendNotifications content platform w = (Normal tt, w') /\
       trace w' = trace w ++ d /\
       dispatched d = map item_id content) /\
  (forall s w items latest more ts,
     configured s w = true ->
     db_faults w = [] ->
     fetch_reply s items w ->
     kept s items = latest :: more ->
     item_timestamp latest = ValidDate ts ->
     exists r w1 w2,
       checkForNew s w = (Normal r, w1) /\
       success r = true /\
       Scheduler.sendNotifications (newContentOf r) (platformOf s) w1
       = (Normal tt, w2) /\
       forall v r2 v2,
         last_updates (tables v) = last_updates (tables w2) ->
         checkForNew s v = (Normal r2, v2) ->
         (forall x,
            In x (newContentOf r2) ->
            exists t, item_timestamp x = ValidDate t /\ ts < t) /\
         ~ In latest (newContentOf r2)).
Proof.
  split; [|split].
  - intros content platform w Hfails.
    pose proof (sendSocialMediaUpdate_fails content platform w Hfails) as Hs.
    unfold wp in Hs.
    destruct (DiscordService.sendSocialMediaUpdate content platform w)
      as [c w'].
    cbn [fst snd] in Hs. destruct Hs as ((e & ->) & Ht & d & Htr & Hd).
    exists e, w', d. repeat split; try assumption. now rewrite Ht.
  - intros content platform w Hconn Hknown Hvalid.
    pose proof (sendNotifications_items_dispatches content platform content
                  w Hconn Hknown Hvalid) as Hs.
    unfold wp in Hs. unfold Scheduler.sendNotifications, try_catch.
    destruct (Scheduler.sendNotifications_items content content platform w)
      as [c w'].
    cbn [fst snd] in Hs. destruct Hs as (-> & _ & d & Htr & Hd).
    exists w', d. repeat split; assumption.
  - intros s w items latest more ts Hconf Hfaults Hreply Hkept Hts.
    destruct (checkForNew_ok s w items latest more ts Hconf Hfaults Hreply
                Hkept Hts) as (r & w1 & E & Hs & _ & Hcursor).
    destruct (sendNotifications_same_cursors (newContentOf r) (platformOf s)
                w1) as (w2 & Esend & Hsame).
    exists r, w1, w2. split; [exact E|]. split; [exact Hs|].
    split; [exact Esend|].
    intros v r2 v2 Hrows E2.
    assert (Hnewer : forall x,
               In x (newContentOf r2) ->
               exists t, item_timestamp x = ValidDate t /\ ts < t).
    { intros x Hin.
      destruct (checkForNew_runs s v) as (r0 & v0 & E0 & Hres & _).
      rewrite E2 in E0. inversion E0; subst r0 v0.
      pose proof (newContent_newer s v r2 x Hres Hin) as Hnewer.
      unfold newer_than_cursor in Hnewer.
      unfold last_content in Hcursor.
      destruct (Database.select_last_update (platformOf s) (tables w1))
        as [row|] eqn:Hrow; [|discriminate].
      inversion Hcursor as [[Hid Hrowts]].
      unfold same_cursors in Hsame. rewrite Hsame in Hrows.
      rewrite (cursorOf_same_rows (platformOf s) v w1 Hrows row ts Hrow
                 Hrowts) in Hnewer.
      destruct (item_timestamp x) as [t|]; [|discriminate].
      exists t. split; [reflexivity|]. cbn in Hnewer. lia. }
    split; [exact Hnewer|]. intros Hin.
    destruct (Hnewer latest Hin) as (t & Ht & Hlt).
    rewrite Hts in Ht. inversion Ht. lia.
Qed.

Lemma failed_send_is_isolated_witness :
  (exists e w' d,
     DiscordService.sendSocialMediaUpdate (video "x" 999999000) "youtube"
       world_batch = (Throws e, w') /\
     tables w' = tables world_batch /\
     trace w' = trace world_batch ++ d /\
     Forall (eq (EvChannelSend "youtube" "x")) d /\
     already_sent "youtube" "x" (tables w')
     = already_sent "youtube" "x" (tables world_batch)) /\
  (exists w' d,
     Scheduler.sendNotifications two_videos "youtube" world_batch
     = (Normal tt, w') /\
     trace w' = trace world_batch ++ d /\
     dispatched d = ["x"; "y"]) /\
  (exists r w1 w2,
     checkForNew YouTube world_lost = (Normal r, w1) /\
     success r = true /\
     Scheduler.sendNotifications (newContentOf r) "youtube" w1
     = (Normal tt, w2) /\
     forall v r2 v2,
       last_updates (tables v) = last_updates (tables w2) ->
       checkForNew YouTube v = (Normal r2, v2) ->
       (forall x,
          In x (newContentOf r2) ->
          exists t, item_timestamp x = ValidDate t /\ 999999000 < t) /\
       ~ In (video "x" 999999000) (newContentOf r2)).
Proof.
  destruct failed_send_is_isolated as (Hfail & Hbatch & Hlost).
  split; [|split].
  - apply (Hfail (video "x" 999999000) "youtube" world_batch). reflexivity.
  - apply (Hbatch two_videos "youtube" world_batch); reflexivity.
  - apply (Hlost YouTube world_lost [video "x" 999999000]
             (video "x" 999999000) [] 999999000);
      try reflexivity.
    split; [left; reflexivity | eexists; reflexivity].
Defined.

(** C9 as stated fails: the item of a failed send is not eligible for a
    future cycle.  In the first cycle the video "x" is fetched, the cursor
    is moved to it and the channel rejects its message; the second cycle
    fetches "x" again and does not hand it to the channel, although the
    channel would accept the message and "x" has no notification on
    record. *)
Lemma failed_send_is_lost_counterexample :
  exists w1 w2,
    Scheduler.performScheduledCheck world_lost = (Normal tt, w1) /\
    trace w1
    = [EvGetLastUpdate "youtube"; EvHttpGet "youtube";
       EvIsNotificationSent "youtube" "x";
       EvUpdateLastCheck "youtube" (Some "x") (Some 999999000);
       EvChannelSend "youtube" "x"] /\
    already_sent "youtube" "x" (tables w1) = false /\
    next_send_fails w1 = false /\
    Scheduler.performScheduledCheck w1 = (Normal tt, w2) /\
    trace w2
    = trace w1
      ++ [EvGetLastUpdate "youtube"; EvHttpGet "youtube";
          EvUpdateLastCheck "youtube" (Some "x") (Some 999999000)] /\
    dispatched (trace w2) = ["x"] /\
    already_sent "youtube" "x" (tables w2) = false.
Proof.
  do 2 eexists. split; [vm_compute; reflexivity|].
  split; [reflexivity|]. split; [reflexivity|]. split; [reflexivity|].
  split; [vm_compute; reflexivity|]. repeat split.
Qed.

(** * The backoff of the Instagram poller *)

Lemma scrapeProfile_try_page w :
  configured Instagram w = true ->
  wp InstagramService.scrapeProfile_try
    (fun c w' =>
       configured Instagram w' = true /\
       match c with
       | Normal r =>
           exists jsonData,
             ig_replies w = IgLoaded jsonData :: ig_replies w' /\
             r = page_result jsonData /\
             failureCount (instagram w') = 0
       | Throws _ =>
           failureCount (instagram w') = failureCount (instagram w) /\
           forall n,
             first_page (S n) (ig_replies w) = first_page n (ig_replies w')
       | OutOfFuel => False
       end)
    w.
Proof.
  intros Hconf. apply wp_intro. intros c w'.
  unfold InstagramService.scrapeProfile_try, InstagramService.isConfigured,
    InstagramService.respectRateLimit, InstagramService.loadProfile,
    page_result.
  set (delay := InstagramService.currentDelay). clearbody delay.
  set (parse := InstagramService.parseInstagramData). clearbody parse.
  destruct w as [t0 tbl faults ytr igr lir chr tr yt ig li dc les yts].
  cbn [configured instagram] in Hconf. run_monad. rewrite Hconf. cbn.
  destruct (t0 - ig_lastRequestTime ig <? delay _); cbn;
    destruct igr as [|[m st|[data|]] rest]; cbn;
    intros E; inversion E; subst; cbn; eauto.
Qed.

Lemma backoff_outcome_next n w w2 r w' :
  (forall k, first_page (S k) (ig_replies w) = first_page k (ig_replies w2)) ->
  failureCount (instagram w2) = failureCount (instagram w) + 1 ->
  backoff_outcome n w2 r w' ->
  backoff_outcome (S n) w r w'.
Proof.
  unfold backoff_outcome. intros Hpage Hcount. rewrite (Hpage n).
  destruct (first_page n (ig_replies w2)) as [[jsonData rest]|]; [auto|].
  intros (Hf & Hp & Hc). repeat split; try assumption. lia.
Qed.

Lemma scrapeProfile_loop_page :
  forall fuel attempt w,
    enough_fuel fuel attempt ->
    0 <= attempt <= InstagramService.maxRetries ->
    configured Instagram w = true ->
    wp (InstagramService.scrapeProfile_loop fuel attempt)
      (fun c w' =>
         exists r,
           c = Normal r /\
           backoff_outcome (Z.to_nat (InstagramService.maxRetries - attempt))
             w r w')
      w.
Proof.
  induction fuel as [|fuel IH]; intros attempt w Hfuel Hattempt Hconf.
  { exfalso. unfold enough_fuel in Hfuel. lia. }
  cbn [InstagramService.scrapeProfile_loop].
  destruct (Z.ltb_spec attempt InstagramService.maxRetries) as [Hlt|Hge].
  2: { apply wp_ret. eexists. split; [reflexivity|].
       replace (InstagramService.maxRetries - attempt) with 0 by lia.
       unfold backoff_outcome. cbn. repeat split. lia. }
  replace (Z.to_nat (InstagramService.maxRetries - attempt))
    with (S (Z.to_nat (InstagramService.maxRetries - (attempt + 1))))
    by lia.
  set (n := Z.to_nat (InstagramService.maxRetries - (attempt + 1))).
  assert (Hn : Z.of_nat n = InstagramService.maxRetries - (attempt + 1))
    by (subst n; lia).
  apply wp_try_catch.
  eapply wp_conseq; [apply (scrapeProfile_try_page w Hconf)|]. cbv beta.
  intros [r|e|] w1 [Hconf1 Hpage]; [| |contradiction].
  { destruct Hpage as (jsonData & Hreplies & Hr & Hzero).
    exists r. split; [reflexivity|]. unfold backoff_outcome.
    rewrite Hreplies. cbn [first_page]. auto. }
  destruct Hpage as [Hcount Hpage].
  apply wp_bind, wp_modify. cbv zeta.
  assert (Hnext : forall w2,
             configured Instagram w2 = true ->
             ig_replies w2 = ig_replies w1 ->
             failureCount (instagram w2) = failureCount (instagram w) + 1 ->
             attempt + 1 < InstagramService.maxRetries ->
             wp (InstagramService.scrapeProfile_loop fuel (attempt + 1))
               (fun c w' =>
                  exists r, c = Normal r /\ backoff_outcome (S n) w r w') w2).
  { intros w2 Hconf2 Hreplies Hw2 Hmore. eapply wp_conseq.
    - apply IH; [apply enough_fuel_next; [exact Hfuel | left; lia] | lia
                | exact Hconf2].
    - cbv beta. intros c w' (r & -> & Hr). exists r.
      split; [reflexivity|].
      apply (backoff_outcome_next n w w2); [|exact Hw2 | exact Hr].
      intros k. now rewrite Hreplies. }
  assert (Hlast : forall msg w2,
             ig_replies w2 = ig_replies w1 ->
             failureCount (instagram w2) = failureCount (instagram w) + 1 ->
             InstagramService.maxRetries <= attempt + 1 ->
             backoff_outcome (S n) w (mkFetch false msg []) w2).
  { intros msg w2 Hreplies Hw2 Hmax. unfold backoff_outcome.
    rewrite (Hpage n), <- Hreplies.
    replace n with 0%nat by lia. cbn. repeat split. lia. }
  destruct (Z.leb_spec InstagramService.maxRetries (attempt + 1)) as [Hmax|Hmax];
    destruct (InstagramService.is429 e);
    destruct (Z.ltb_spec (attempt + 1) InstagramService.maxRetries)
      as [Hmore|Hmore];
    try (exfalso; lia);
    try (apply wp_bind, wp_modify);
    first
      [ apply wp_ret; eexists; split; [reflexivity|];
        apply Hlast; [reflexivity | cbn; lia | exact Hmax]
      | apply Hnext; [exact Hconf1 | reflexivity | cbn; lia | lia] ].
Qed.

(** X25. [scrapeProfile] of the Instagram poller (configured) always
    resolves, and settles the backoff by the replies to its at most three
    requests.  The first request that gets the page ends the fetch: the
    result is what the page yields (even if it cannot be parsed),
    [failureCount] is back at zero, and the later replies are left for
    later requests.  When the three requests all fail, the result is a
    failure without posts and [failureCount] has grown by exactly
    three. *)
Theorem instagram_backoff_accounting (w : World) :
  configured Instagram w = true ->
  exists r w',
    InstagramService.scrapeProfile w = (Normal r, w') /\
    match first_page 3 (ig_replies w) with
    | Some (jsonData, rest) =>
        r = page_result jsonData /\ ig_replies w' = rest /\
        failureCount (instagram w') = 0
    | None =>
        fetched r = false /\ posts r = [] /\
        failureCount (instagram w') = failureCount (instagram w) + 3
    end.
Proof.
  intros Hconf.
  pose proof (scrapeProfile_loop_page _ 0 w enough_fuel_scrapeProfile)
    as Hloop.
  unfold wp in Hloop. fold InstagramService.scrapeProfile in Hloop.
  destruct (InstagramService.scrapeProfile w) as [c w'].
  cbn [fst snd] in Hloop.
  destruct Hloop as (r & -> & Hr);
    [unfold InstagramService.maxRetries; lia | exact Hconf |].
  exists r, w'. split; [reflexivity | exact Hr].
Qed.

Lemma instagram_backoff_accounting_witness :
  exists r w',
    InstagramService.scrapeProfile
      (InstagramService.set_failureCount 4 world_500) = (Normal r, w') /\
    r = page_result (Some (IgTimeline one_post)) /\ ig_replies w' = [] /\
    failureCount (instagram w') = 0.
Proof.
  apply (instagram_backoff_accounting
           (InstagramService.set_failureCount 4 world_500)).
  reflexivity.
Defined.

(** * The slash command /check-now *)

#[export] Instance only_clock_preorder : PreOrder only_clock.
Proof.
  split; unfold only_clock.
  - intros w. split; [lia | now destruct w].
  - intros a b c [Hab Eb] [Hbc Ec]. split; [lia|]. rewrite Ec, Eb.
    now destruct a.
Qed.

#[export] Instance checks_only_preorder : PreOrder checks_only.
Proof.
  split.
  - intros w. exists []. now rewrite app_nil_r.
  - intros a b c (d1 & E1 & F1) (d2 & E2 & F2). exists (d1 ++ d2).
    rewrite E2, E1, app_assoc. split; [reflexivity|].
    apply Forall_app. auto.
Qed.

Lemma only_clock_trace w w' : only_clock w w' -> trace w' = trace w.
Proof. intros [_ ->]. reflexivity. Qed.

Lemma checkForNew_checks_only s : sat checks_only (checkForNew s).
Proof.
  eapply sat_weaken; [|apply (checkForNew_stage s)].
  intros w w' (d & Htr & Hd). exists d. split; [exact Htr|].
  eapply Forall_impl; [|exact Hd]. cbv beta. intros e He.
  destruct s, e; cbn in He |- *; try exact I; lia.
Qed.

Lemma check_now_check_checks_only (s : Source) (label : string)
  (results : list (string * CheckResult)) :
  sat checks_only
    (DiscordService.handleCheckNowCommand_check (isConfiguredOf s)
       (checkForNew s) label (platformOf s) results).
Proof.
  unfold DiscordService.handleCheckNowCommand_check.
  apply sat_bind; [exact _ | |intros configured].
  - destruct s; apply sat_gets; exact _.
  - destruct configured; [|apply sat_ret; exact _].
    apply sat_bind; [exact _ | apply checkForNew_checks_only | intros r].
    apply sat_ret. exact _.
Qed.

Lemma recorded_sends_chain d : recorded_sends d -> send_chain d.
Proof. induction 1; constructor; assumption. Qed.

Lemma recorded_sends_app d1 d2 :
  recorded_sends d1 -> recorded_sends d2 -> recorded_sends (d1 ++ d2).
Proof. induction 1; cbn; [auto | constructor; auto]. Qed.

Lemma send_chain_app d1 d2 :
  recorded_sends d1 -> send_chain d2 -> send_chain (d1 ++ d2).
Proof. induction 1; cbn; [auto | constructor; auto]. Qed.

Ltac sends_leaf d :=
  split; [discriminate|]; exists d;
  split; [cbn; rewrite <- ?app_assoc, ?app_nil_r; reflexivity|];
  split; [repeat constructor|];
  let a := fresh "a" in let E := fresh "E" in
  intros a E; first [discriminate E | repeat constructor].

Lemma sendSocialMediaUpdate_sends content platform w :
  wp (DiscordService.sendSocialMediaUpdate content platform) (sends_post w) w.
Proof.
  unfold DiscordService.sendSocialMediaUpdate, DiscordService.requireReady,
    DiscordService.channelSend, YouTubeService.formatForDiscord,
    InstagramService.formatForDiscord, LinkedInService.formatForDiscord,
    formatEmbed, toISOString.
  wp_steps.
  all: try (eapply wp_conseq; [apply recordSentNotification_spec|];
            cbv beta; intros [n|e0|] w1 (Hc & _ & Htr);
            [apply wp_ret; cbv beta iota | apply wp_throw | congruence];
            (split; [discriminate|]);
            exists [EvChannelSend platform (item_id content);
                    EvRecordSentNotification platform (item_id content)];
            (split; [rewrite Htr; cbn; rewrite <- app_assoc; reflexivity|]);
            (split; [repeat constructor|]);
            intros a E; repeat constructor).
  all: first
         [ sends_leaf (@nil Event)
         | sends_leaf [EvChannelSend platform (item_id content)] ].
Qed.

Lemma check_now_contents_sends contents platform :
  forall w,
    wp (DiscordService.handleCheckNowCommand_contents contents platform)
      (sends_post w) w.
Proof.
  induction contents as [|content rest IH]; intros w;
    cbn [DiscordService.handleCheckNowCommand_contents].
  - apply wp_ret. sends_leaf (@nil Event).
  - apply wp_bind. eapply wp_conseq; [apply sendSocialMediaUpdate_sends|].
    cbv beta. intros [m|e|] w1 (Hc & d1 & Htr1 & Hchain1 & Hrec1);
      [| |contradiction].
    + eapply wp_conseq; [apply IH|]. cbv beta.
      intros c w2 (Hc2 & d2 & Htr2 & Hchain2 & Hrec2).
      split; [exact Hc2|]. exists (d1 ++ d2).
      rewrite Htr2, Htr1, <- app_assoc. split; [reflexivity|].
      specialize (Hrec1 m eq_refl). split.
      * now apply send_chain_app.
      * intros a E. apply recorded_sends_app; [exact Hrec1 | eauto].
    + split; [discriminate|]. exists d1. split; [exact Htr1|].
      split; [exact Hchain1|]. intros a E. discriminate E.
Qed.

Lemma check_now_results_sends results :
  forall total w,
    wp (DiscordService.handleCheckNowCommand_results results total)
      (sends_post w) w.
Proof.
  induction results as [|result rest IH]; intros total w;
    cbn [DiscordService.handleCheckNowCommand_results].
  - apply wp_ret. sends_leaf (@nil Event).
  - destruct (success (snd result) && _); [|apply IH].
    apply wp_bind. eapply wp_conseq; [apply check_now_contents_sends|].
    cbv beta. intros [u|e|] w1 (Hc & d1 & Htr1 & Hchain1 & Hrec1);
      [| |contradiction].
    + eapply wp_conseq; [apply IH|]. cbv beta.
      intros c w2 (Hc2 & d2 & Htr2 & Hchain2 & Hrec2).
      split; [exact Hc2|]. exists (d1 ++ d2).
      rewrite Htr2, Htr1, <- app_assoc. split; [reflexivity|].
      specialize (Hrec1 u eq_refl). split.
      * now apply send_chain_app.
      * intros a E. apply recorded_sends_app; [exact Hrec1 | eauto].
    + split; [discriminate|]. exists d1. split; [exact Htr1|].
      split; [exact Hchain1|]. intros a E. discriminate E.
Qed.

Ltac wp_sat_as lemma a e v Hc Hrel :=
  apply wp_bind; eapply wp_conseq; [apply lemma|];
  cbv beta; intros [a|e|] v [Hc Hrel]; [ | | contradiction].

(** X26. The slash command /check-now runs all the checks first and sends
    afterwards: in what it adds to the trace, every operation of a check
    (cursor updates included) comes before every send.  Its sends stop at
    the first one that fails: a send that is not followed by the recording
    of its notification is the last operation of the command.  (The
    methods of the interaction are taken to leave the bot alone.) *)
Theorem check_now_checks_then_sends
  (interaction : DiscordService.Interaction) (w : World) :
  passive interaction ->
  exists c w' checks sends,
    DiscordService.handleCheckNowCommand interaction w = (c, w') /\
    c <> OutOfFuel /\
    trace w' = trace w ++ checks ++ sends /\
    Forall is_check checks /\
    send_chain sends.
Proof.
  intros [Hdefer Hedit].
  assert (Hcommand :
    wp (DiscordService.handleCheckNowCommand interaction)
      (fun c w' =>
         c <> OutOfFuel /\
         exists checks sends,
           trace w' = trace w ++ checks ++ sends /\
           Forall is_check checks /\ send_chain sends) w).
  { assert (Hreply : forall reply v checks sends,
               trace v = trace w ++ checks ++ sends ->
               Forall is_check checks -> send_chain sends ->
               wp (DiscordService.editReply interaction reply)
                 (fun c w' =>
                    c <> OutOfFuel /\
                    exists checks sends,
                      trace w' = trace w ++ checks ++ sends /\
                      Forall is_check checks /\ send_chain sends) v).
    { intros reply v checks sends Htr Hchecks Hsends.
      eapply wp_conseq; [apply Hedit|]. cbv beta. intros c v' [Hc Hclock].
      split; [exact Hc|]. exists checks, sends.
      rewrite (only_clock_trace v v' Hclock). auto. }
    unfold DiscordService.handleCheckNowCommand.
    wp_sat_as Hdefer u0 e0 w0 Hc0 H0.
    2: { split; [discriminate|]. exists [], [].
         rewrite (only_clock_trace _ _ H0), !app_nil_r.
         repeat split; constructor. }
    pose proof (only_clock_trace _ _ H0) as Htr0.
    apply wp_try_catch.
    pose proof (Hreply DiscordService.ReplyFailed) as Hfailed.
    wp_sat_as (Hedit DiscordService.ReplyChecking) u1 e1 w1 Hc1 H1.
    2: { cbv beta iota; apply (Hfailed _ [] []);
           [ rewrite (only_clock_trace _ _ H1), Htr0, !app_nil_r; reflexivity
           | constructor | constructor ]. }
    pose proof (only_clock_trace _ _ H1) as Htr1.
    wp_sat_as (check_now_check_checks_only YouTube "YouTube" [])
      r2 e2 w2 Hc2 H2.
    2: { destruct H2 as (d & Hd & Hcheck).
         cbv beta iota; apply (Hfailed _ d []);
           [ rewrite Hd, Htr1, Htr0, app_nil_r; reflexivity
           | exact Hcheck | constructor ]. }
    wp_sat_as (check_now_check_checks_only Instagram "Instagram" r2)
      r3 e3 w3 Hc3 H3.
    2: { pose proof (transitivity H2 H3) as (d & Hd & Hcheck).
         cbv beta iota; apply (Hfailed _ d []);
           [ rewrite Hd, Htr1, Htr0, app_nil_r; reflexivity
           | exact Hcheck | constructor ]. }
    wp_sat_as (check_now_check_checks_only LinkedIn "LinkedIn" r3)
      r4 e4 w4 Hc4 H4.
    2: { pose proof (transitivity (transitivity H2 H3) H4)
           as (d & Hd & Hcheck).
         cbv beta iota; apply (Hfailed _ d []);
           [ rewrite Hd, Htr1, Htr0, app_nil_r; reflexivity
           | exact Hcheck | constructor ]. }
    pose proof (transitivity (transitivity H2 H3) H4) as (d & Hd & Hcheck).
    apply wp_bind. eapply wp_conseq; [apply check_now_results_sends|].
    cbv beta. intros [total|e|] v (Hc & sends & Hs & Hchain & _);
      [| |contradiction].
    - eapply wp_conseq.
      { apply (Hreply _ v d sends);
          [ rewrite Hs, Hd, Htr1, Htr0, app_assoc; reflexivity
          | exact Hcheck | exact Hchain ]. }
      cbv beta. intros [[]|e|] v' Hpost; [exact Hpost | | exact Hpost].
      destruct Hpost as (_ & checks' & sends' & Htr' & Hchecks' & Hsends').
      now apply (Hreply _ v' checks' sends').
    - apply (Hreply _ v d sends);
        [ rewrite Hs, Hd, Htr1, Htr0, app_assoc; reflexivity
        | exact Hcheck | exact Hchain ]. }
  unfold wp in Hcommand.
  destruct (DiscordService.handleCheckNowCommand interaction w) as [c w'].
  cbn [fst snd] in Hcommand.
  destruct Hcommand as (Hc & checks & sends & Htr & Hchecks & Hsends).
  exists c, w', checks, sends. auto.
Qed.

Lemma check_now_checks_then_sends_witness :
  passive interaction0 /\
  exists c w' checks sends,
    DiscordService.handleCheckNowCommand interaction0 world_cycle = (c, w') /\
    c <> OutOfFuel /\
    trace w' = trace world_cycle ++ checks ++ sends /\
    Forall is_check checks /\
    send_chain sends.
Proof.
  assert (H : passive interaction0).
  { split; [|intros reply]; apply sat_ret; exact _. }
  split; [exact H|].
  exact (check_now_checks_then_sends interaction0 world_cycle H).
Defined.
